(** * InterviewBuddy: the response-delivery core

    A shallow embedding of [server/services/aiService.js] (the retry policy
    [retryWithBackoff] and the orchestrator [generateInterviewResponse]) and
    of [server/services/geminiService.js] (the adapter
    [generateGeminiResponse]), with the properties the specification states
    about them; and of the handlers of [server/services/websocketServer.js]
    that call into this core or keep the settings it is called with.

    Conventions of the embedding.
    - A JavaScript string is the list of its UTF-16 code units.
    - A JavaScript value is a [jsval]; numbers are IEEE 754 doubles.
    - An asynchronous function is a computation in the monad [M]: it threads
      the state of the collaborators and the trace of the calls made to
      them, and finishes with a value or with a thrown [exn].  Effects that
      happened before a [throw] stay, as they do in JavaScript.
    - Thrown values are [Error] objects: they carry a string [message].
    - Calls to [logger], [console] and [Date.now] are left out where they
      return nothing the code branches on; a log line whose text is built
      from a value of the client is kept for the exception that building it
      can throw. *)

From Stdlib Require Import List String Ascii Bool ZArith NArith Lia.
From Stdlib Require Import Floats DecimalString.
Import ListNotations.

Set Implicit Arguments.

(* ------------------------------------------------------------------ *)
(** ** JavaScript strings *)

Module Js.

Definition codeunit := N.
Definition jsstring := list codeunit.

(** The string a source literal denotes. *)
Fixpoint lit (s : string) : jsstring :=
  match s with
  | EmptyString => []
  | String c s' => N_of_ascii c :: lit s'
  end.

Definition codeunit_eqb (a b : codeunit) : bool := N.eqb a b.

Fixpoint jsstring_eqb (a b : jsstring) : bool :=
  match a, b with
  | [], [] => true
  | x :: a', y :: b' => codeunit_eqb x y && jsstring_eqb a' b'
  | _, _ => false
  end.

(** [startsWith s p]: [p] is a prefix of [s]. *)
Fixpoint startsWith (s p : jsstring) : bool :=
  match p, s with
  | [], _ => true
  | _ :: _, [] => false
  | x :: p', y :: s' => codeunit_eqb x y && startsWith s' p'
  end.

(** [String.prototype.includes]: [p] occurs in [s]. *)
Fixpoint includes (s p : jsstring) : bool :=
  startsWith s p ||
  match s with
  | [] => false
  | _ :: s' => includes s' p
  end.

(** [s.substring(0, n)] for [0 <= n]. *)
Definition substring0 (n : nat) (s : jsstring) : jsstring := firstn n s.

(** [Array.prototype.slice(-n)]: the last [n] elements. *)
Definition slice_last {A} (n : nat) (l : list A) : list A :=
  skipn (List.length l - n) l.

(** [Array.prototype.join]. *)
Fixpoint join (sep : jsstring) (l : list jsstring) : jsstring :=
  match l with
  | [] => []
  | [x] => x
  | x :: l' => x ++ sep ++ join sep l'
  end.

(** WhiteSpace and LineTerminator code units, the ones [trim] removes. *)
Definition is_whitespace (c : codeunit) : bool :=
  ((9 <=? c) && (c <=? 13) || (c =? 32) || (c =? 160) || (c =? 5760)
   || (8192 <=? c) && (c <=? 8202) || (c =? 8232) || (c =? 8233)
   || (c =? 8239) || (c =? 8287) || (c =? 12288) || (c =? 65279))%N.

Fixpoint trimStart (s : jsstring) : jsstring :=
  match s with
  | c :: s' => if is_whitespace c then trimStart s' else s
  | [] => []
  end.

Definition trim (s : jsstring) : jsstring :=
  rev (trimStart (rev (trimStart s))).

(** [s.replace(/<pat>\n?/g, '')]: every occurrence of [pat], with the line
    feed that may follow it, is removed, scanning from the left.  [skip] is
    the number of code units of the current match still to drop. *)
Fixpoint remove_all_from (pat : jsstring) (skip : nat) (s : jsstring)
  : jsstring :=
  match s with
  | [] => []
  | c :: s' =>
      match skip with
      | S k => remove_all_from pat k s'
      | O =>
          if startsWith s pat then
            let after := skipn (List.length pat) s in
            let lf := match after with
                      | 10%N :: _ => 1
                      | _ => 0
                      end in
            remove_all_from pat (List.length pat - 1 + lf) s'
          else c :: remove_all_from pat 0 s'
      end
  end.

Definition remove_all (pat s : jsstring) : jsstring :=
  match pat with
  | [] => s
  | _ :: _ => remove_all_from pat 0 s
  end.

(** Number-to-string of an integer, as a template literal renders it. *)
Definition string_of_Z (z : Z) : jsstring :=
  lit (NilZero.string_of_int (Z.to_int z)).

End Js.
Import Js.

(* ------------------------------------------------------------------ *)
(** ** JavaScript values *)

#[warnings="-register-all"]
Inductive jsval : Type :=
| JUndefined
| JNull
| JBool (b : bool)
| JNum (x : float)
| JStr (s : jsstring)
| JArr (items : list jsval)
| JObj (props : list (jsstring * jsval)).

(** ToBoolean. *)
Definition truthy (v : jsval) : bool :=
  match v with
  | JUndefined | JNull => false
  | JBool b => b
  | JNum x => negb (PrimFloat.eqb x 0 || negb (PrimFloat.eqb x x))
  | JStr [] => false
  | JStr (_ :: _) => true
  | JArr _ | JObj _ => true
  end.

(** [a || b]. *)
Definition js_or (a b : jsval) : jsval := if truthy a then a else b.

(** [a || b] where [a] is a string or [null]/[undefined], [b] a string. *)
Definition or_string (a : option jsstring) (b : jsstring) : jsstring :=
  match a with
  | Some (c :: s) => c :: s
  | Some [] | None => b
  end.

(** [!a] for a string or [null]. *)
Definition falsy_string (a : option jsstring) : bool :=
  match a with
  | Some (_ :: _) => false
  | Some [] | None => true
  end.

Definition isArray (v : jsval) : bool :=
  match v with
  | JArr _ => true
  | _ => false
  end.

Fixpoint lookup (name : jsstring) (props : list (jsstring * jsval)) : jsval :=
  match props with
  | [] => JUndefined
  | (k, v) :: props' => if jsstring_eqb k name then v else lookup name props'
  end.

(** Thrown values: [Error] objects (and its subclass [TypeError]). *)
Inductive exn : Type :=
| Error (msg : jsstring)
| TypeError (msg : jsstring).

Definition message (e : exn) : jsstring :=
  match e with
  | Error m | TypeError m => m
  end.

Inductive result (A : Type) : Type :=
| Ok (a : A)
| Throw (e : exn).
Arguments Ok {A} a.
Arguments Throw {A} e.

(** [v.name], for a [name] that is no property of arrays, strings, numbers
    or booleans (such as [answer]): only an object can have it, and reading
    it off [null] or [undefined] throws. *)
Definition get_field (v : jsval) (name : string) : result jsval :=
  match v with
  | JUndefined =>
      Throw (TypeError (lit "Cannot read properties of undefined (reading '"
                        ++ lit name ++ lit "')"))
  | JNull =>
      Throw (TypeError (lit "Cannot read properties of null (reading '"
                        ++ lit name ++ lit "')"))
  | JObj props => Ok (lookup (lit name) props)
  | _ => Ok JUndefined
  end.

(** [v?.[0]]. *)
Definition get_index0_opt (v : jsval) : jsval :=
  match v with
  | JArr (x :: _) => x
  | JStr (c :: _) => JStr [c]
  | JObj props => lookup (lit "0") props
  | _ => JUndefined
  end.

(** The response object both adapters and the orchestrator return. *)
Record response : Type := mkResponse {
  answer : jsval;
  experience_mentioned : jsval;
  key_technologies : jsval;
  follow_up_topics : jsval;
  score : jsval;
  strengths : jsval;
  weaknesses : jsval;
  suggestion : jsval;
  next_question : jsval;
  error : jsval;
  provider : jsval;
  model : jsval
}.

(** The fields [provider] and [model], for where a parameter of the same
    name is in scope. *)
Definition provider_of (r : response) : jsval := provider r.
Definition model_of (r : response) : jsval := model r.

(** [result.provider = p; result.model = m]. *)
Definition set_provider_model (r : response) (p m : jsval) : response :=
  {| answer := answer r;
     experience_mentioned := experience_mentioned r;
     key_technologies := key_technologies r;
     follow_up_topics := follow_up_topics r;
     score := score r;
     strengths := strengths r;
     weaknesses := weaknesses r;
     suggestion := suggestion r;
     next_question := next_question r;
     error := error r;
     provider := p;
     model := m |}.

(** A conversation turn and the retrieved context of a request. *)
Record turn : Type := { role : jsstring; content : jsstring }.

Record context : Type := {
  resume : option jsstring;
  previousAnswers : option (list jsstring)
}.

(** What [checkRateLimit] returns: [{ allowed, reason?, retryAfter? }]. *)
Record rateLimitCheck : Type := {
  allowed : bool;
  reason : option jsstring;
  retryAfter : option Z
}.

(** A value inside a template literal. *)
Definition show_string (s : option jsstring) : jsstring :=
  match s with
  | Some s => s
  | None => lit "undefined"
  end.

Definition show_number (z : option Z) : jsstring :=
  match z with
  | Some z => string_of_Z z
  | None => lit "undefined"
  end.

(* ------------------------------------------------------------------ *)
(** ** The collaborators and the monad of asynchronous functions *)

(** The trace: one entry per call of a collaborator, per entry into an
    adapter and per [sleep]. *)
Inductive event : Type :=
| RateLimitCheck (provider : jsstring)
| CacheGet (question provider : jsstring) (model persona : option jsstring)
| CacheSet (question : jsstring) (r : response) (provider : jsstring)
           (model persona : option jsstring)
| GroqCall (question : jsstring)
| GeminiCall (question model : jsstring)
| BackendCall (model prompt : jsstring)
| Sleep (ms : Z).

(** The modules the core imports, over their own state [St]:
    [rateLimiter.js], [cacheService.js], [geminiClient.js] (the groq
    adapter), the Gemini SDK ([getGenerativeModel], [generateContent] and
    [response.text()] as one call that returns the text or throws),
    [JSON.parse] ([None] when it throws), the two [process.env] entries
    read, and whether [initializeGemini] has set [genAI].  The rate limiter
    and the cache return, as their contracts say; the groq adapter and the
    backend return or throw. *)
Class Services (St : Type) : Type := {
  checkRateLimit : jsstring -> St -> rateLimitCheck * St;
  isCacheable : jsstring -> bool;
  getCachedAIResponse :
    jsstring -> jsstring -> option jsstring -> option jsstring ->
    St -> option response * St;
  cacheAIResponse :
    jsstring -> response -> jsstring -> option jsstring -> option jsstring ->
    St -> St;
  generateGroqResponse :
    jsstring -> list turn -> jsstring -> option context -> option jsstring ->
    St -> result response * St;
  generateContent : jsstring -> jsstring -> St -> result jsstring * St;
  JSON_parse : jsstring -> option jsval;
  env_GROQ_MODEL : option jsstring;
  env_GEMINI_MODEL : option jsstring;
  genAI : bool
}.

Record world (St : Type) : Type := {
  services : St;
  trace : list event
}.

Definition M (St A : Type) : Type := world St -> result A * world St.

Section Monad.
Context {St : Type}.

Definition ret {A} (a : A) : M St A := fun w => (Ok a, w).

Definition bind {A B} (c : M St A) (k : A -> M St B) : M St B :=
  fun w =>
    match c w with
    | (Ok a, w') => k a w'
    | (Throw e, w') => (Throw e, w')
    end.

Definition throw {A} (e : exn) : M St A := fun w => (Throw e, w).

(** [try { body } catch (error) { handler }]. *)
Definition try_catch {A} (body : M St A) (handler : exn -> M St A)
  : M St A :=
  fun w =>
    match body w with
    | (Ok a, w') => (Ok a, w')
    | (Throw e, w') => handler e w'
    end.

Definition of_result {A} (r : result A) : M St A := fun w => (r, w).

Definition emit (ev : event) : M St unit :=
  fun w => (Ok tt, {| services := services w; trace := trace w ++ [ev] |}).

(** A call to a collaborator that returns. *)
Definition call {A} (ev : event) (f : St -> A * St) : M St A :=
  fun w =>
    let (a, s') := f (services w) in
    (Ok a, {| services := s'; trace := trace w ++ [ev] |}).

(** A call to a collaborator that returns or throws. *)
Definition call_throwing {A} (ev : event) (f : St -> result A * St)
  : M St A :=
  fun w =>
    let (r, s') := f (services w) in
    (r, {| services := s'; trace := trace w ++ [ev] |}).

End Monad.

Notation "x <- c ;; k" := (bind c (fun x => k))
  (at level 61, c at next level, right associativity).
Notation "c ;; k" := (bind c (fun _ => k))
  (at level 61, right associativity).

(* ------------------------------------------------------------------ *)
(** ** geminiService.js *)

Module GeminiService.
Section GeminiService.
Context {St : Type} {Svc : Services St}.

(** A source literal in which [~] stands for the double quote. *)
Definition lit_q (s : string) : jsstring :=
  map (fun c => if codeunit_eqb c 126%N then 34%N else c) (lit s).

Definition SYSTEM_PROMPT : jsstring :=
  lit_q "You are an experienced professional being interviewed for a position.

Your role:
- You ARE the candidate with 8+ years of experience in your field
- Answer interview questions directly and professionally
- Provide detailed, specific examples from ~your experience~
- Demonstrate deep knowledge and expertise
- Be confident and articulate
- Use first person (~I~, ~my~, ~I've worked on~)

Response format:
{
  ~answer~: ~Your complete, detailed answer (4-6 sentences with specific examples)~,
  ~experience_mentioned~: [~specific example 1~, ~specific example 2~],
  ~key_technologies~: [~tech1~, ~tech2~, ~tech3~],
  ~follow_up_topics~: [~topic the interviewer might ask about next~]
}".

Definition LF : jsstring := [10%N].

(** [contextString], from the retrieved context. *)
Definition contextString (retrievedContext : option context) : jsstring :=
  match retrievedContext with
  | None => []
  | Some c =>
      (if falsy_string (resume c) then []
       else LF ++ LF ++ lit "[CANDIDATE RESUME CONTEXT]" ++ LF
            ++ show_string (resume c) ++ LF)
      ++
      match previousAnswers c with
      | Some (a :: l) =>
          LF ++ LF ++ lit "[PREVIOUS ANSWERS SUMMARY]" ++ LF
          ++ join LF (a :: l) ++ LF
      | Some [] | None => []
      end
  end.

(** [historyString], from the last ten turns. *)
Definition historyString (conversationHistory : list turn) : jsstring :=
  match conversationHistory with
  | [] => []
  | _ :: _ =>
      fold_left
        (fun acc msg => acc ++ role msg ++ lit ": " ++ content msg ++ LF)
        (slice_last 10 conversationHistory)
        (LF ++ LF ++ lit "[CONVERSATION HISTORY]" ++ LF)
  end.

Definition fullPrompt (userMessage : jsstring) (conversationHistory : list turn)
    (roleType : jsstring) (retrievedContext : option context)
    (customPersona : option jsstring) : jsstring :=
  or_string customPersona SYSTEM_PROMPT
  ++ LF ++ LF
  ++ (if falsy_string customPersona
      then lit "[YOUR ROLE]" ++ LF ++ lit "You are an experienced "
           ++ roleType
           ++ lit " professional with 8+ years of industry experience."
      else [])
  ++ LF ++ LF
  ++ contextString retrievedContext
  ++ LF ++ LF
  ++ historyString conversationHistory
  ++ LF ++ LF
  ++ lit "[INTERVIEWER'S QUESTION]" ++ LF
  ++ userMessage
  ++ LF ++ LF
  ++ lit "Provide your complete answer in the specified JSON format. Use first person and specific examples.".

(** [text.replace(/```json\n?/g, '').replace(/```\n?/g, '').trim()]. *)
Definition cleanedText (text : jsstring) : jsstring :=
  trim (remove_all (lit "```") (remove_all (lit "```json") text)).

(** The object the inner [catch] builds when [JSON.parse] throws. *)
Definition parseFallback (text : jsstring) : jsval :=
  JObj [ (lit "answer",
          js_or (JStr (substring0 500 text))
                (JStr (lit "Based on my extensive experience in this field, I can provide detailed insights...")));
         (lit "experience_mentioned", JArr []);
         (lit "key_technologies", JArr []);
         (lit "follow_up_topics", JArr []) ].

Definition parseResponse (text : jsstring) : jsval :=
  match JSON_parse (cleanedText text) with
  | Some v => v
  | None => parseFallback text
  end.

Definition field (v : jsval) (name : string) : M St jsval :=
  of_result (get_field v name).

Definition arrayOrEmpty (v : jsval) : jsval :=
  if isArray v then v else JArr [].

Definition validatedResponse (parsedResponse : jsval) (model : jsstring)
  : M St response :=
  p_answer <- field parsedResponse "answer" ;;
  p_experience <- field parsedResponse "experience_mentioned" ;;
  p_technologies <- field parsedResponse "key_technologies" ;;
  p_topics <- field parsedResponse "follow_up_topics" ;;
  ret {| answer :=
           js_or p_answer
             (JStr (lit "I have several years of hands-on experience with this..."));
         experience_mentioned := arrayOrEmpty p_experience;
         key_technologies := arrayOrEmpty p_technologies;
         follow_up_topics := arrayOrEmpty p_topics;
         score := JNum 85;
         strengths :=
           js_or p_experience (JArr [JStr (lit "Demonstrated experience")]);
         weaknesses := JArr [];
         suggestion := js_or p_answer (JStr []);
         next_question :=
           js_or (get_index0_opt p_topics)
                 (JStr (lit "Tell me more about your experience."));
         error := JUndefined;
         provider := JStr (lit "gemini");
         model := JStr model |}.

(** The response of the outer [catch]. *)
Definition errorResponse (e : exn) (model : jsstring) : response :=
  {| answer := JStr (lit "I have extensive experience in this area. Let me share a specific example from my previous role...");
     experience_mentioned := JArr [];
     key_technologies := JArr [];
     follow_up_topics := JArr [];
     score := JNum 0;
     strengths := JArr [];
     weaknesses := JArr [JStr (lit "Error processing request with Gemini")];
     suggestion := JStr (lit "I have extensive experience in this area. Let me share a specific example...");
     next_question := JStr (lit "Could you tell me more about your experience?");
     error := JStr (message e);
     provider := JStr (lit "gemini");
     model := JStr model |}.

(** The default of the parameter [model]; [None] is a caller that leaves it
    [undefined]. *)
Definition modelOrDefault (model : option jsstring) : jsstring :=
  match model with
  | Some m => m
  | None => or_string env_GEMINI_MODEL (lit "gemini-2.0-flash-exp")
  end.

Definition generateGeminiResponse (userMessage : jsstring)
    (model : option jsstring) (conversationHistory : list turn)
    (roleType : jsstring) (retrievedContext : option context)
    (customPersona : option jsstring) : M St response :=
  let model := modelOrDefault model in
  emit (GeminiCall userMessage model) ;;
  try_catch
    ((if genAI then ret tt
      else throw (Error (lit "Gemini client not initialized"))) ;;
     text <- call_throwing
               (BackendCall model
                  (fullPrompt userMessage conversationHistory roleType
                     retrievedContext customPersona))
               (generateContent model
                  (fullPrompt userMessage conversationHistory roleType
                     retrievedContext customPersona)) ;;
     validatedResponse (parseResponse text) model)
    (fun error => ret (errorResponse error model)).

End GeminiService.
End GeminiService.

(* ------------------------------------------------------------------ *)
(** ** aiService.js *)

Module AiService.
Import GeminiService.

Record retryConfig : Type := {
  maxRetries : nat;
  initialDelay : Z;
  maxDelay : Z;
  backoffMultiplier : Z
}.

Definition RETRY_CONFIG : retryConfig :=
  {| maxRetries := 3;
     initialDelay := 1000;
     maxDelay := 10000;
     backoffMultiplier := 2 |}.

(** The test on [error.message] in the [catch] of [retryWithBackoff]. *)
Definition isRetryable (msg : jsstring) : bool :=
  includes msg (lit "timeout")
  || includes msg (lit "ECONNRESET")
  || includes msg (lit "ETIMEDOUT")
  || includes msg (lit "429")
  || includes msg (lit "503")
  || includes msg (lit "500").

Definition nextDelay (delay : Z) : Z :=
  Z.min (delay * backoffMultiplier RETRY_CONFIG) (maxDelay RETRY_CONFIG).

Section AiService.
Context {St : Type} {Svc : Services St}.

Definition sleep (ms : Z) : M St unit := emit (Sleep ms).

(** [retries] counts down to [0]; the only caller starts it at
    [RETRY_CONFIG.maxRetries]. *)
Fixpoint retryWithBackoff {A} (fn : M St A) (retries : nat) (delay : Z)
  : M St A :=
  try_catch fn
    (fun error =>
       match retries with
       | O => throw error
       | Datatypes.S retries' =>
           if negb (isRetryable (message error)) then throw error
           else
             sleep delay ;;
             retryWithBackoff fn retries' (nextDelay delay)
       end).

(** The function handed to [retryWithBackoff] (step 3). *)
Definition providerCall (question provider : jsstring)
    (model : option jsstring) (conversationHistory : list turn)
    (roleType : jsstring) (retrievedContext : option context)
    (customPersona : option jsstring) : M St response :=
  if jsstring_eqb provider (lit "groq") then
    result <- call_throwing (GroqCall question)
                (generateGroqResponse question conversationHistory roleType
                   retrievedContext customPersona) ;;
    ret (set_provider_model result
           (JStr (lit "groq"))
           (JStr (or_string model
                    (or_string env_GROQ_MODEL
                       (lit "llama-3.3-70b-versatile")))))
  else if jsstring_eqb provider (lit "gemini") then
    generateGeminiResponse question
      (Some (or_string model
               (or_string env_GEMINI_MODEL (lit "gemini-2.0-flash-exp"))))
      conversationHistory roleType retrievedContext customPersona
  else
    throw (Error (lit "Unknown provider: " ++ provider)).

(** The message of the error thrown on a rate-limit rejection. *)
Definition rateLimitMessage (c : rateLimitCheck) : jsstring :=
  show_string (reason c) ++ lit ". Please wait "
  ++ show_number (retryAfter c) ++ lit " seconds and try again.".

(** The response of the [catch] of [generateInterviewResponse]. *)
Definition fallbackResponse (e : exn) (provider : jsstring)
    (model : option jsstring) : response :=
  {| answer :=
       JStr (lit "I apologize, but I'm having trouble generating a response right now. "
             ++ message e ++ lit ". Please try again in a moment.");
     experience_mentioned := JArr [];
     key_technologies := JArr [];
     follow_up_topics := JArr [];
     score := JNum 0;
     strengths := JArr [];
     weaknesses :=
       JArr [JStr (lit "Error with " ++ provider ++ lit ": " ++ message e)];
     suggestion :=
       JStr (lit "Please try your question again or switch to a different AI provider.");
     next_question := JStr (lit "Could you rephrase your question?");
     error := JStr (message e);
     provider := JStr provider;
     model := JStr (or_string model (lit "unknown")) |}.

Definition generateInterviewResponse (question provider : jsstring)
    (model : option jsstring) (conversationHistory : list turn)
    (roleType : jsstring) (retrievedContext : option context)
    (customPersona : option jsstring) : M St response :=
  try_catch
    ((* Step 1: check rate limits *)
     rateLimitCheck <- call (RateLimitCheck provider)
                         (checkRateLimit provider) ;;
     (if negb (allowed rateLimitCheck)
      then throw (Error (rateLimitMessage rateLimitCheck))
      else ret tt) ;;
     (* Step 2: check cache (only for cacheable questions) *)
     cachedResponse <-
       (if isCacheable question
        then call (CacheGet question provider model customPersona)
               (getCachedAIResponse question provider model customPersona)
        else ret None) ;;
     match cachedResponse with
     | Some cached => ret cached
     | None =>
         (* Step 3: generate response with retry logic *)
         response <- retryWithBackoff
                       (providerCall question provider model
                          conversationHistory roleType retrievedContext
                          customPersona)
                       (maxRetries RETRY_CONFIG)
                       (initialDelay RETRY_CONFIG) ;;
         (* Step 4: cache the response *)
         (if isCacheable question
          then call (CacheSet question response provider model customPersona)
                 (fun s => (tt, cacheAIResponse question response provider
                                  model customPersona s))
          else ret tt) ;;
         ret response
     end)
    (fun error => ret (fallbackResponse error provider model)).

End AiService.

Arguments retryWithBackoff : simpl never.

End AiService.

(* ------------------------------------------------------------------ *)
(** ** Reading a trace *)

Module Trace.

Fixpoint sleeps (tr : list event) : list Z :=
  match tr with
  | [] => []
  | Sleep ms :: tr' => ms :: sleeps tr'
  | _ :: tr' => sleeps tr'
  end.

Definition is_groq_call (ev : event) : bool :=
  match ev with
  | GroqCall _ => true
  | _ => false
  end.

Definition is_gemini_call (ev : event) : bool :=
  match ev with
  | GeminiCall _ _ => true
  | _ => false
  end.

(** An adapter invocation: [generateGroqResponse] or
    [generateGeminiResponse]. *)
Definition is_adapter_call (ev : event) : bool :=
  is_groq_call ev || is_gemini_call ev.

Definition is_backend_call (ev : event) : bool :=
  match ev with
  | BackendCall _ _ => true
  | _ => false
  end.

Definition is_cache_op (ev : event) : bool :=
  match ev with
  | CacheGet _ _ _ _ | CacheSet _ _ _ _ _ => true
  | _ => false
  end.

Definition is_cache_write (ev : event) : bool :=
  match ev with
  | CacheSet _ _ _ _ _ => true
  | _ => false
  end.

Definition count (p : event -> bool) (tr : list event) : nat :=
  List.length (filter p tr).

End Trace.
Import Trace.

(* ------------------------------------------------------------------ *)
(** ** Test doubles

    Collaborators scripted the way the repository's tests mock them: a fixed
    answer of the rate limiter, a one-slot cache, a groq adapter whose
    outcome depends on how many times it has been called, a Gemini backend
    with a fixed outcome, and a [JSON.parse] that knows a few texts. *)

Module Mock.

Record script : Type := {
  rate : rateLimitCheck;
  cacheable : bool;
  groq : nat -> result response;
  backend : result jsstring;
  parse : jsstring -> option jsval;
  initialized : bool
}.

Record store : Type := {
  slot : option response;
  groq_calls : nat
}.

#[export] Instance mocked (sc : script) : Services store := {
  checkRateLimit := fun _ s => (rate sc, s);
  isCacheable := fun _ => cacheable sc;
  getCachedAIResponse := fun _ _ _ _ s => (slot s, s);
  cacheAIResponse := fun _ r _ _ _ s =>
    {| slot := Some r; groq_calls := groq_calls s |};
  generateGroqResponse := fun _ _ _ _ _ s =>
    (groq sc (groq_calls s),
     {| slot := slot s; groq_calls := Datatypes.S (groq_calls s) |});
  generateContent := fun _ _ s => (backend sc, s);
  JSON_parse := parse sc;
  env_GROQ_MODEL := None;
  env_GEMINI_MODEL := None;
  genAI := initialized sc
}.

Definition allow_all : rateLimitCheck :=
  {| allowed := true; reason := None; retryAfter := None |}.

Definition reject_60 : rateLimitCheck :=
  {| allowed := false;
     reason := Some (lit "Rate limit exceeded");
     retryAfter := Some 60%Z |}.

Definition plain (text : string) : response :=
  {| answer := JStr (lit text);
     experience_mentioned := JArr [];
     key_technologies := JArr [];
     follow_up_topics := JArr [];
     score := JNum 85;
     strengths := JArr [];
     weaknesses := JArr [];
     suggestion := JStr [];
     next_question := JStr [];
     error := JUndefined;
     provider := JStr (lit "groq");
     model := JStr (lit "test-model") |}.

(** A [JSON.parse] that accepts [null] and [{}] only. *)
Definition parse_null_or_empty (s : jsstring) : option jsval :=
  if jsstring_eqb s (lit "null") then Some JNull
  else if jsstring_eqb s (lit "{}") then Some (JObj [])
  else None.

(** Every groq call fails with [msg]; nothing is cached yet. *)
Definition groq_fails (msg : string) : script :=
  {| rate := allow_all;
     cacheable := true;
     groq := fun _ => Throw (Error (lit msg));
     backend := Throw (Error (lit "unused"));
     parse := parse_null_or_empty;
     initialized := true |}.

(** The first [n] groq calls fail with [msg], the next one answers. *)
Definition groq_recovers (n : nat) (msg : string) : script :=
  {| rate := allow_all;
     cacheable := true;
     groq := fun k => if Nat.ltb k n then Throw (Error (lit msg))
                      else Ok (plain "Recovered answer");
     backend := Throw (Error (lit "unused"));
     parse := parse_null_or_empty;
     initialized := true |}.

(** The Gemini backend has the outcome [b]. *)
Definition gemini_backend (b : result jsstring) : script :=
  {| rate := allow_all;
     cacheable := true;
     groq := fun _ => Throw (Error (lit "unused"));
     backend := b;
     parse := parse_null_or_empty;
     initialized := true |}.

(** The rate limiter rejects. *)
Definition rate_limited : script :=
  {| rate := reject_60;
     cacheable := true;
     groq := fun _ => Ok (plain "never asked");
     backend := Ok (lit "never asked");
     parse := parse_null_or_empty;
     initialized := true |}.

Definition empty : world store :=
  {| services := {| slot := None; groq_calls := 0 |}; trace := [] |}.

Definition holding (r : response) : world store :=
  {| services := {| slot := Some r; groq_calls := 0 |}; trace := [] |}.

(** One invocation of the orchestrator against a script: no model, no
    history, role "general", no context, no persona. *)
Definition run (sc : script) (question provider : string)
  : M store response :=
  AiService.generateInterviewResponse (Svc := mocked sc)
    (lit question) (lit provider) None [] (lit "general") None None.

(** One invocation of the Gemini adapter against a script. *)
Definition run_gemini (sc : script) (question : string)
  : M store response :=
  GeminiService.generateGeminiResponse (Svc := mocked sc)
    (lit question) None [] (lit "general") None None.

(** The groq branch of the provider call against a script. *)
Definition groq_attempt (sc : script) (question : string)
  : M store response :=
  AiService.providerCall (Svc := mocked sc)
    (lit question) (lit "groq") None [] (lit "general") None None.

End Mock.

(* ------------------------------------------------------------------ *)
(** ** The stages of one invocation

    The worlds [generateInterviewResponse] passes through, written with the
    collaborators alone, so that a property can name "the answer of the rate
    limiter" or "the world when the provider call starts". *)

Module Stage.
Import AiService.
Section Stage.
Context {St : Type} {Svc : Services St}.

(** The world after [sleep(d)]. *)
Definition slept (d : Z) (w : world St) : world St :=
  {| services := services w; trace := trace w ++ [Sleep d] |}.

(** The delays of [r] successive retries that start at delay [d]. *)
Fixpoint schedule (r : nat) (d : Z) : list Z :=
  match r with
  | O => []
  | Datatypes.S r' => d :: schedule r' (nextDelay d)
  end.

(** The world after [fn] has been attempted [r + 1] times, with the sleeps
    of [schedule r d] in between. *)
Fixpoint attempted {A} (fn : M St A) (r : nat) (d : Z) (w : world St)
  : world St :=
  match r with
  | O => snd (fn w)
  | Datatypes.S r' => attempted fn r' (nextDelay d) (slept d (snd (fn w)))
  end.

(** Step 1: what the rate limiter answers, and the world after it. *)
Definition rate_check (provider : jsstring) (w : world St) : rateLimitCheck :=
  fst (checkRateLimit provider (services w)).

Definition after_rate_check (provider : jsstring) (w : world St)
  : world St :=
  {| services := snd (checkRateLimit provider (services w));
     trace := trace w ++ [RateLimitCheck provider] |}.

(** Step 2: what the cache lookup yields ([None] too when the question is
    not cacheable and no lookup is made), and the world after it. *)
Definition cache_lookup (question provider : jsstring)
    (model persona : option jsstring) (w : world St) : option response :=
  if isCacheable question
  then fst (getCachedAIResponse question provider model persona
              (services (after_rate_check provider w)))
  else None.

Definition after_cache_check (question provider : jsstring)
    (model persona : option jsstring) (w : world St) : world St :=
  if isCacheable question
  then {| services :=
            snd (getCachedAIResponse question provider model persona
                   (services (after_rate_check provider w)));
          trace := trace (after_rate_check provider w)
                   ++ [CacheGet question provider model persona] |}
  else after_rate_check provider w.

(** Step 4: the world after the response has been offered to the cache. *)
Definition cache_written (question : jsstring) (r : response)
    (provider : jsstring) (model persona : option jsstring) (w : world St)
  : world St :=
  if isCacheable question
  then {| services :=
            cacheAIResponse question r provider model persona (services w);
          trace := trace w ++ [CacheSet question r provider model persona] |}
  else w.




(** The transient classes of failure, read off the error message. *)
Definition transient (msg : jsstring) : Prop :=
  includes msg (lit "timeout") = true
  \/ includes msg (lit "ECONNRESET") = true
  \/ includes msg (lit "ETIMEDOUT") = true
  \/ includes msg (lit "429") = true
  \/ includes msg (lit "500") = true
  \/ includes msg (lit "503") = true.

(** The model the orchestrator hands to the Gemini adapter. *)
Definition geminiModel (model : option jsstring) : jsstring :=
  or_string model (or_string env_GEMINI_MODEL (lit "gemini-2.0-flash-exp")).

(** Step 3 on the gemini branch: what the backend does when the adapter
    calls it, and the state it leaves. *)
Definition backend_outcome (question provider : jsstring)
    (model : option jsstring) (history : list turn) (roleType : jsstring)
    (ctx : option context) (persona : option jsstring) (w : world St)
  : result jsstring * St :=
  generateContent (geminiModel model)
    (GeminiService.fullPrompt question history roleType ctx persona)
    (services (after_cache_check question provider model persona w)).

End Stage.
End Stage.
Import Stage.

(* ------------------------------------------------------------------ *)
(** ** More ways to read a run *)

Module Observe.
Import AiService.

Definition is_rate_check (ev : event) : bool :=
  match ev with
  | RateLimitCheck _ => true
  | _ => false
  end.

Definition is_cache_lookup (ev : event) : bool :=
  match ev with
  | CacheGet _ _ _ _ => true
  | _ => false
  end.

(** The time slept, in milliseconds. *)
Definition total (delays : list Z) : Z := fold_right Z.add 0%Z delays.

Section Observe.
Context {St : Type}.

(** [fn] fails [k] times in a row with a transient error, each failure
    followed by the sleep of the policy, and then returns [a] in the world
    [w']. *)
Fixpoint recovers {A} (fn : M St A) (k : nat) (d : Z) (w : world St)
    (a : A) (w' : world St) : Prop :=
  match k with
  | O => fn w = (Ok a, w')
  | Datatypes.S k' =>
      exists e w1,
        fn w = (Throw e, w1)
        /\ isRetryable (message e) = true
        /\ recovers fn k' (nextDelay d) (slept d w1) a w'
  end.

End Observe.
End Observe.
Import Observe.

(** Test doubles for the Gemini adapter: a backend that replies with a
    fixed text and a [JSON.parse] that knows what this text denotes. *)
Module MockJson.

Definition replying (text : string) (parsed : option jsval) : Mock.script :=
  {| Mock.rate := Mock.allow_all;
     Mock.cacheable := true;
     Mock.groq := fun _ => Throw (Error (lit "unused"));
     Mock.backend := Ok (lit text);
     Mock.parse := fun s => if jsstring_eqb s (lit text) then parsed else None;
     Mock.initialized := true |}.

(** A reply of the shape the prompt asks for. *)
Definition well_formed : jsval :=
  JObj [ (lit "answer", JStr (lit "I led the migration to React."));
         (lit "experience_mentioned", JArr [JStr (lit "React migration")]);
         (lit "key_technologies", JArr [JStr (lit "React"); JStr (lit "Redux")]);
         (lit "follow_up_topics", JArr [JStr (lit "State management")]) ].


(** A reply in prose, 600 code units long. *)
Definition long_prose : jsstring := repeat 97%N 600.

End MockJson.

(** What [JSON.parse] may return besides an object and [null]. *)
Module JsonShape.

Definition non_object (v : jsval) : bool :=
  match v with
  | JBool _ | JNum _ | JStr _ | JArr _ => true
  | JUndefined | JNull | JObj _ => false
  end.

(** The code unit of the backtick. *)
Definition backtick : codeunit := 96%N.

End JsonShape.
Import JsonShape.

(* ------------------------------------------------------------------ *)
(** ** aiService.js: the model catalogue *)

Module Models.

Record modelInfo : Type := {
  id : jsstring;
  name : jsstring;
  description : jsstring;
  strengths : list jsstring;
  maxTokens : Z;
  speed : jsstring;
  provider : jsstring
}.

Definition groq : list modelInfo :=
  [ {| id := lit "llama-3.3-70b-versatile";
       name := lit "Llama 3.3 70B Versatile";
       description := lit "Best for technical interviews, system design, and behavioral questions";
       strengths := map lit ["General Technical"; "System Design";
                             "Behavioral"; "Code Review"]%string;
       maxTokens := 8000;
       speed := lit "Fast";
       provider := lit "groq" |};
    {| id := lit "mixtral-8x7b-32768";
       name := lit "Mixtral 8x7B (Long Context)";
       description := lit "Excellent for complex scenarios with long context (32k tokens)";
       strengths := map lit ["Long Context"; "Complex Scenarios";
                             "Detailed Examples"; "Architecture"]%string;
       maxTokens := 32768;
       speed := lit "Fast";
       provider := lit "groq" |};
    {| id := lit "llama-3.1-8b-instant";
       name := lit "Llama 3.1 8B Instant";
       description := lit "Ultra-fast responses for simple questions and quick practice";
       strengths := map lit ["Speed"; "Simple Questions"; "Quick Practice";
                             "Rapid Iteration"]%string;
       maxTokens := 8000;
       speed := lit "Ultra Fast";
       provider := lit "groq" |} ].

Definition gemini : list modelInfo :=
  [ {| id := lit "gemini-2.0-flash-exp";
       name := lit "Gemini 2.0 Flash (Experimental)";
       description := lit "Google's latest model with advanced reasoning and multimodal support";
       strengths := map lit ["Advanced Reasoning"; "Code Generation";
                             "Multimodal"; "Latest Tech"]%string;
       maxTokens := 8000;
       speed := lit "Very Fast";
       provider := lit "gemini" |} ].

(** The names every object inherits from [Object.prototype]. *)
Definition objectPrototype : list jsstring :=
  map lit ["constructor"; "__defineGetter__"; "__defineSetter__";
           "hasOwnProperty"; "__lookupGetter__"; "__lookupSetter__";
           "isPrototypeOf"; "propertyIsEnumerable"; "toString"; "valueOf";
           "__proto__"; "toLocaleString"]%string.

(** [MODELS[key]]: one of the two lists, something inherited from
    [Object.prototype], or [undefined]. *)
Inductive entry : Type :=
| Listed (models : list modelInfo)
| Inherited (property : jsstring)
| Missing.

Definition MODELS (key : jsstring) : entry :=
  if jsstring_eqb key (lit "groq") then Listed groq
  else if jsstring_eqb key (lit "gemini") then Listed gemini
  else if existsb (jsstring_eqb key) objectPrototype then Inherited key
  else Missing.

(** What [getAvailableModels] returns: an array of models, or the inherited
    function or object, which is truthy and so is returned as it is. *)
Inductive available : Type :=
| Array (models : list modelInfo)
| NotAnArray (property : jsstring).

(** [MODELS[provider] || []]. *)
Definition getAvailableModels (provider : jsstring) : available :=
  match MODELS provider with
  | Listed models => Array models
  | Inherited property => NotAnArray property
  | Missing => Array []
  end.

(** [getAllModels] returns [MODELS] itself: its two own entries. *)
Definition getAllModels : list (jsstring * list modelInfo) :=
  [ (lit "groq", groq); (lit "gemini", gemini) ].

End Models.

(* ------------------------------------------------------------------ *)
(** ** Computations over other logs

    The functions below call collaborators the core does not: the probes of
    the key validation, the JWT library, the socket.  They run in the same
    kind of monad as the core, over a log of their own events. *)

Module Eff.
Section Eff.
Context {E S : Type}.

Record world : Type := { state : S; log : list E }.

Definition M (A : Type) : Type := world -> result A * world.

Definition ret {A} (a : A) : M A := fun w => (Ok a, w).

Definition bind {A B} (c : M A) (k : A -> M B) : M B :=
  fun w =>
    match c w with
    | (Ok a, w') => k a w'
    | (Throw e, w') => (Throw e, w')
    end.

Definition throw {A} (e : exn) : M A := fun w => (Throw e, w).

Definition try_catch {A} (body : M A) (handler : exn -> M A) : M A :=
  fun w =>
    match body w with
    | (Ok a, w') => (Ok a, w')
    | (Throw e, w') => handler e w'
    end.

Definition of_result {A} (r : result A) : M A := fun w => (r, w).

Definition emit (ev : E) : M unit :=
  fun w => (Ok tt, {| state := state w; log := log w ++ [ev] |}).

Definition get : M S := fun w => (Ok (state w), w).

Definition put (s : S) : M unit :=
  fun w => (Ok tt, {| state := s; log := log w |}).

(** A call to a collaborator that returns or throws, recorded as [ev]. *)
Definition call_throwing {A} (ev : E) (f : S -> result A * S) : M A :=
  fun w =>
    let (r, s') := f (state w) in
    (r, {| state := s'; log := log w ++ [ev] |}).

End Eff.

Arguments world : clear implicits.
Arguments M : clear implicits.

End Eff.

Notation "'do' x <- c ; k" := (Eff.bind c (fun x => k))
  (at level 10, x name, c at level 100, k at level 200).
Notation "'do' '_' <- c ; k" := (Eff.bind c (fun _ => k))
  (at level 10, c at level 100, k at level 200).

(* ------------------------------------------------------------------ *)
(** ** Key validation: validateGeminiKey and validateProvider *)

Module Validation.

(** The two probes, recorded with what they are called with. *)
Inductive probe : Type :=
| GroqCompletion (apiKey model content : jsstring) (max_tokens : Z)
| GeminiGenerate (apiKey model prompt : jsstring).

(** The SDK calls behind the probes, over their own state: the groq
    client's [chat.completions.create], and the Gemini client's
    [generateContent] followed by [result.response].  Each returns or
    throws; building a client is part of the call. *)
Class Probes (S : Type) : Type := {
  groq_completion : jsstring -> jsstring -> jsstring -> Z ->
                    S -> result unit * S;
  gemini_generate : jsstring -> jsstring -> jsstring ->
                    S -> result unit * S
}.

Section Validation.
Context {S : Type} {P : Probes S}.

(** geminiService.js, [validateGeminiKey]. *)
Definition validateGeminiKey (apiKey : jsstring) : Eff.M probe S bool :=
  Eff.try_catch
    (do _ <- Eff.call_throwing
               (GeminiGenerate apiKey (lit "gemini-2.0-flash-exp")
                  (lit "Hello"))
               (gemini_generate apiKey (lit "gemini-2.0-flash-exp")
                  (lit "Hello"));
     Eff.ret true)
    (fun error => Eff.ret false).

(** aiService.js, [validateProvider]. *)
Definition validateProvider (provider apiKey : jsstring)
  : Eff.M probe S bool :=
  Eff.try_catch
    (if jsstring_eqb provider (lit "groq") then
       do _ <- Eff.call_throwing
                 (GroqCompletion apiKey (lit "llama-3.1-8b-instant")
                    (lit "test") 5)
                 (groq_completion apiKey (lit "llama-3.1-8b-instant")
                    (lit "test") 5);
       Eff.ret true
     else if jsstring_eqb provider (lit "gemini") then
       do isValid <- validateGeminiKey apiKey;
       Eff.ret isValid
     else Eff.ret false)
    (fun error => Eff.ret false).

End Validation.

(** Probes scripted by their outcome. *)
Definition scripted (groq_ok gemini_ok : bool) : Probes unit := {|
  groq_completion := fun _ _ _ _ s =>
    (if groq_ok then Ok tt else Throw (Error (lit "401 Invalid API Key")), s);
  gemini_generate := fun _ _ _ s =>
    (if gemini_ok then Ok tt else Throw (Error (lit "API key not valid")), s)
|}.

Definition start : Eff.world probe unit :=
  {| Eff.state := tt; Eff.log := [] |}.

End Validation.

(* ------------------------------------------------------------------ *)
(** ** websocketServer.js *)

Module Socket.

(** The [process.env] entries the server reads. *)
Record env : Type := {
  AI_PROVIDER : option jsstring;
  GROQ_MODEL : option jsstring;
  GEMINI_MODEL : option jsstring;
  JWT_SECRET : option jsstring
}.

(** [const { name } = data]. *)
Definition destructure (data : jsval) (name : string) : result jsval :=
  match data with
  | JUndefined =>
      Throw (TypeError (lit "Cannot destructure property '" ++ lit name
                        ++ lit "' of 'data' as it is undefined."))
  | JNull =>
      Throw (TypeError (lit "Cannot destructure property '" ++ lit name
                        ++ lit "' of 'data' as it is null."))
  | JObj props => Ok (lookup (lit name) props)
  | _ => Ok JUndefined
  end.

(** *** The authentication middleware, [io.use] *)

Record identity : Type := { userId : jsval; userEmail : jsval }.

(** What the middleware hands to [next]. *)
Inductive next : Type :=
| Next
| NextError (message : jsstring).

Inductive jwt_call : Type :=
| JwtVerify (token : jsval) (secret : jsstring).

(** [jwt.verify(token, secret)]: the [id] and [email] of the decoded
    payload, or an exception. *)
Class Jwt (S : Type) : Type := {
  jwt_verify : jsval -> jsstring -> S -> result (jsval * jsval) * S
}.

Definition allowedTokens : list jsstring :=
  map lit ["test-token-for-development"; "desktop-app-token";
           "extension-user-token"]%string.

(** [allowedTokens.includes(token)]. *)
Definition isAllowedToken (token : jsval) : bool :=
  match token with
  | JStr s => existsb (jsstring_eqb s) allowedTokens
  | _ => false
  end.

Definition jwtSecret (e : env) : jsstring :=
  or_string (JWT_SECRET e) (lit "your-secret-key-change-in-production").

(** The middleware: what it passes to [next], and the identity it puts on
    the socket when it sets one. *)
Definition authMiddleware {S} {J : Jwt S} (e : env) (token : jsval)
  : Eff.M jwt_call S (next * option identity) :=
  if negb (truthy token) then
    Eff.ret (NextError (lit "Authentication error: No token provided"), None)
  else if isAllowedToken token then
    Eff.ret (Next, Some {| userId := JStr (lit "desktop-user");
                           userEmail := JStr (lit "desktop@app.local") |})
  else
    Eff.try_catch
      (do decoded <- Eff.call_throwing (JwtVerify token (jwtSecret e))
                       (jwt_verify token (jwtSecret e));
       Eff.ret (Next, Some {| userId := fst decoded;
                              userEmail := snd decoded |}))
      (fun error =>
         Eff.ret (NextError (lit "Authentication error: Invalid token"),
                  None)).

(** A [jwt.verify] that accepts one token only. *)
Definition accepting (good : string) : Jwt unit := {|
  jwt_verify := fun token _ s =>
    (match token with
     | JStr t => if jsstring_eqb t (lit good)
                 then Ok (JStr (lit "user-1"), JStr (lit "user@example.com"))
                 else Throw (Error (lit "invalid signature"))
     | _ => Throw (Error (lit "jwt must be a string"))
     end, s)
|}.

(** A [jwt.verify] that accepts one token, and only under one secret. *)
Definition signed (secret good : string) : Jwt unit := {|
  jwt_verify := fun token key s =>
    (match token with
     | JStr t => if jsstring_eqb t (lit good) && jsstring_eqb key (lit secret)
                 then Ok (JStr (lit "user-1"), JStr (lit "user@example.com"))
                 else Throw (Error (lit "invalid signature"))
     | _ => Throw (Error (lit "jwt must be a string"))
     end, s)
|}.

Definition no_calls : Eff.world jwt_call unit :=
  {| Eff.state := tt; Eff.log := [] |}.

(** *** The settings of one connection *)

(** One entry of [conversationHistory]. *)
Record entry : Type := {
  entry_role : jsstring;
  entry_content : jsval;
  entry_timestamp : option jsstring
}.

(** The variables of the [connection] closure that the settings handlers
    read and write. *)
Record session : Type := {
  conversationHistory : list entry;
  currentRoleType : jsval;
  currentProvider : jsval;
  currentModel : jsval;
  customPersona : jsval
}.

Definition connect (e : env) : session :=
  {| conversationHistory := [];
     currentRoleType := JStr (lit "general");
     currentProvider := JStr (or_string (AI_PROVIDER e) (lit "groq"));
     currentModel :=
       JStr (or_string (GROQ_MODEL e) (lit "llama-3.3-70b-versatile"));
     customPersona := JNull |}.

(** What the handlers send with [socket.emit], by event name. *)
Inductive emitted : Type :=
| provider_changed (provider model : jsval) (models : Models.available)
| model_changed (model provider : jsval)
| models_list (currentProvider currentModel : jsval)
              (models : list (jsstring * list Models.modelInfo))
| persona_set
| error_event (type message : jsstring).

Definition H (A : Type) : Type := Eff.M emitted session A.

Definition set_provider (v : jsval) : H unit :=
  do s <- Eff.get;
  Eff.put {| conversationHistory := conversationHistory s;
             currentRoleType := currentRoleType s;
             currentProvider := v;
             currentModel := currentModel s;
             customPersona := customPersona s |}.

Definition set_model (v : jsval) : H unit :=
  do s <- Eff.get;
  Eff.put {| conversationHistory := conversationHistory s;
             currentRoleType := currentRoleType s;
             currentProvider := currentProvider s;
             currentModel := v;
             customPersona := customPersona s |}.

Definition set_persona_var (v : jsval) : H unit :=
  do s <- Eff.get;
  Eff.put {| conversationHistory := conversationHistory s;
             currentRoleType := currentRoleType s;
             currentProvider := currentProvider s;
             currentModel := currentModel s;
             customPersona := v |}.

Definition set_roleType (v : jsval) : H unit :=
  do s <- Eff.get;
  Eff.put {| conversationHistory := conversationHistory s;
             currentRoleType := v;
             currentProvider := currentProvider s;
             currentModel := currentModel s;
             customPersona := customPersona s |}.

Definition set_history (h : list entry) : H unit :=
  do s <- Eff.get;
  Eff.put {| conversationHistory := h;
             currentRoleType := currentRoleType s;
             currentProvider := currentProvider s;
             currentModel := currentModel s;
             customPersona := customPersona s |}.

Definition invalidProvider : jsstring :=
  GeminiService.lit_q "Invalid provider. Must be ~groq~ or ~gemini~".

(** [name in props], for an own property. *)
Definition has_own (name : jsstring) (props : list (jsstring * jsval))
  : bool :=
  existsb (fun kv => jsstring_eqb (fst kv) name) props.

(** Whether ToString returns on a value a message carries.  An object
    with a [toString] of its own, which is no function, cannot be
    converted; an array joins the conversions of its items. *)
Fixpoint converts (v : jsval) : bool :=
  match v with
  | JArr items => forallb converts items
  | JObj props => negb (has_own (lit "toString") props)
  | _ => true
  end.

(** [`${v}`] in a log line: the text is not kept, the exception is. *)
Definition interpolate (v : jsval) : H unit :=
  if converts v then Eff.ret tt
  else Eff.throw (TypeError (lit "Cannot convert object to primitive value")).

(** [socket.on('change_provider', ...)].  A [provider] that is not a
    string differs from both ['groq'] and ['gemini']. *)
Definition change_provider (e : env) (data : jsval) : H unit :=
  Eff.try_catch
    (do provider <- Eff.of_result (destructure data "provider");
     do _ <- interpolate provider;
     match provider with
     | JStr p =>
         if negb (jsstring_eqb p (lit "groq"))
            && negb (jsstring_eqb p (lit "gemini"))
         then Eff.throw (Error invalidProvider)
         else
           do _ <- set_provider provider;
           do _ <- (if jsstring_eqb p (lit "groq") then
                      set_model (JStr (or_string (GROQ_MODEL e)
                                         (lit "llama-3.3-70b-versatile")))
                    else if jsstring_eqb p (lit "gemini") then
                      set_model (JStr (or_string (GEMINI_MODEL e)
                                         (lit "gemini-2.0-flash-exp")))
                    else Eff.ret tt);
           do s <- Eff.get;
           Eff.emit (provider_changed (currentProvider s) (currentModel s)
                       (Models.getAvailableModels p))
     | _ => Eff.throw (Error invalidProvider)
     end)
    (fun err => Eff.emit (error_event (lit "provider_error") (message err))).

(** [socket.on('change_model', ...)].  The log line comes before the
    assignment: a model that cannot be converted is not stored. *)
Definition change_model (data : jsval) : H unit :=
  Eff.try_catch
    (do model <- Eff.of_result (destructure data "model");
     do _ <- interpolate model;
     do _ <- set_model model;
     do s <- Eff.get;
     Eff.emit (model_changed (currentModel s) (currentProvider s)))
    (fun err => Eff.emit (error_event (lit "model_error") (message err))).

(** [socket.on('get_models', ...)]. *)
Definition get_models : H unit :=
  Eff.try_catch
    (do s <- Eff.get;
     Eff.emit (models_list (currentProvider s) (currentModel s)
                 Models.getAllModels))
    (fun err => Eff.emit (error_event (lit "models_error") (message err))).

(** [socket.on('set_persona', ...)].  The log line calls
    [persona.substring] on a truthy persona, which throws unless the
    persona is a string. *)
Definition set_persona (data : jsval) : H unit :=
  Eff.try_catch
    (do persona <- Eff.of_result (destructure data "persona");
     do _ <- (if truthy persona then
                match persona with
                | JStr _ => Eff.ret tt
                | _ => Eff.throw
                         (TypeError (lit "persona.substring is not a function"))
                end
              else Eff.ret tt);
     do _ <- set_persona_var persona;
     Eff.emit persona_set)
    (fun err => Eff.emit (error_event (lit "persona_error") (message err))).

(** [socket.on('user_answer', ...)]; [now] is [new Date().toISOString()].
    There is no [try] around this handler. *)
Definition user_answer (now : jsstring) (data : jsval) : H unit :=
  do answer <- Eff.of_result (destructure data "answer");
  if truthy answer then
    do s <- Eff.get;
    let pushed :=
      conversationHistory s
      ++ [{| entry_role := lit "user";
             entry_content := answer;
             entry_timestamp := Some now |}] in
    (* Keep only last 10 messages *)
    if 10 <? List.length pushed
    then set_history (tl pushed)
    else set_history pushed
  else Eff.ret tt.

(** [socket.on('update_role_type', ...)]; no [try] either, and the log
    line comes after the assignment. *)
Definition update_role_type (data : jsval) : H unit :=
  do roleType <- Eff.of_result (destructure data "roleType");
  if truthy roleType then
    do _ <- set_roleType roleType;
    interpolate roleType
  else Eff.ret tt.

(** What a client may send to these handlers. *)
Inductive client_message : Type :=
| ChangeProvider (data : jsval)
| ChangeModel (data : jsval)
| GetModels
| SetPersona (data : jsval)
| UserAnswer (now : jsstring) (data : jsval)
| UpdateRoleType (data : jsval).

Definition handle (e : env) (m : client_message) : H unit :=
  match m with
  | ChangeProvider data => change_provider e data
  | ChangeModel data => change_model data
  | GetModels => get_models
  | SetPersona data => set_persona data
  | UserAnswer now data => user_answer now data
  | UpdateRoleType data => update_role_type data
  end.

(** The session after the messages have been handled one after the other;
    an exception that leaves a handler is the listener's, and the session
    stays as the handler left it. *)
Fixpoint after (e : env) (ms : list client_message) (w : Eff.world emitted session)
  : Eff.world emitted session :=
  match ms with
  | [] => w
  | m :: ms' => after e ms' (snd (handle e m w))
  end.

Definition fresh (e : env) : Eff.world emitted session :=
  {| Eff.state := connect e; Eff.log := [] |}.

Definition no_env : env :=
  {| AI_PROVIDER := None; GROQ_MODEL := None; GEMINI_MODEL := None;
     JWT_SECRET := None |}.

Definition secret_env (secret : string) : env :=
  {| AI_PROVIDER := None; GROQ_MODEL := None; GEMINI_MODEL := None;
     JWT_SECRET := Some (lit secret) |}.

(** [{ name: value }]. *)
Definition payload (name : string) (value : jsval) : jsval :=
  JObj [(lit name, value)].

End Socket.

(** *** websocketServer.js, [createWavBuffer]

    A buffer is the list of its bytes. *)
Module Wav.

Definition buffer : Type := list Z.

(** [Buffer.alloc(n)]. *)
Definition alloc (n : nat) : buffer := repeat 0%Z n.

(** The bytes [data] put into [buf] from [offset] on, as far as they fit. *)
Definition blit (buf : buffer) (offset : nat) (data : list Z) : buffer :=
  firstn offset buf
  ++ firstn (List.length buf - offset) data
  ++ skipn (offset + List.length data) buf.

(** [buf.write(text, offset)] for an ASCII text. *)
Definition write (buf : buffer) (text : string) (offset : nat) : buffer :=
  blit buf offset (map Z.of_N (lit text)).

(** The bytes of an unsigned integer, least significant first. *)
Definition uint32LE (value : Z) : list Z :=
  [ Z.land value 255;
    Z.land (Z.shiftr value 8) 255;
    Z.land (Z.shiftr value 16) 255;
    Z.land (Z.shiftr value 24) 255 ].

Definition uint16LE (value : Z) : list Z :=
  [ Z.land value 255; Z.land (Z.shiftr value 8) 255 ].

(** [buf.writeUInt32LE(value, offset)]: [None] is the [RangeError] thrown
    for a value outside [0, 2^32 - 1] or an offset outside the buffer. *)
Definition writeUInt32LE (buf : buffer) (value : Z) (offset : nat)
  : option buffer :=
  if ((0 <=? value) && (value <=? 4294967295))%Z
     && (offset + 4 <=? List.length buf)
  then Some (blit buf offset (uint32LE value))
  else None.

Definition writeUInt16LE (buf : buffer) (value : Z) (offset : nat)
  : option buffer :=
  if ((0 <=? value) && (value <=? 65535))%Z
     && (offset + 2 <=? List.length buf)
  then Some (blit buf offset (uint16LE value))
  else None.

Definition and_then {A B} (o : option A) (f : A -> option B) : option B :=
  match o with
  | Some a => f a
  | None => None
  end.

(** [buf.readUInt32LE(offset)] and [buf.readUInt16LE(offset)], for an
    offset inside the buffer. *)
Definition readUInt32LE (buf : buffer) (offset : nat) : Z :=
  (nth offset buf 0 + 256 * nth (offset + 1) buf 0
   + 65536 * nth (offset + 2) buf 0 + 16777216 * nth (offset + 3) buf 0)%Z.

Definition readUInt16LE (buf : buffer) (offset : nat) : Z :=
  (nth offset buf 0 + 256 * nth (offset + 1) buf 0)%Z.

Definition createWavBuffer (pcmBuffer : buffer) (sampleRate : Z)
  : option buffer :=
  let header := alloc 44 in
  let header := write header "RIFF" 0 in
  and_then (writeUInt32LE header (36 + Z.of_nat (List.length pcmBuffer)) 4)
    (fun header =>
  let header := write header "WAVE" 8 in
  let header := write header "fmt " 12 in
  and_then (writeUInt32LE header 16 16) (fun header =>
  and_then (writeUInt16LE header 1 20) (fun header =>
  and_then (writeUInt16LE header 1 22) (fun header =>
  and_then (writeUInt32LE header sampleRate 24) (fun header =>
  and_then (writeUInt32LE header (sampleRate * 2) 28) (fun header =>
  and_then (writeUInt16LE header 2 32) (fun header =>
  and_then (writeUInt16LE header 16 34) (fun header =>
  let header := write header "data" 36 in
  and_then (writeUInt32LE header (Z.of_nat (List.length pcmBuffer)) 40)
    (fun header =>
  Some (header ++ pcmBuffer)))))))))).

(** The text at [offset], [n] bytes long. *)
Definition text_at (buf : buffer) (offset n : nat) : list Z :=
  firstn n (skipn offset buf).

End Wav.

(** Notions the statements about these modules use. *)
Module Notions.

(** The call returned rather than threw. *)
Definition returned {A} (r : result A) : bool :=
  match r with
  | Ok _ => true
  | Throw _ => false
  end.

(** The provider of the session is one of the two the server knows. *)
Definition known_provider (s : Socket.session) : Prop :=
  Socket.currentProvider s = JStr (lit "groq")
  \/ Socket.currentProvider s = JStr (lit "gemini").

(** The identity the fixed tokens stand for. *)
Definition desktop_user : Socket.identity :=
  {| Socket.userId := JStr (lit "desktop-user");
     Socket.userEmail := JStr (lit "desktop@app.local") |}.

(** The ids of the models [getAvailableModels] lists for a provider. *)
Definition listed_ids (provider : jsstring) : list jsstring :=
  match Models.getAvailableModels provider with
  | Models.Array models => map Models.id models
  | Models.NotAnArray _ => []
  end.

End Notions.
Import Notions.

(* ------------------------------------------------------------------ *)
(** ** A script whose questions are not cacheable *)

Module MockFresh.

(** [isCacheable] says no; groq answers; the cache would have an entry. *)
Definition not_cacheable : Mock.script :=
  {| Mock.rate := Mock.allow_all;
     Mock.cacheable := false;
     Mock.groq := fun _ => Ok (Mock.plain "Fresh answer");
     Mock.backend := Throw (Error (lit "unused"));
     Mock.parse := Mock.parse_null_or_empty;
     Mock.initialized := true |}.

End MockFresh.

(* ------------------------------------------------------------------ *)
(** ** websocketServer.js: the [audio_file] handler *)

Module Audio.

(** The [data] of an [audio_file] message; [format] is [None] when the
    client leaves it out. *)
Record audio_data : Type := {
  audio : jsval;
  format : option jsstring
}.

(** The two [process.env] keys the handler reads. *)
Record keys : Type := {
  GROQ_API_KEY : option jsstring;
  OPENAI_API_KEY : option jsstring
}.

(** The settings of the connection the handler passes on, with the types
    the orchestrator takes them at. *)
Record settings : Type := {
  currentProvider : jsstring;
  currentModel : option jsstring;
  currentRoleType : jsstring;
  userContext : option context;
  customPersona : option jsstring
}.

(** What the handler sends with [socket.emit]: the event [error] with a
    type and a message, [transcript_final], and [answer_final]. *)
Inductive sent : Type :=
| error_sent (type message : jsstring)
| transcript_final (text : jsstring)
| answer_final (answer provider : jsstring) (model : option jsstring)
               (keyPoints experienceMentioned followUpTopics : jsval).

(** The log of the handler: what it sends, the file system and speech
    services it calls, and the calls the orchestrator makes. *)
Inductive io : Type :=
| Emit (s : sent)
| ExistsSync (path : jsstring) (answer : bool)
| MkdirSync (path : jsstring)
| Now
| WriteFileSync (path : jsstring) (data : list Z)
| UnlinkSync (path : jsstring)
| GroqWhisper (apiKey file : jsstring)
| OpenAIWhisper (apiKey file : jsstring)
| Core (ev : event).

(** What the handler runs on, over one state [S]: the collaborators of the
    core, [Buffer.from(audio, 'base64')], [path.join], the directory
    [path.join(__dirname, '../../temp')], the [fs] calls, [Date.now()],
    and the two transcription services, which return the [text] of the
    transcription or throw. *)
Class Platform (S : Type) : Type := {
  core : Services S;
  Buffer_from : jsval -> result (list Z);
  path_join : jsstring -> jsstring -> jsstring;
  tempDir : jsstring;
  existsSync : jsstring -> S -> bool * S;
  mkdirSync : jsstring -> S -> result unit * S;
  writeFileSync : jsstring -> list Z -> S -> result unit * S;
  unlinkSync : jsstring -> S -> result unit * S;
  Date_now : S -> Z * S;
  groq_whisper : jsstring -> jsstring -> S -> result jsstring * S;
  openai_whisper : jsstring -> jsstring -> S -> result jsstring * S
}.

Section Audio.
Context {S : Type} {P : Platform S}.

(** The state of a run: the collaborators' state and
    [conversationHistory], as the adapters read it: the role and the
    string content of each entry, which is what this handler pushes. *)
Definition H (A : Type) : Type := Eff.M io (S * list turn) A.

(** A collaborator call on the first component of the state. *)
Definition call_throwing {A} (ev : io) (f : S -> result A * S) : H A :=
  fun w =>
    let (r, s') := f (fst (Eff.state w)) in
    (r, {| Eff.state := (s', snd (Eff.state w));
           Eff.log := Eff.log w ++ [ev] |}).

Definition fs_existsSync (path : jsstring) : H bool :=
  fun w =>
    let (b, s') := existsSync path (fst (Eff.state w)) in
    (Ok b, {| Eff.state := (s', snd (Eff.state w));
              Eff.log := Eff.log w ++ [ExistsSync path b] |}).

Definition now : H Z :=
  fun w =>
    let (t, s') := Date_now (fst (Eff.state w)) in
    (Ok t, {| Eff.state := (s', snd (Eff.state w));
              Eff.log := Eff.log w ++ [Now] |}).

Definition push (t : turn) : H unit :=
  fun w =>
    (Ok tt, {| Eff.state := (fst (Eff.state w), snd (Eff.state w) ++ [t]);
               Eff.log := Eff.log w |}).

Definition history : H (list turn) :=
  fun w => (Ok (snd (Eff.state w)), w).

(** [await generateAIResponse(...)]: the orchestrator, run on the
    collaborators' state; its calls go to the log in their order. *)
Definition generateAIResponse (question provider : jsstring)
    (model : option jsstring) (conversationHistory : list turn)
    (roleType : jsstring) (retrievedContext : option context)
    (persona : option jsstring) : H response :=
  fun w =>
    let (r, cw) :=
      AiService.generateInterviewResponse (Svc := core) question provider
        model conversationHistory roleType retrievedContext persona
        {| services := fst (Eff.state w); trace := [] |} in
    (r, {| Eff.state := (services cw, snd (Eff.state w));
           Eff.log := Eff.log w ++ map Core (trace cw) |}).

(** The transcription: groq first when it has a key, OpenAI as the
    fallback when groq throws, OpenAI directly otherwise. *)
Definition transcribe (k : keys) (tempFile : jsstring) : H jsstring :=
  if negb (falsy_string (GROQ_API_KEY k)) then
    Eff.try_catch
      (do text <- call_throwing
                    (GroqWhisper (trim (show_string (GROQ_API_KEY k)))
                       tempFile)
                    (groq_whisper (trim (show_string (GROQ_API_KEY k)))
                       tempFile);
       Eff.ret (trim text))
      (fun groqError =>
         if negb (falsy_string (OPENAI_API_KEY k)) then
           do text <- call_throwing
                        (OpenAIWhisper (trim (show_string (OPENAI_API_KEY k)))
                           tempFile)
                        (openai_whisper
                           (trim (show_string (OPENAI_API_KEY k))) tempFile);
           Eff.ret (trim text)
         else Eff.throw groqError)
  else
    do text <- call_throwing
                 (OpenAIWhisper (trim (show_string (OPENAI_API_KEY k)))
                    tempFile)
                 (openai_whisper (trim (show_string (OPENAI_API_KEY k)))
                    tempFile);
    Eff.ret (trim text).

(** The block under [if (transcript)]: send the transcript, ask the
    orchestrator, send the answer and record both in the history. *)
Definition answerTranscript (st : settings) (transcript : jsstring)
  : H unit :=
  do _ <- Eff.emit (Emit (transcript_final transcript));
  do conversationHistory <- history;
  do result <- generateAIResponse transcript (currentProvider st)
                 (currentModel st) conversationHistory (currentRoleType st)
                 (userContext st) (customPersona st);
  if truthy (answer result) then
    match answer result with
    | JStr answer =>
        do _ <- Eff.emit
                  (Emit (answer_final answer (currentProvider st)
                           (currentModel st)
                           (js_or (key_technologies result) (JArr []))
                           (js_or (experience_mentioned result) (JArr []))
                           (js_or (follow_up_topics result) (JArr []))));
        do _ <- push {| role := lit "user"; content := transcript |};
        push {| role := lit "assistant"; content := answer |}
    | _ => Eff.throw (TypeError (lit "answer.substring is not a function"))
    end
  else
    Eff.emit (Emit (error_sent (lit "answer_error")
                      (lit "Failed to generate answer"))).

Definition tempFileName (t : Z) (format : jsstring) : jsstring :=
  path_join tempDir (lit "audio_" ++ string_of_Z t ++ lit "." ++ format).

(** The inner [try] block: transcribe the file, delete it, answer. *)
Definition transcribeAndAnswer (k : keys) (st : settings)
    (tempFile : jsstring) : H unit :=
  do transcript <- transcribe k tempFile;
  do _ <- call_throwing (UnlinkSync tempFile) (unlinkSync tempFile);
  match transcript with
  | _ :: _ => answerTranscript st transcript
  | [] =>
      Eff.emit (Emit (error_sent (lit "stt_error")
                        (lit "No speech detected")))
  end.

(** Its [catch] block: report the error, delete the file if it is there. *)
Definition reportAndCleanUp (tempFile : jsstring) (err : exn) : H unit :=
  do _ <- Eff.emit (Emit (error_sent (lit "stt_error") (message err)));
  do stillThere <- fs_existsSync tempFile;
  if stillThere
  then call_throwing (UnlinkSync tempFile) (unlinkSync tempFile)
  else Eff.ret tt.

Definition processingFailed : sent :=
  error_sent (lit "stt_error") (lit "Failed to process audio file").

(** [socket.on('audio_file', ...)]; [data] is [None] when the message has
    no payload. *)
Definition audio_file (k : keys) (st : settings) (data : option audio_data)
  : H unit :=
  Eff.try_catch
    (match data with
     | None =>
         Eff.throw
           (TypeError (lit "Cannot destructure property 'audio' of 'data' as it is undefined."))
     | Some d =>
         let format := match format d with
                       | Some f => f
                       | None => lit "webm"
                       end in
         do audioBuffer <- Eff.of_result (Buffer_from (audio d));
         if falsy_string (GROQ_API_KEY k) && falsy_string (OPENAI_API_KEY k)
         then
           Eff.emit (Emit (error_sent (lit "stt_error")
                             (lit "STT API key not configured")))
         else
           do dirExists <- fs_existsSync tempDir;
           do _ <- (if negb dirExists
                    then call_throwing (MkdirSync tempDir) (mkdirSync tempDir)
                    else Eff.ret tt);
           do t <- now;
           let tempFile := tempFileName t format in
           do _ <- call_throwing (WriteFileSync tempFile audioBuffer)
                     (writeFileSync tempFile audioBuffer);
           Eff.try_catch (transcribeAndAnswer k st tempFile)
             (reportAndCleanUp tempFile)
     end)
    (fun err => Eff.emit (Emit processingFailed)).

End Audio.

(** A platform scripted over the core's test doubles: a file system that
    always succeeds, a clock at 0, and transcription services with fixed
    outcomes. *)
Definition scripted (sc : Mock.script) (groq_says openai_says : result jsstring)
  : Platform Mock.store := {|
  core := Mock.mocked sc;
  Buffer_from := fun _ => Ok [82; 73; 70; 70]%Z;
  path_join := fun a b => a ++ lit "/" ++ b;
  tempDir := lit "/srv/temp";
  existsSync := fun _ s => (true, s);
  mkdirSync := fun _ s => (Ok tt, s);
  writeFileSync := fun _ _ s => (Ok tt, s);
  unlinkSync := fun _ s => (Ok tt, s);
  Date_now := fun s => (0%Z, s);
  groq_whisper := fun _ _ s => (groq_says, s);
  openai_whisper := fun _ _ s => (openai_says, s)
|}.

Definition groq_key : keys :=
  {| GROQ_API_KEY := Some (lit "gsk_test"); OPENAI_API_KEY := None |}.

Definition no_keys : keys :=
  {| GROQ_API_KEY := None; OPENAI_API_KEY := None |}.

Definition defaults : settings :=
  {| currentProvider := lit "groq";
     currentModel := Some (lit "llama-3.3-70b-versatile");
     currentRoleType := lit "general";
     userContext := None;
     customPersona := None |}.

Definition recording : option audio_data :=
  Some {| audio := JStr (lit "UklGRg=="); format := None |}.

Definition start : Eff.world io (Mock.store * list turn) :=
  {| Eff.state := (services Mock.empty, []); Eff.log := [] |}.

End Audio.

(** What a log of the [audio_file] handler shows. *)
Module AudioLog.

(** The file of the first [writeFileSync] of a log, and what follows it. *)
Fixpoint after_write (evs : list Audio.io)
  : option (jsstring * list Audio.io) :=
  match evs with
  | [] => None
  | Audio.WriteFileSync f _ :: post => Some (f, post)
  | _ :: rest => after_write rest
  end.

(** After the write, [unlinkSync] is called on the file, or [existsSync]
    finds it gone, or nothing but the failure message follows. *)
Definition cleaned_up (evs : list Audio.io) : Prop :=
  match after_write evs with
  | None => True
  | Some (f, post) =>
      In (Audio.UnlinkSync f) post
      \/ In (Audio.ExistsSync f false) post
      \/ post = [Audio.Emit Audio.processingFailed]
  end.

Definition is_write (ev : Audio.io) : bool :=
  match ev with
  | Audio.WriteFileSync _ _ => true
  | _ => false
  end.

(** The world of the core a handler in world [w] calls the orchestrator
    in. *)
Definition core_world {S} (w : Eff.world Audio.io (S * list turn))
  : world S :=
  {| services := fst (Eff.state w); trace := [] |}.

(** The answer of the orchestrator's error response for the error [e]. *)
Definition apology (e : exn) : jsstring :=
  lit "I apologize, but I'm having trouble generating a response right now. "
  ++ message e ++ lit ". Please try again in a moment.".

End AudioLog.

(* ------------------------------------------------------------------ *)
(** ** Facts about traces and strings *)

(** Expose the state passing of a computation. *)
Ltac run_monad :=
  unfold try_catch, bind, call, call_throwing, emit, throw, ret, of_result.

Lemma sleeps_app (a b : list event) : sleeps (a ++ b) = sleeps a ++ sleeps b.
Proof.
  induction a as [|ev a IH]; simpl; [reflexivity|].
  destruct ev; simpl; rewrite IH; reflexivity.
Qed.

Lemma count_app (p : event -> bool) (a b : list event) :
  count p (a ++ b) = count p a + count p b.
Proof.
  unfold count. rewrite filter_app, length_app. reflexivity.
Qed.

Lemma jsstring_eqb_eq (a b : jsstring) : jsstring_eqb a b = true <-> a = b.
Proof.
  revert b. induction a as [|x a IH]; intros [|y b]; simpl;
    try (split; congruence).
  unfold codeunit_eqb. rewrite andb_true_iff, N.eqb_eq, IH.
  split; [intros [-> ->]; reflexivity | intros E; inversion E; auto].
Qed.

Lemma jsstring_eqb_neq (a b : jsstring) : jsstring_eqb a b = false <-> a <> b.
Proof.
  rewrite <- jsstring_eqb_eq. destruct (jsstring_eqb a b); split;
    congruence.
Qed.

(* ------------------------------------------------------------------ *)
(** ** The retry policy *)

Section RetryFacts.
Context {St : Type} {Svc : Services St}.
Import AiService.

Lemma retry_unfold A (fn : M St A) (r : nat) (d : Z) :
  retryWithBackoff fn r d =
  try_catch fn
    (fun error =>
       match r with
       | O => throw error
       | Datatypes.S r' =>
           if negb (isRetryable (message error)) then throw error
           else sleep d ;; retryWithBackoff fn r' (nextDelay d)
       end).
Proof. destruct r; reflexivity. Qed.

(** A successful attempt ends the policy. *)
Lemma retry_ok A (fn : M St A) r d w a w' :
  fn w = (Ok a, w') -> retryWithBackoff fn r d w = (Ok a, w').
Proof.
  intros H. rewrite retry_unfold. unfold try_catch. rewrite H. reflexivity.
Qed.

(** A failure is passed on when no retry is left or it is not transient. *)
Lemma retry_stop A (fn : M St A) r d w e w' :
  fn w = (Throw e, w') ->
  r = 0 \/ isRetryable (message e) = false ->
  retryWithBackoff fn r d w = (Throw e, w').
Proof.
  intros H C. rewrite retry_unfold. unfold try_catch. rewrite H.
  destruct r as [|r]; [reflexivity|].
  destruct C as [C|C]; [discriminate|]. rewrite C. reflexivity.
Qed.

(** A transient failure with retries left: sleep, then go again. *)
Lemma retry_again A (fn : M St A) r d w e w' :
  fn w = (Throw e, w') ->
  isRetryable (message e) = true ->
  retryWithBackoff fn (Datatypes.S r) d w =
  retryWithBackoff fn r (nextDelay d) (slept d w').
Proof.
  intros H C. rewrite retry_unfold. unfold try_catch. rewrite H, C.
  reflexivity.
Qed.

(** A function that fails with a transient error whenever it is called is
    attempted [r + 1] times, and the last failure is passed on. *)
Lemma retry_exhausts A (fn : M St A) :
  (forall w, exists e,
      fst (fn w) = Throw e /\ isRetryable (message e) = true) ->
  forall r d w, exists e,
    retryWithBackoff fn r d w = (Throw e, attempted fn r d w)
    /\ isRetryable (message e) = true.
Proof.
  intros Hfn. induction r as [|r IH]; intros d w.
  - destruct (Hfn w) as (e & He & Hr). exists e. split; [|exact Hr].
    apply retry_stop; [|left; reflexivity].
    cbn [attempted]. destruct (fn w); simpl in *; congruence.
  - destruct (Hfn w) as (e & He & Hr).
    destruct (IH (nextDelay d) (slept d (snd (fn w)))) as (e' & He' & Hr').
    exists e'. split; [|exact Hr'].
    rewrite (@retry_again _ fn r d w e (snd (fn w))); [exact He'| |exact Hr].
    destruct (fn w); simpl in *; congruence.
Qed.

(** Counting with any counter that an attempt advances by one and a sleep
    leaves alone: [r + 1] failed attempts advance it by [r + 1]. *)
Lemma attempted_count A (fn : M St A) (cnt : world St -> nat) :
  (forall w, cnt (snd (fn w)) = Datatypes.S (cnt w)) ->
  (forall d w, cnt (slept d w) = cnt w) ->
  forall r d w, cnt (attempted fn r d w) = cnt w + r + 1.
Proof.
  intros Hfn Hsl. induction r as [|r IH]; intros d w; simpl.
  - rewrite Hfn. lia.
  - rewrite IH, Hsl, Hfn. lia.
Qed.

(** The sleeps of [r + 1] failed attempts of a function that does not sleep
    itself are the schedule. *)
Lemma attempted_sleeps A (fn : M St A) :
  (forall w, sleeps (trace (snd (fn w))) = sleeps (trace w)) ->
  forall r d w,
    sleeps (trace (attempted fn r d w)) = sleeps (trace w) ++ schedule r d.
Proof.
  intros Hfn. induction r as [|r IH]; intros d w; simpl.
  - rewrite Hfn, app_nil_r. reflexivity.
  - rewrite IH. unfold slept; simpl. rewrite sleeps_app, Hfn. simpl.
    rewrite <- app_assoc. reflexivity.
Qed.

(** Whatever the function does, the policy sleeps along a prefix of the
    schedule. *)
Lemma retry_sleeps_prefix A (fn : M St A) :
  (forall w, sleeps (trace (snd (fn w))) = sleeps (trace w)) ->
  forall r d w, exists k,
    k <= r /\
    sleeps (trace (snd (retryWithBackoff fn r d w)))
    = sleeps (trace w) ++ firstn k (schedule r d).
Proof.
  intros Hfn. induction r as [|r IH]; intros d w.
  - exists 0. split; [lia|]. simpl. rewrite app_nil_r, <- (Hfn w).
    rewrite retry_unfold. unfold try_catch.
    destruct (fn w) as [[a|e] w']; reflexivity.
  - destruct (fn w) as [[a|e] w'] eqn:E.
    + exists 0. split; [lia|]. erewrite retry_ok by exact E. simpl.
      rewrite app_nil_r, <- (Hfn w), E. reflexivity.
    + destruct (isRetryable (message e)) eqn:R.
      * destruct (IH (nextDelay d) (slept d w')) as (k & Hk & Hs).
        exists (Datatypes.S k). split; [lia|].
        erewrite retry_again by eassumption. rewrite Hs. unfold slept; simpl.
        rewrite sleeps_app, <- app_assoc. simpl.
        rewrite <- (Hfn w), E. reflexivity.
      * exists 0. split; [lia|].
        erewrite retry_stop by (try right; eassumption). simpl.
        rewrite app_nil_r, <- (Hfn w), E. reflexivity.
Qed.

(** The policy ends in the world of some [k + 1] attempts, with one sleep
    between each two of them. *)
Lemma retry_attempted A (fn : M St A) :
  forall r d w, exists k,
    k <= r /\ snd (retryWithBackoff fn r d w) = attempted fn k d w.
Proof.
  induction r as [|r IH]; intros d w;
    destruct (fn w) as [[a|e] w1] eqn:E.
  - exists 0. split; [lia|]. erewrite retry_ok by exact E.
    simpl. rewrite E. reflexivity.
  - exists 0. split; [lia|].
    erewrite retry_stop by (try left; eauto). simpl. rewrite E. reflexivity.
  - exists 0. split; [lia|]. erewrite retry_ok by exact E.
    simpl. rewrite E. reflexivity.
  - destruct (isRetryable (message e)) eqn:R.
    + destruct (IH (nextDelay d) (slept d w1)) as (k & Hk & Hs).
      exists (Datatypes.S k). split; [lia|].
      erewrite retry_again by eassumption. rewrite Hs. simpl.
      rewrite E. reflexivity.
    + exists 0. split; [lia|].
      erewrite retry_stop by (try right; eassumption). simpl.
      rewrite E. reflexivity.
Qed.

End RetryFacts.

(* ------------------------------------------------------------------ *)
(** ** The Gemini adapter *)

Section GeminiFacts.
Context {St : Type} {Svc : Services St}.
Import GeminiService.

(** The world once the adapter has been entered, and once the backend has
    been called from there. *)
Let entered (q m : jsstring) (w : world St) : world St :=
  {| services := services w; trace := trace w ++ [GeminiCall q m] |}.

Let called (q m prompt : jsstring) (s' : St) (w : world St) : world St :=
  {| services := s';
     trace := (trace w ++ [GeminiCall q m]) ++ [BackendCall m prompt] |}.

(** Reading the four fields changes nothing, and throws only on [null]
    and [undefined]. *)
Lemma validatedResponse_world (p : jsval) (m : jsstring) (w : world St) :
  snd (validatedResponse p m w) = w.
Proof.
  unfold validatedResponse, field. run_monad.
  destruct p; reflexivity.
Qed.

(** The adapter without a client. *)
Lemma gemini_uninitialized q model h rt ctx cp (w : world St) :
  genAI = false ->
  generateGeminiResponse q model h rt ctx cp w =
  (Ok (errorResponse (Error (lit "Gemini client not initialized"))
         (modelOrDefault model)),
   entered q (modelOrDefault model) w).
Proof.
  intros G. unfold generateGeminiResponse. run_monad.
  rewrite G. reflexivity.
Qed.

(** The adapter when the backend throws. *)
Lemma gemini_backend_throws q model h rt ctx cp (w : world St) e s' :
  genAI = true ->
  generateContent (modelOrDefault model) (fullPrompt q h rt ctx cp)
    (services w) = (Throw e, s') ->
  generateGeminiResponse q model h rt ctx cp w =
  (Ok (errorResponse e (modelOrDefault model)),
   called q (modelOrDefault model) (fullPrompt q h rt ctx cp) s' w).
Proof.
  intros G B.
  unfold generateGeminiResponse. run_monad.
  rewrite G. simpl. rewrite B. reflexivity.
Qed.

(** The adapter when the backend replies with [text]. *)
Lemma gemini_backend_replies q model h rt ctx cp (w : world St) text s' :
  genAI = true ->
  generateContent (modelOrDefault model) (fullPrompt q h rt ctx cp)
    (services w) = (Ok text, s') ->
  generateGeminiResponse q model h rt ctx cp w =
  (Ok match get_field (parseResponse text) "answer" with
      | Ok _ =>
          match fst (validatedResponse (parseResponse text)
                       (modelOrDefault model) w) with
          | Ok r => r
          | Throw e => errorResponse e (modelOrDefault model)
          end
      | Throw e => errorResponse e (modelOrDefault model)
      end,
   called q (modelOrDefault model) (fullPrompt q h rt ctx cp) s' w).
Proof.
  intros G B.
  unfold generateGeminiResponse. run_monad.
  rewrite G. simpl. rewrite B.
  unfold validatedResponse, field. run_monad.
  destruct (parseResponse text); reflexivity.
Qed.

(** The adapter never throws. *)
Lemma gemini_returns q model h rt ctx cp (w : world St) :
  exists r, fst (generateGeminiResponse q model h rt ctx cp w) = Ok r.
Proof.
  destruct genAI eqn:G.
  - destruct (generateContent (modelOrDefault model)
                (fullPrompt q h rt ctx cp) (services w)) as [[text|e] s']
      eqn:B.
    + erewrite gemini_backend_replies by eassumption. eexists; reflexivity.
    + erewrite gemini_backend_throws by eassumption. eexists; reflexivity.
  - rewrite gemini_uninitialized by assumption. eexists; reflexivity.
Qed.

(** What the adapter adds to the trace: its own entry and at most one
    backend call. *)
Lemma gemini_trace q model h rt ctx cp (w : world St) :
  exists evs,
    trace (snd (generateGeminiResponse q model h rt ctx cp w))
    = trace w ++ GeminiCall q (modelOrDefault model) :: evs
    /\ (evs = [] \/
        evs = [BackendCall (modelOrDefault model)
                 (fullPrompt q h rt ctx cp)]).
Proof.
  destruct genAI eqn:G.
  - destruct (generateContent (modelOrDefault model)
                (fullPrompt q h rt ctx cp) (services w)) as [[text|e] s']
      eqn:B.
    + erewrite gemini_backend_replies by eassumption.
      eexists; split; [|right; reflexivity]. simpl.
      rewrite <- app_assoc. reflexivity.
    + erewrite gemini_backend_throws by eassumption.
      eexists; split; [|right; reflexivity]. simpl.
      rewrite <- app_assoc. reflexivity.
  - rewrite gemini_uninitialized by assumption.
    exists []. split; [reflexivity | left; reflexivity].
Qed.

(** The response built after a failed [JSON.parse]. *)
Lemma validated_parse_fallback (text m : jsstring) (w : world St) :
  JSON_parse (cleanedText text) = None ->
  exists r,
    validatedResponse (parseResponse text) m w = (Ok r, w)
    /\ answer r =
       JStr match text with
            | [] => lit "Based on my extensive experience in this field, I can provide detailed insights..."
            | _ :: _ => substring0 500 text
            end
    /\ experience_mentioned r = JArr []
    /\ key_technologies r = JArr []
    /\ follow_up_topics r = JArr []
    /\ error r = JUndefined
    /\ provider r = JStr (lit "gemini")
    /\ model r = JStr m.
Proof.
  intros P. unfold parseResponse. rewrite P.
  eexists. split; [reflexivity|].
  destruct text as [|c text]; repeat split; reflexivity.
Qed.

(** The adapter when the backend replies with a text that [JSON.parse]
    rejects. *)
Lemma gemini_after_parse_failure q model h rt ctx cp (w : world St) text s' :
  genAI = true ->
  generateContent (modelOrDefault model) (fullPrompt q h rt ctx cp)
    (services w) = (Ok text, s') ->
  JSON_parse (cleanedText text) = None ->
  exists r,
    generateGeminiResponse q model h rt ctx cp w
    = (Ok r, called q (modelOrDefault model) (fullPrompt q h rt ctx cp) s' w)
    /\ answer r =
       JStr match text with
            | [] => lit "Based on my extensive experience in this field, I can provide detailed insights..."
            | _ :: _ => substring0 500 text
            end
    /\ experience_mentioned r = JArr []
    /\ key_technologies r = JArr []
    /\ follow_up_topics r = JArr []
    /\ error r = JUndefined.
Proof.
  intros G B P.
  destruct (validated_parse_fallback text (modelOrDefault model) w P)
    as (r & V & Ha & He & Hk & Hf & Herr & _).
  exists r. split.
  - erewrite gemini_backend_replies by eassumption.
    rewrite V. unfold parseResponse. rewrite P. reflexivity.
  - repeat split; assumption.
Qed.


Lemma js_or_truthy (a b : jsval) :
  truthy b = true -> truthy (js_or a b) = true.
Proof. intros H. unfold js_or. destruct (truthy a) eqn:T; assumption. Qed.


End GeminiFacts.

(* ------------------------------------------------------------------ *)
(** ** The orchestrator, stage by stage *)

Section PipelineFacts.
Context {St : Type} {Svc : Services St}.
Import AiService GeminiService.

Variables (question provider : jsstring) (model : option jsstring).
Variables (history : list turn) (roleType : jsstring).
Variables (ctx : option context) (persona : option jsstring).

Let fn : M St response :=
  providerCall question provider model history roleType ctx persona.

Let generate : M St response :=
  generateInterviewResponse question provider model history roleType ctx
    persona.

(** The model the groq branch writes into its result. *)
Let groqModel : jsstring :=
  or_string model (or_string env_GROQ_MODEL (lit "llama-3.3-70b-versatile")).

(** The provider call on the groq branch. *)
Lemma providerCall_groq (w : world St) :
  provider = lit "groq" ->
  fn w =
  (match fst (generateGroqResponse question history roleType ctx persona
                (services w)) with
   | Ok r => Ok (set_provider_model r (JStr (lit "groq")) (JStr groqModel))
   | Throw e => Throw e
   end,
   {| services :=
        snd (generateGroqResponse question history roleType ctx persona
               (services w));
      trace := trace w ++ [GroqCall question] |}).
Proof.
  intros ->. unfold fn, providerCall. run_monad. simpl.
  destruct (generateGroqResponse _ _ _ _ _ _) as [[r|e] s']; reflexivity.
Qed.

(** The provider call on the gemini branch. *)
Lemma providerCall_gemini (w : world St) :
  provider = lit "gemini" ->
  fn w =
  generateGeminiResponse question
    (Some (or_string model
             (or_string env_GEMINI_MODEL (lit "gemini-2.0-flash-exp"))))
    history roleType ctx persona w.
Proof. intros ->. reflexivity. Qed.

(** The provider call for any other provider. *)
Lemma providerCall_unknown (w : world St) :
  provider <> lit "groq" -> provider <> lit "gemini" ->
  fn w = (Throw (Error (lit "Unknown provider: " ++ provider)), w).
Proof.
  intros G1 G2. unfold fn, providerCall.
  apply jsstring_eqb_neq in G1, G2. rewrite G1, G2. reflexivity.
Qed.

(** What one provider call adds to the trace: one adapter entry, then at
    most one backend call; nothing for an unknown provider. *)
Lemma providerCall_trace (w : world St) :
  exists evs,
    trace (snd (fn w)) = trace w ++ evs
    /\ sleeps evs = []
    /\ count is_cache_op evs = 0
    /\ count is_adapter_call evs =
       (if jsstring_eqb provider (lit "groq") then 1
        else if jsstring_eqb provider (lit "gemini") then 1 else 0)
    /\ count is_groq_call evs =
       (if jsstring_eqb provider (lit "groq") then 1 else 0).
Proof.
  destruct (jsstring_eqb provider (lit "groq")) eqn:G1.
  - apply jsstring_eqb_eq in G1. rewrite providerCall_groq by assumption.
    simpl. eexists; split; [reflexivity|]. repeat split; reflexivity.
  - destruct (jsstring_eqb provider (lit "gemini")) eqn:G2.
    + apply jsstring_eqb_eq in G2. rewrite providerCall_gemini by assumption.
      edestruct gemini_trace as (evs & -> & [-> | ->]);
        (eexists; split; [reflexivity|]); repeat split; reflexivity.
    + apply jsstring_eqb_neq in G1, G2.
      rewrite providerCall_unknown by assumption.
      exists []. simpl. rewrite app_nil_r. repeat split; reflexivity.
Qed.

Lemma providerCall_no_sleep (w : world St) :
  sleeps (trace (snd (fn w))) = sleeps (trace w).
Proof.
  destruct (providerCall_trace w) as (evs & -> & S0 & _).
  rewrite sleeps_app, S0, app_nil_r. reflexivity.
Qed.

(** Step 1 rejects: the fallback response, and nothing else is called. *)
Lemma generate_rejected (w : world St) :
  allowed (rate_check provider w) = false ->
  generate w =
  (Ok (fallbackResponse (Error (rateLimitMessage (rate_check provider w)))
         provider model),
   after_rate_check provider w).
Proof.
  unfold rate_check, after_rate_check.
  unfold generate, generateInterviewResponse. run_monad.
  destruct (checkRateLimit provider (services w)) as [c s']. simpl.
  intros ->. reflexivity.
Qed.

(** Step 2 hits: the cached response, and nothing else is called. *)
Lemma generate_cache_hit (w : world St) (r : response) :
  allowed (rate_check provider w) = true ->
  cache_lookup question provider model persona w = Some r ->
  generate w = (Ok r, after_cache_check question provider model persona w).
Proof.
  unfold rate_check, cache_lookup, after_cache_check, after_rate_check.
  unfold generate, generateInterviewResponse. run_monad.
  destruct (checkRateLimit provider (services w)) as [c s']. simpl.
  intros ->. simpl.
  destruct (isCacheable question); [|discriminate]. simpl.
  destruct (getCachedAIResponse _ _ _ _ s') as [o s'']. simpl.
  intros ->. reflexivity.
Qed.

(** Steps 3 and 4: the retried provider call, then the cache write or the
    fallback response. *)
Lemma generate_calls (w : world St) :
  allowed (rate_check provider w) = true ->
  cache_lookup question provider model persona w = None ->
  generate w =
  match retryWithBackoff fn (maxRetries RETRY_CONFIG)
          (initialDelay RETRY_CONFIG)
          (after_cache_check question provider model persona w) with
  | (Ok r, w') =>
      (Ok r, cache_written question r provider model persona w')
  | (Throw e, w') => (Ok (fallbackResponse e provider model), w')
  end.
Proof.
  unfold rate_check, cache_lookup, after_cache_check, after_rate_check,
    cache_written.
  unfold generate, generateInterviewResponse. run_monad.
  destruct (checkRateLimit provider (services w)) as [c s']. simpl.
  intros ->. simpl.
  destruct (isCacheable question); simpl.
  - destruct (getCachedAIResponse _ _ _ _ s') as [o s'']. simpl.
    intros ->. fold fn.
    destruct (retryWithBackoff fn _ _ _) as [[r|e] w']; reflexivity.
  - intros _. fold fn.
    destruct (retryWithBackoff fn _ _ _) as [[r|e] w']; reflexivity.
Qed.

(** The orchestrator always returns a response. *)
Lemma generate_returns (w : world St) :
  exists r, fst (generate w) = Ok r.
Proof.
  destruct (allowed (rate_check provider w)) eqn:R.
  - destruct (cache_lookup question provider model persona w) as [r|] eqn:C.
    + rewrite (generate_cache_hit _ R C). eexists; reflexivity.
    + rewrite (generate_calls _ R C).
      destruct (retryWithBackoff _ _ _ _) as [[r|e] w'];
        eexists; reflexivity.
  - rewrite (generate_rejected _ R). eexists; reflexivity.
Qed.

End PipelineFacts.

(* ------------------------------------------------------------------ *)
(** ** Properties of the specification *)

Section Properties.
Context {St : Type} {Svc : Services St}.
Import AiService GeminiService.

Variables (question provider : jsstring) (model : option jsstring).
Variables (history : list turn) (roleType : jsstring).
Variables (ctx : option context) (persona : option jsstring).

Let generate : M St response :=
  generateInterviewResponse question provider model history roleType ctx
    persona.


(** C6.  When the question is cacheable and the lookup finds a response,
    [generateInterviewResponse] returns that very response; the calls it
    makes are the rate-limit check and then the lookup, in this order, so
    no adapter is invoked and nothing is written to the cache. *)
Theorem cache_hit_returns_cached (w : world St) (cached : response) :
  allowed (rate_check provider w) = true ->
  isCacheable question = true ->
  fst (getCachedAIResponse question provider model persona
         (services (after_rate_check provider w))) = Some cached ->
  exists w',
    generate w = (Ok cached, w')
    /\ trace w' = trace w ++ [RateLimitCheck provider;
                              CacheGet question provider model persona]
    /\ count is_adapter_call (trace w') = count is_adapter_call (trace w)
    /\ count is_backend_call (trace w') = count is_backend_call (trace w)
    /\ count is_cache_write (trace w') = count is_cache_write (trace w).
Proof.
  intros R Q C. eexists. split.
  - apply generate_cache_hit; [exact R|]. unfold cache_lookup.
    rewrite Q. exact C.
  - unfold after_cache_check. rewrite Q. simpl. rewrite <- app_assoc. simpl.
    split; [reflexivity|]. rewrite !count_app. unfold count; simpl.
    repeat split; lia.
Qed.

(** C7.  When the Gemini backend replies with a text that [JSON.parse]
    rejects once the code fences are stripped, [generateGeminiResponse]
    returns a response without [error]: its [answer] is the first 500 code
    units of the raw text, the whole text when it has no more than 500 and
    never more than 500, or the fixed sentence when the text is empty, and
    [experience_mentioned], [key_technologies] and [follow_up_topics] are
    empty arrays. *)
Theorem gemini_parse_failure_degrades (w : world St) (gmodel : option jsstring)
    (text : jsstring) (s' : St) :
  genAI = true ->
  generateContent (modelOrDefault gmodel)
    (fullPrompt question history roleType ctx persona) (services w)
  = (Ok text, s') ->
  JSON_parse (cleanedText text) = None ->
  exists r w',
    generateGeminiResponse question gmodel history roleType ctx persona w
    = (Ok r, w')
    /\ answer r =
       JStr match text with
            | [] => lit "Based on my extensive experience in this field, I can provide detailed insights..."
            | _ :: _ => firstn 500 text
            end
    /\ (forall a, answer r = JStr a -> text <> [] ->
        List.length a = Nat.min 500 (List.length text)
        /\ exists rest, text = a ++ rest)
    /\ (List.length text <= 500 -> text <> [] -> answer r = JStr text)
    /\ experience_mentioned r = JArr []
    /\ key_technologies r = JArr []
    /\ follow_up_topics r = JArr []
    /\ error r = JUndefined.
Proof.
  intros G B P.
  destruct (gemini_after_parse_failure question gmodel history roleType ctx
              persona w G B P) as (r & E & Ha & H).
  unfold substring0 in Ha.
  exists r. eexists. split; [exact E|]. split; [exact Ha|].
  split; [|split; [|exact H]].
  - intros a Hr Ht.
    assert (Hf : a = firstn 500 text).
    { rewrite Ha in Hr. destruct text; congruence. }
    subst a. split; [apply length_firstn|].
    exists (skipn 500 text). symmetry. apply firstn_skipn.
  - intros Hl Ht. rewrite Ha.
    destruct text as [|c text]; [congruence|].
    rewrite firstn_all2 by exact Hl. reflexivity.
Qed.

(** On the gemini branch the first attempt of the retry policy succeeds:
    the policy returns what the adapter returned, in the world the adapter
    left. *)
Lemma gemini_first_attempt_succeeds (w : world St) :
  provider = lit "gemini" ->
  exists r,
    retryWithBackoff
      (providerCall question provider model history roleType ctx persona)
      (maxRetries RETRY_CONFIG) (initialDelay RETRY_CONFIG) w
    = (Ok r,
       snd (generateGeminiResponse question (Some (geminiModel model))
              history roleType ctx persona w))
    /\ generateGeminiResponse question (Some (geminiModel model))
         history roleType ctx persona w
       = (Ok r,
          snd (generateGeminiResponse question (Some (geminiModel model))
                 history roleType ctx persona w)).
Proof.
  intros P.
  destruct (gemini_returns question (Some (geminiModel model)) history
              roleType ctx persona w) as (r & Hr).
  exists r.
  assert (E : generateGeminiResponse question (Some (geminiModel model))
                history roleType ctx persona w
              = (Ok r,
                 snd (generateGeminiResponse question
                        (Some (geminiModel model)) history roleType ctx
                        persona w))).
  { destruct (generateGeminiResponse _ _ _ _ _ _ w); simpl in *; congruence. }
  split; [|exact E].
  apply retry_ok. rewrite providerCall_gemini by exact P. exact E.
Qed.

(** C10.  With provider gemini, a cacheable question, a cache miss and a
    backend call that throws, [generateInterviewResponse] takes the
    adapter's error-bearing response for a success: it hands exactly that
    response to [cacheAIResponse] and returns it. *)
Theorem gemini_failure_is_cached (w : world St) (e : exn) (s' : St) :
  provider = lit "gemini" ->
  allowed (rate_check provider w) = true ->
  isCacheable question = true ->
  fst (getCachedAIResponse question provider model persona
         (services (after_rate_check provider w))) = None ->
  genAI = true ->
  backend_outcome question provider model history roleType ctx persona w
  = (Throw e, s') ->
  exists r w',
    generate w = (Ok r, w')
    /\ r = errorResponse e (geminiModel model)
    /\ error r = JStr (message e)
    /\ experience_mentioned r = JArr []
    /\ key_technologies r = JArr []
    /\ follow_up_topics r = JArr []
    /\ trace w' =
       trace w ++ [RateLimitCheck provider;
                   CacheGet question provider model persona;
                   GeminiCall question (geminiModel model);
                   BackendCall (geminiModel model)
                     (fullPrompt question history roleType ctx persona);
                   CacheSet question r provider model persona]
    /\ services w' = cacheAIResponse question r provider model persona s'.
Proof.
  intros P R Q C G B.
  assert (C' : cache_lookup question provider model persona w = None).
  { unfold cache_lookup. rewrite Q. exact C. }
  unfold generate. rewrite (generate_calls _ _ _ _ _ _ _ _ R C').
  destruct (gemini_first_attempt_succeeds
              (after_cache_check question provider model persona w) P)
    as (r & Hretry & Hcall).
  rewrite (gemini_backend_throws question (Some (geminiModel model)) history
             roleType ctx persona _ G B) in Hretry, Hcall.
  cbn [snd] in Hretry, Hcall. inversion Hcall; subst r. rewrite Hretry.
  do 2 eexists. split; [reflexivity|].
  unfold cache_written, after_cache_check, after_rate_check.
  rewrite Q. simpl. rewrite <- !app_assoc. simpl.
  repeat split; reflexivity.
Qed.

(** C9.  [generateGeminiResponse] never throws.  When the backend call
    throws [e], the adapter returns a response with [error] the message of
    [e], provider gemini, score 0 and a fixed non-empty answer.  So with
    provider gemini the retry policy gets a value from its first attempt:
    it returns in the world that one adapter call left, it never sleeps,
    and a whole invocation of [generateInterviewResponse] enters the adapter
    at most once and never sleeps. *)
Theorem gemini_adapter_never_rejects (w : world St)
    (gmodel : option jsstring) :
  (exists r,
      fst (generateGeminiResponse question gmodel history roleType ctx
             persona w) = Ok r)
  /\ (forall e s',
         genAI = true ->
         generateContent (modelOrDefault gmodel)
           (fullPrompt question history roleType ctx persona) (services w)
         = (Throw e, s') ->
         exists r w',
           generateGeminiResponse question gmodel history roleType ctx
             persona w = (Ok r, w')
           /\ error r = JStr (message e)
           /\ provider_of r = JStr (lit "gemini")
           /\ score r = JNum 0
           /\ answer r = JStr (lit "I have extensive experience in this area. Let me share a specific example from my previous role..."))
  /\ (provider = lit "gemini" ->
      (exists r,
          retryWithBackoff
            (providerCall question provider model history roleType ctx
               persona)
            (maxRetries RETRY_CONFIG) (initialDelay RETRY_CONFIG) w
          = (Ok r,
             snd (generateGeminiResponse question (Some (geminiModel model))
                    history roleType ctx persona w)))
      /\ sleeps (trace (snd (generate w))) = sleeps (trace w)
      /\ count is_gemini_call (trace (snd (generate w)))
         <= count is_gemini_call (trace w) + 1).
Proof.
  split; [apply gemini_returns|]. split.
  - intros e s' G B. do 2 eexists. split.
    + apply gemini_backend_throws; eassumption.
    + repeat split; reflexivity.
  - intros P. split.
    + destruct (gemini_first_attempt_succeeds w P) as (r & Hr & _).
      exists r. exact Hr.
    + unfold generate.
      destruct (allowed (rate_check provider w)) eqn:R.
      * destruct (cache_lookup question provider model persona w)
          as [cached|] eqn:C.
        -- rewrite (generate_cache_hit _ _ _ _ _ _ _ _ R C).
           unfold after_cache_check, after_rate_check.
           destruct (isCacheable question); simpl;
             rewrite ?sleeps_app, ?count_app; unfold count; simpl;
             rewrite ?app_nil_r; split; try reflexivity; lia.
        -- rewrite (generate_calls _ _ _ _ _ _ _ _ R C).
           destruct (gemini_first_attempt_succeeds
                       (after_cache_check question provider model persona w)
                       P) as (r & Hr & _).
           rewrite Hr.
           destruct (gemini_trace question (Some (geminiModel model)) history
                       roleType ctx persona
                       (after_cache_check question provider model persona w))
             as (evs & Ht & Hevs).
           assert (T0 : sleeps (trace (after_cache_check question provider
                                         model persona w))
                        = sleeps (trace w)
                        /\ count is_gemini_call
                             (trace (after_cache_check question provider
                                       model persona w))
                           = count is_gemini_call (trace w)).
           { unfold after_cache_check, after_rate_check.
             destruct (isCacheable question); simpl;
               rewrite ?sleeps_app, ?count_app; unfold count; simpl;
               rewrite ?app_nil_r; split; try reflexivity; lia. }
           destruct T0 as [T1 T2].
           unfold cache_written.
           destruct (isCacheable question); simpl; rewrite Ht;
             rewrite ?sleeps_app, ?count_app, T1, T2; simpl;
             destruct Hevs as [-> | ->]; unfold count; simpl;
             rewrite ?app_nil_r; split; try reflexivity; lia.
      * rewrite (generate_rejected _ _ _ _ _ _ _ _ R).
        unfold after_rate_check. simpl.
        rewrite sleeps_app, count_app. unfold count; simpl.
        rewrite app_nil_r. split; [reflexivity | lia].
Qed.

(** Steps 1 and 2 add only their own two events. *)
Lemma after_cache_check_count (p : event -> bool) (w : world St) :
  (forall x, p (RateLimitCheck x) = false) ->
  (forall a b c d, p (CacheGet a b c d) = false) ->
  count p (trace (after_cache_check question provider model persona w))
  = count p (trace w).
Proof.
  intros H1 H2. unfold after_cache_check, after_rate_check.
  destruct (isCacheable question); simpl; rewrite !count_app;
    unfold count; simpl; rewrite ?H1, ?H2; simpl; lia.
Qed.

Lemma after_cache_check_sleeps (w : world St) :
  sleeps (trace (after_cache_check question provider model persona w))
  = sleeps (trace w).
Proof.
  unfold after_cache_check, after_rate_check.
  destruct (isCacheable question); simpl; rewrite !sleeps_app; simpl;
    rewrite !app_nil_r; reflexivity.
Qed.

(** The policy calls its function at least once. *)
Lemma retry_at_least_once A (fn : M St A) (cnt : world St -> nat) :
  (forall w, cnt (snd (fn w)) = Datatypes.S (cnt w)) ->
  (forall d w, cnt (slept d w) = cnt w) ->
  forall r d w, cnt w + 1 <= cnt (snd (retryWithBackoff fn r d w)).
Proof.
  intros Hfn Hsl. induction r as [|r IH]; intros d w;
    destruct (fn w) as [[a|e] w1] eqn:E;
    assert (H1 : cnt w1 = Datatypes.S (cnt w))
      by (rewrite <- (Hfn w), E; reflexivity);
    try (erewrite retry_ok by exact E; simpl; lia).
  - erewrite retry_stop by (try left; eauto). simpl. lia.
  - destruct (isRetryable (message e)) eqn:R.
    + erewrite retry_again by eassumption.
      specialize (IH (nextDelay d) (slept d w1)).
      rewrite Hsl in IH. lia.
    + erewrite retry_stop by (try right; eauto). simpl. lia.
Qed.

Lemma isRetryable_transient (msg : jsstring) :
  isRetryable msg = true <-> transient msg.
Proof.
  unfold isRetryable, transient. rewrite !orb_true_iff. tauto.
Qed.

(** C2.  With provider groq, once let through and with no cached response:
    when the adapter throws a transient error every time it is called, it
    is called exactly 4 times, with the three sleeps in between, and the
    last error ends up in the error response; when its first call throws an
    error that is not transient, it is called exactly once and that error
    ends up in the error response. *)
Theorem retry_terminates_after_four_attempts (w : world St) :
  provider = lit "groq" ->
  allowed (rate_check provider w) = true ->
  cache_lookup question provider model persona w = None ->
  ((forall s, exists e,
        fst (generateGroqResponse question history roleType ctx persona s)
        = Throw e
        /\ isRetryable (message e) = true) ->
   exists e w',
     generate w = (Ok (fallbackResponse e provider model), w')
     /\ isRetryable (message e) = true
     /\ count is_groq_call (trace w') = count is_groq_call (trace w) + 4
     /\ sleeps (trace w') = sleeps (trace w) ++ [1000; 2000; 4000]%Z)
  /\ (forall e,
         fst (generateGroqResponse question history roleType ctx persona
                (services
                   (after_cache_check question provider model persona w)))
         = Throw e ->
         isRetryable (message e) = false ->
         exists w',
           generate w = (Ok (fallbackResponse e provider model), w')
           /\ count is_groq_call (trace w')
              = count is_groq_call (trace w) + 1
           /\ sleeps (trace w') = sleeps (trace w)).
Proof.
  intros P R C. unfold generate.
  rewrite (generate_calls _ _ _ _ _ _ _ _ R C).
  set (fn := providerCall question provider model history roleType ctx
               persona).
  set (w0 := after_cache_check question provider model persona w).
  assert (Hcnt : forall w1,
             count is_groq_call (trace (snd (fn w1)))
             = Datatypes.S (count is_groq_call (trace w1))).
  { intros w1. unfold fn. rewrite providerCall_groq by exact P. simpl.
    rewrite count_app. unfold count; simpl. lia. }
  assert (H0 : count is_groq_call (trace w0) = count is_groq_call (trace w)).
  { apply after_cache_check_count; reflexivity. }
  split.
  - intros Hall.
    destruct (@retry_exhausts St response fn) with
      (r := maxRetries RETRY_CONFIG) (d := initialDelay RETRY_CONFIG)
      (w := w0) as (e & He & Hr).
    { intros w1. destruct (Hall (services w1)) as (e & He & Hr).
      exists e. split; [|exact Hr]. unfold fn.
      rewrite providerCall_groq by exact P. simpl. rewrite He. reflexivity. }
    rewrite He. exists e. eexists. split; [reflexivity|].
    split; [exact Hr|]. split.
    + rewrite (attempted_count fn (fun x => count is_groq_call (trace x))).
      * rewrite H0. simpl. lia.
      * exact Hcnt.
      * intros d x. unfold slept; simpl. rewrite count_app.
        unfold count; simpl. lia.
    + rewrite attempted_sleeps.
      * unfold w0. rewrite after_cache_check_sleeps. reflexivity.
      * intros w1. apply providerCall_no_sleep.
  - intros e He Hr.
    assert (E : fn w0 = (Throw e, snd (fn w0))).
    { unfold fn. rewrite providerCall_groq by exact P. simpl.
      fold w0. rewrite He. reflexivity. }
    erewrite retry_stop by (try right; eauto).
    eexists. split; [reflexivity|]. split.
    + rewrite Hcnt, H0. lia.
    + unfold fn. rewrite providerCall_no_sleep. unfold w0.
      apply after_cache_check_sleeps.
Qed.

(** C3.  After a failed attempt with error [e] and [r] retries left, the
    function is called again if and only if [r] is not 0 and the message of
    [e] contains one of timeout, ECONNRESET, ETIMEDOUT, 429, 500, 503; if
    so the policy sleeps and goes on with one retry less, and if not it
    throws [e] in the world that single attempt left, with no sleep.
    Calls are counted by any counter that a call advances by one and that a
    sleep leaves alone. *)
Theorem retried_iff_transient A (fn : M St A) (cnt : world St -> nat)
    (r : nat) (d : Z) (w : world St) (e : exn) :
  (forall w, cnt (snd (fn w)) = Datatypes.S (cnt w)) ->
  (forall d w, cnt (slept d w) = cnt w) ->
  fst (fn w) = Throw e ->
  (isRetryable (message e) = true <-> transient (message e))
  /\ (cnt w + 2 <= cnt (snd (retryWithBackoff fn r d w))
      <-> r <> 0 /\ transient (message e))
  /\ (r <> 0 /\ transient (message e) ->
      retryWithBackoff fn r d w
      = retryWithBackoff fn (r - 1) (nextDelay d) (slept d (snd (fn w))))
  /\ (~ (r <> 0 /\ transient (message e)) ->
      retryWithBackoff fn r d w = (Throw e, snd (fn w))
      /\ cnt (snd (retryWithBackoff fn r d w)) = cnt w + 1
      /\ sleeps (trace (snd (retryWithBackoff fn r d w)))
         = sleeps (trace (snd (fn w)))).
Proof.
  intros Hfn Hsl He.
  assert (E : fn w = (Throw e, snd (fn w))).
  { destruct (fn w); simpl in *; congruence. }
  assert (Again : r <> 0 /\ transient (message e) ->
                  retryWithBackoff fn r d w
                  = retryWithBackoff fn (r - 1) (nextDelay d)
                      (slept d (snd (fn w)))).
  { intros [Hr Ht]. apply isRetryable_transient in Ht.
    destruct r as [|r]; [congruence|].
    replace (Datatypes.S r - 1) with r by lia.
    eapply retry_again; eassumption. }
  assert (Stop : ~ (r <> 0 /\ transient (message e)) ->
                 retryWithBackoff fn r d w = (Throw e, snd (fn w))).
  { intros N. eapply retry_stop; [exact E|].
    destruct r as [|r]; [left; reflexivity|]. right.
    destruct (isRetryable (message e)) eqn:R; [|reflexivity].
    exfalso. apply N. split; [discriminate|].
    apply isRetryable_transient. exact R. }
  split; [apply isRetryable_transient|]. split; [|split].
  - split.
    + intros Hc.
      destruct r as [|r].
      * rewrite Stop in Hc by (intros [N _]; congruence).
        simpl in Hc. rewrite Hfn in Hc. lia.
      * split; [discriminate|].
        destruct (isRetryable (message e)) eqn:R;
          [apply isRetryable_transient; exact R|].
        rewrite Stop in Hc.
        -- simpl in Hc. rewrite Hfn in Hc. lia.
        -- intros [_ T]. apply isRetryable_transient in T. congruence.
    + intros H. rewrite (Again H).
      pose proof (retry_at_least_once fn cnt Hfn Hsl (r - 1) (nextDelay d)
                    (slept d (snd (fn w)))) as L.
      rewrite Hsl, Hfn in L. lia.
  - exact Again.
  - intros N. rewrite (Stop N). simpl. rewrite Hfn.
    repeat split; lia.
Qed.

(** A function that fails with the same error and no effect whenever it is
    called: the policy throws that error, after the whole schedule when the
    error is transient and at once when it is not. *)
Lemma retry_constant_failure A (fn : M St A) (e0 : exn) :
  (forall w, fn w = (Throw e0, w)) ->
  forall r d w,
    retryWithBackoff fn r d w =
    (Throw e0,
     {| services := services w;
        trace := trace w
                 ++ map Sleep (if isRetryable (message e0)
                               then schedule r d else []) |}).
Proof.
  intros Hfn. induction r as [|r IH]; intros d w.
  - erewrite retry_stop by (try left; eauto).
    destruct w, (isRetryable (message e0)); simpl; rewrite app_nil_r;
      reflexivity.
  - destruct (isRetryable (message e0)) eqn:R.
    + erewrite retry_again by eauto. rewrite IH. unfold slept. simpl.
      rewrite <- app_assoc. reflexivity.
    + erewrite retry_stop by (try right; eauto).
      destruct w; simpl; rewrite app_nil_r; reflexivity.
Qed.

Lemma sleeps_map_Sleep (l : list Z) : sleeps (map Sleep l) = l.
Proof. induction l as [|x l IH]; simpl; [|rewrite IH]; reflexivity. Qed.

Lemma count_map_Sleep (p : event -> bool) (l : list Z) :
  (forall ms, p (Sleep ms) = false) -> count p (map Sleep l) = 0.
Proof.
  intros H. unfold count. induction l as [|x l IH]; simpl;
    [|rewrite H]; auto.
Qed.



(** For a provider that is neither groq nor gemini, once let through and with
    no cached response: no adapter is entered, the error response names
    the provider, and the policy goes through its three retries exactly
    when "Unknown provider: <provider>" reads as a transient failure. *)
Theorem unknown_provider_outcome (w : world St) :
  provider <> lit "groq" -> provider <> lit "gemini" ->
  allowed (rate_check provider w) = true ->
  cache_lookup question provider model persona w = None ->
  exists w',
    generate w =
    (Ok (fallbackResponse (Error (lit "Unknown provider: " ++ provider))
           provider model), w')
    /\ count is_adapter_call (trace w') = count is_adapter_call (trace w)
    /\ sleeps (trace w') =
       sleeps (trace w)
       ++ (if isRetryable (lit "Unknown provider: " ++ provider)
           then [1000; 2000; 4000]%Z else []).
Proof.
  intros G1 G2 R C. unfold generate.
  rewrite (generate_calls _ _ _ _ _ _ _ _ R C).
  rewrite (@retry_constant_failure response
             (providerCall question provider model history roleType ctx
                persona)
             (Error (lit "Unknown provider: " ++ provider))).
  - eexists. split; [reflexivity|]. simpl. split.
    + rewrite count_app, count_map_Sleep by reflexivity.
      rewrite after_cache_check_count by reflexivity. lia.
    + rewrite sleeps_app, sleeps_map_Sleep, after_cache_check_sleeps.
      destruct (isRetryable _); reflexivity.
  - intros w1. apply providerCall_unknown; assumption.
Qed.

(** C4.  The delays of the retry policy follow the schedule 1 s, 2 s,
    4 s, 8 s, each the double of the one before, capped at 10 s, and they
    are slept between successive attempts.  An invocation that reaches the
    provider call makes [k + 1] attempts for some [k <= 3], with one sleep
    between each two of them, and these [k] sleeps are the first [k] of
    1 s, 2 s, 4 s, 8 s; with provider groq or gemini the adapter is entered
    [k + 1] times.  An invocation that is rejected or served from the cache
    does not sleep.  For any function the policy ends after some [k + 1]
    attempts with [k] at most the retries given; and for a function that
    fails with a transient error whenever it is called, the policy started
    at 1 s with [r <= 6] retries sleeps exactly the first [r] of 1 s, 2 s,
    4 s, 8 s, 10 s, 10 s. *)
Theorem backoff_delays_follow_schedule (w : world St) :
  ((allowed (rate_check provider w) = false
    \/ exists cached,
         allowed (rate_check provider w) = true
         /\ cache_lookup question provider model persona w = Some cached) ->
   sleeps (trace (snd (generate w))) = sleeps (trace w))
  /\ (allowed (rate_check provider w) = true ->
      cache_lookup question provider model persona w = None ->
      exists k,
        k <= 3
        /\ snd (retryWithBackoff
                  (providerCall question provider model history roleType ctx
                     persona)
                  (maxRetries RETRY_CONFIG) (initialDelay RETRY_CONFIG)
                  (after_cache_check question provider model persona w))
           = attempted
               (providerCall question provider model history roleType ctx
                  persona)
               k 1000
               (after_cache_check question provider model persona w)
        /\ sleeps (trace (snd (generate w)))
           = sleeps (trace w) ++ firstn k [1000; 2000; 4000; 8000]%Z
        /\ (provider = lit "groq" \/ provider = lit "gemini" ->
            count is_adapter_call (trace (snd (generate w)))
            = count is_adapter_call (trace w) + (k + 1)))
  /\ (forall A (f : M St A) r d w0,
         exists k,
           k <= r /\ snd (retryWithBackoff f r d w0) = attempted f k d w0)
  /\ (forall A (f : M St A),
         (forall w0, exists e,
             fst (f w0) = Throw e /\ isRetryable (message e) = true) ->
         (forall w0, sleeps (trace (snd (f w0))) = sleeps (trace w0)) ->
         forall r w0,
           r <= 6 ->
           sleeps (trace (snd (retryWithBackoff f r 1000 w0)))
           = sleeps (trace w0)
             ++ firstn r [1000; 2000; 4000; 8000; 10000; 10000]%Z).
Proof.
  split; [|split; [|split]].
  - unfold generate. intros [R | (cached & R & C)].
    + rewrite (generate_rejected _ _ _ _ _ _ _ _ R).
      unfold after_rate_check. simpl. rewrite sleeps_app. simpl.
      apply app_nil_r.
    + rewrite (generate_cache_hit _ _ _ _ _ _ _ _ R C). simpl.
      apply after_cache_check_sleeps.
  - intros R C. unfold generate.
    rewrite (generate_calls _ _ _ _ _ _ _ _ R C).
    set (fn := providerCall question provider model history roleType ctx
                 persona).
    set (w0 := after_cache_check question provider model persona w).
    destruct (retry_attempted fn (maxRetries RETRY_CONFIG)
                (initialDelay RETRY_CONFIG) w0) as (k & Hk & Hw).
    exists k. split; [exact Hk|]. split; [exact Hw|].
    assert (Hs : sleeps (trace (attempted fn k 1000 w0))
                 = sleeps (trace w) ++ firstn k [1000; 2000; 4000; 8000]%Z).
    { rewrite attempted_sleeps
        by (intros w1; apply providerCall_no_sleep).
      unfold w0. rewrite after_cache_check_sleeps. f_equal.
      change (maxRetries RETRY_CONFIG) with 3 in Hk.
      destruct k as [|[|[|[|k]]]]; try reflexivity. lia. }
    assert (Hc : provider = lit "groq" \/ provider = lit "gemini" ->
                 count is_adapter_call (trace (attempted fn k 1000 w0))
                 = count is_adapter_call (trace w) + (k + 1)).
    { intros Hp.
      rewrite (attempted_count fn
                 (fun x => count is_adapter_call (trace x))).
      - unfold w0. rewrite after_cache_check_count by reflexivity. lia.
      - intros w1. unfold fn.
        destruct (providerCall_trace question provider model history
                    roleType ctx persona w1) as (evs & -> & _ & _ & Ha & _).
        rewrite count_app, Ha.
        destruct Hp as [-> | ->]; simpl; lia.
      - intros d x. unfold slept; simpl. rewrite count_app.
        unfold count; simpl. lia. }
    change (initialDelay RETRY_CONFIG) with 1000%Z in Hw.
    change (initialDelay RETRY_CONFIG) with 1000%Z.
    destruct (retryWithBackoff fn (maxRetries RETRY_CONFIG) 1000 w0)
      as [[r|e] w'] eqn:E; simpl in Hw; subst w'; simpl.
    + unfold cache_written. destruct (isCacheable question); simpl.
      * rewrite sleeps_app, count_app. simpl. rewrite app_nil_r.
        split; [exact Hs|]. intros Hp. rewrite (Hc Hp).
        unfold count; simpl. lia.
      * split; [exact Hs | exact Hc].
    + split; [exact Hs | exact Hc].
  - intros A f r d w0. apply retry_attempted.
  - intros A f Hfail Hquiet r w0 Hr.
    destruct (retry_exhausts f Hfail r 1000 w0) as (e & He & _).
    rewrite He. simpl. rewrite attempted_sleeps by exact Hquiet. f_equal.
    destruct r as [|[|[|[|[|[|[|r]]]]]]]; try reflexivity. lia.
Qed.


End Properties.

(* ------------------------------------------------------------------ *)
(** ** Worked runs

    The properties above, at scripted collaborators. *)

Import AiService GeminiService.


(** A cached response comes back as it is: the adapter that would fail is
    never asked. *)
Lemma cache_hit_run :
  exists w',
    Mock.run (Mock.groq_fails "Request timeout") "What is React?" "groq"
      (Mock.holding (Mock.plain "Cached answer"))
    = (Ok (Mock.plain "Cached answer"), w')
    /\ trace w' = [RateLimitCheck (lit "groq");
                   CacheGet (lit "What is React?") (lit "groq") None None].
Proof.
  destruct (@cache_hit_returns_cached _
              (Mock.mocked (Mock.groq_fails "Request timeout"))
              (lit "What is React?") (lit "groq") None [] (lit "general")
              None None (Mock.holding (Mock.plain "Cached answer"))
              (Mock.plain "Cached answer") eq_refl eq_refl eq_refl)
    as (w' & H & Ht & _).
  exists w'. split; [exact H | exact Ht].
Defined.

(** A reply in prose, 600 code units long: its first 500 become the
    answer. *)
Lemma gemini_parse_failure_run :
  exists r w',
    Mock.run_gemini (Mock.gemini_backend (Ok MockJson.long_prose))
      "What is React?" Mock.empty = (Ok r, w')
    /\ answer r = JStr (repeat 97%N 500)
    /\ experience_mentioned r = JArr []
    /\ error r = JUndefined.
Proof.
  assert (P : JSON_parse
                (Services := Mock.mocked
                               (Mock.gemini_backend (Ok MockJson.long_prose)))
                (cleanedText MockJson.long_prose) = None)
    by (vm_compute; reflexivity).
  destruct (@gemini_parse_failure_degrades _
              (Mock.mocked (Mock.gemini_backend (Ok MockJson.long_prose)))
              (lit "What is React?") [] (lit "general") None None Mock.empty
              None MockJson.long_prose
              {| Mock.slot := None; Mock.groq_calls := 0 |}
              eq_refl eq_refl P)
    as (r & w' & H & Ha & _ & _ & He & _ & _ & Herr).
  exists r, w'. split; [exact H|]. split; [|split; [exact He | exact Herr]].
  rewrite Ha. vm_compute. reflexivity.
Defined.

(** A backend failure is cached: the write holds the error-bearing
    response, and the store ends up holding it. *)
Lemma gemini_failure_is_cached_run :
  exists r w',
    Mock.run (Mock.gemini_backend (Throw (Error (lit "503 Service Unavailable"))))
      "What is React?" "gemini" Mock.empty = (Ok r, w')
    /\ error r = JStr (lit "503 Service Unavailable")
    /\ count is_cache_write (trace w') = 1
    /\ Mock.slot (services w') = Some r.
Proof.
  destruct (@gemini_failure_is_cached _
              (Mock.mocked
                 (Mock.gemini_backend
                    (Throw (Error (lit "503 Service Unavailable")))))
              (lit "What is React?") (lit "gemini") None [] (lit "general")
              None None Mock.empty
              (Error (lit "503 Service Unavailable"))
              {| Mock.slot := None; Mock.groq_calls := 0 |}
              eq_refl eq_refl eq_refl eq_refl eq_refl eq_refl)
    as (r & w' & H & Hr & He & _ & _ & _ & Ht & Hs).
  exists r, w'. split; [exact H|]. split; [exact He|]. split.
  - rewrite Ht. reflexivity.
  - rewrite Hs. reflexivity.
Defined.

(** A groq adapter that always times out is called 4 times, and one that
    rejects the key is called once. *)
Lemma retry_terminates_run :
  (exists e w',
      Mock.run (Mock.groq_fails "Request timeout") "What is React?" "groq"
        Mock.empty
      = (Ok (fallbackResponse e (lit "groq") None), w')
      /\ count is_groq_call (trace w') = 4
      /\ sleeps (trace w') = [1000; 2000; 4000]%Z)
  /\ (exists w',
         Mock.run (Mock.groq_fails "Invalid API key") "What is React?" "groq"
           Mock.empty
         = (Ok (fallbackResponse (Error (lit "Invalid API key")) (lit "groq")
                  None), w')
         /\ count is_groq_call (trace w') = 1
         /\ sleeps (trace w') = []).
Proof.
  split.
  - destruct (@retry_terminates_after_four_attempts _
                (Mock.mocked (Mock.groq_fails "Request timeout"))
                (lit "What is React?") (lit "groq") None [] (lit "general")
                None None Mock.empty eq_refl eq_refl eq_refl)
      as [Hall _].
    destruct Hall as (e & w' & H & _ & Hc & Hs).
    + intros s. exists (Error (lit "Request timeout")).
      split; reflexivity.
    + exists e, w'. split; [exact H|]. split; [exact Hc | exact Hs].
  - destruct (@retry_terminates_after_four_attempts _
                (Mock.mocked (Mock.groq_fails "Invalid API key"))
                (lit "What is React?") (lit "groq") None [] (lit "general")
                None None Mock.empty eq_refl eq_refl eq_refl)
      as [_ Hone].
    destruct (Hone (Error (lit "Invalid API key")) eq_refl eq_refl)
      as (w' & H & Hc & Hs).
    exists w'. split; [exact H|]. split; [exact Hc | exact Hs].
Defined.

(** The groq call of a script is counted by the groq entries of the
    trace. *)
Lemma groq_attempt_counted (sc : Mock.script) (q : string)
    (w : world Mock.store) :
  count is_groq_call (trace (snd (Mock.groq_attempt sc q w)))
  = Datatypes.S (count is_groq_call (trace w)).
Proof.
  unfold Mock.groq_attempt.
  rewrite (@providerCall_groq _ (Mock.mocked sc)) by reflexivity.
  simpl. rewrite count_app. unfold count; simpl. lia.
Qed.

Lemma slept_not_counted (d : Z) (w : world Mock.store) :
  count is_groq_call (trace (slept d w)) = count is_groq_call (trace w).
Proof.
  unfold slept; simpl. rewrite count_app. unfold count; simpl. lia.
Qed.

(** After a timeout with 3 retries left the adapter is called again; after
    a rejected key it is not, and with no retry left a timeout is final. *)
Lemma retried_iff_transient_run :
  (2 <= count is_groq_call
          (trace (snd (retryWithBackoff
                         (Mock.groq_attempt (Mock.groq_fails "Request timeout")
                            "What is React?")
                         3 1000 Mock.empty))))
  /\ retryWithBackoff
       (Mock.groq_attempt (Mock.groq_fails "Invalid API key")
          "What is React?") 3 1000 Mock.empty
     = (Throw (Error (lit "Invalid API key")),
        snd (Mock.groq_attempt (Mock.groq_fails "Invalid API key")
               "What is React?" Mock.empty))
  /\ retryWithBackoff
       (Mock.groq_attempt (Mock.groq_fails "Request timeout")
          "What is React?") 0 1000 Mock.empty
     = (Throw (Error (lit "Request timeout")),
        snd (Mock.groq_attempt (Mock.groq_fails "Request timeout")
               "What is React?" Mock.empty)).
Proof.
  split; [|split].
  - destruct (@retried_iff_transient _ _
                (Mock.groq_attempt (Mock.groq_fails "Request timeout")
                   "What is React?")
                (fun w => count is_groq_call (trace w))
                3 1000%Z Mock.empty (Error (lit "Request timeout"))
                (groq_attempt_counted _ _) slept_not_counted eq_refl)
      as (_ & Hiff & _).
    apply Hiff. split; [discriminate|]. left. reflexivity.
  - destruct (@retried_iff_transient _ _
                (Mock.groq_attempt (Mock.groq_fails "Invalid API key")
                   "What is React?")
                (fun w => count is_groq_call (trace w))
                3 1000%Z Mock.empty (Error (lit "Invalid API key"))
                (groq_attempt_counted _ _) slept_not_counted eq_refl)
      as (Hspec & _ & _ & Hstop).
    apply Hstop. intros [_ T]. apply Hspec in T. discriminate T.
  - destruct (@retried_iff_transient _ _
                (Mock.groq_attempt (Mock.groq_fails "Request timeout")
                   "What is React?")
                (fun w => count is_groq_call (trace w))
                0 1000%Z Mock.empty (Error (lit "Request timeout"))
                (groq_attempt_counted _ _) slept_not_counted eq_refl)
      as (_ & _ & _ & Hstop).
    apply Hstop. intros [N _]. apply N. reflexivity.
Defined.



(** A Gemini backend that answers 503 costs one adapter call and no
    sleep. *)
Lemma gemini_adapter_never_rejects_run :
  exists r w',
    Mock.run_gemini
      (Mock.gemini_backend (Throw (Error (lit "503 Service Unavailable"))))
      "What is React?" Mock.empty = (Ok r, w')
    /\ error r = JStr (lit "503 Service Unavailable")
    /\ score r = JNum 0
    /\ sleeps (trace (snd (Mock.run
                             (Mock.gemini_backend
                                (Throw (Error (lit "503 Service Unavailable"))))
                             "What is React?" "gemini" Mock.empty))) = [].
Proof.
  destruct (@gemini_adapter_never_rejects _
              (Mock.mocked
                 (Mock.gemini_backend
                    (Throw (Error (lit "503 Service Unavailable")))))
              (lit "What is React?") (lit "gemini") None [] (lit "general")
              None None Mock.empty None)
    as (_ & Hthrow & Hpipe).
  destruct (Hthrow (Error (lit "503 Service Unavailable"))
              {| Mock.slot := None; Mock.groq_calls := 0 |} eq_refl eq_refl)
    as (r & w' & H & He & _ & Hs & _).
  destruct (Hpipe eq_refl) as (_ & Hsl & _).
  exists r, w'. split; [exact H|]. split; [exact He|].
  split; [exact Hs | exact Hsl].
Defined.

(** The delays of two runs.  A groq adapter that times out twice and then
    answers is entered 3 times, with the sleeps of 1 s and 2 s in between;
    one that times out whenever it is called, retried 5 times from 1 s,
    makes the policy sleep 1 s, 2 s, 4 s, 8 s and then the cap. *)
Lemma backoff_delays_run :
  (sleeps (trace (snd (Mock.run (Mock.groq_recovers 2 "ETIMEDOUT")
                         "What is React?" "groq" Mock.empty)))
   = [1000; 2000]%Z
   /\ count is_adapter_call
        (trace (snd (Mock.run (Mock.groq_recovers 2 "ETIMEDOUT")
                       "What is React?" "groq" Mock.empty))) = 3)
  /\ sleeps (trace (snd
       (retryWithBackoff
          (Mock.groq_attempt (Mock.groq_fails "Request timeout")
             "What is React?")
          5 1000 Mock.empty)))
     = [1000; 2000; 4000; 8000; 10000]%Z.
Proof.
  destruct (@backoff_delays_follow_schedule _
              (Mock.mocked (Mock.groq_recovers 2 "ETIMEDOUT"))
              (lit "What is React?") (lit "groq") None [] (lit "general")
              None None Mock.empty)
    as (_ & Hrun & _ & _).
  destruct (@backoff_delays_follow_schedule _
              (Mock.mocked (Mock.groq_fails "Request timeout"))
              (lit "What is React?") (lit "groq") None [] (lit "general")
              None None Mock.empty)
    as (_ & _ & _ & Hpolicy).
  split.
  - destruct (Hrun eq_refl eq_refl) as (k & Hk & _ & Hs & Hc).
    specialize (Hc (or_introl eq_refl)).
    assert (Hcount :
      count is_adapter_call
        (trace (snd (Mock.run (Mock.groq_recovers 2 "ETIMEDOUT")
                       "What is React?" "groq" Mock.empty))) = 3)
      by (vm_compute; reflexivity).
    split; [|exact Hcount].
    unfold Mock.run in Hcount. rewrite Hc in Hcount. simpl in Hcount.
    assert (k = 2) by lia. subst k. exact Hs.
  - apply (Hpolicy response
             (Mock.groq_attempt (Mock.groq_fails "Request timeout")
                "What is React?")).
    + intros w0. eexists. split; reflexivity.
    + intros w0. unfold Mock.groq_attempt. apply providerCall_no_sleep.
    + lia.
Defined.

(** When every attempt times out, the configured 3 retries sleep 1 s, 2 s
    and 4 s: the fourth attempt is the last one, and the 8 s that would
    come next is not slept. *)
Example failing_run_sleeps_1s_2s_4s :
  sleeps (trace (snd (Mock.run (Mock.groq_fails "Request timeout")
                        "What is React?" "groq" Mock.empty)))
  = [1000; 2000; 4000]%Z
  /\ count is_groq_call
       (trace (snd (Mock.run (Mock.groq_fails "Request timeout")
                      "What is React?" "groq" Mock.empty))) = 4.
Proof.
  split; vm_compute; reflexivity.
Qed.

(** C8 at the provider named "timeout": no adapter is entered and the
    error response names the provider, but the message "Unknown provider:
    timeout" reads as a transient failure, so the dispatch is attempted 4
    times, with the sleeps of 1 s, 2 s and 4 s in between. *)
Lemma unknown_provider_named_timeout_is_retried :
  exists w',
    Mock.run (Mock.groq_fails "unused") "Test question" "timeout" Mock.empty
    = (Ok (fallbackResponse (Error (lit "Unknown provider: timeout"))
             (lit "timeout") None), w')
    /\ count is_adapter_call (trace w') = 0
    /\ isRetryable (lit "Unknown provider: timeout") = true
    /\ sleeps (trace w') = [1000; 2000; 4000]%Z.
Proof.
  eexists. split; [vm_compute; reflexivity|].
  repeat split; vm_compute; reflexivity.
Qed.

(** The same request under a provider name with no such marker is dealt
    with in one attempt. *)
Lemma unknown_provider_plain_is_not_retried :
  exists w',
    Mock.run (Mock.groq_fails "unused") "Test question" "invalid-provider"
      Mock.empty
    = (Ok (fallbackResponse (Error (lit "Unknown provider: invalid-provider"))
             (lit "invalid-provider") None), w')
    /\ count is_adapter_call (trace w') = 0
    /\ sleeps (trace w') = [].
Proof.
  destruct (@unknown_provider_outcome _
              (Mock.mocked (Mock.groq_fails "unused"))
              (lit "Test question") (lit "invalid-provider") None []
              (lit "general") None None Mock.empty)
    as (w' & H & Hc & Hs); try discriminate; try reflexivity.
  exists w'. split; [exact H|]. split; [exact Hc | exact Hs].
Defined.

(* ------------------------------------------------------------------ *)
(** ** The orchestrator: what one invocation may do *)

Lemma count_zero_not_In (p : event -> bool) (l : list event) (x : event) :
  count p l = 0 -> In x l -> p x = false.
Proof.
  unfold count. induction l as [|y l IH]; simpl; [tauto|].
  destruct (p y) eqn:Py; simpl; [discriminate|].
  intros H [<- | Hin]; auto.
Qed.

Lemma total_firstn_schedule (k : nat) :
  (total (firstn k [1000; 2000; 4000]) <= 7000)%Z.
Proof.
  destruct k as [|[|[|k]]]; simpl; rewrite ?firstn_nil; unfold total;
    simpl; lia.
Qed.

Section RetryBounds.
Context {St : Type}.
Variables (A : Type) (fn : M St A).
Import AiService.

(** What one call of [fn] adds to the trace: no sleep, no cache
    operation, no rate-limit check, at most one adapter entry and one
    backend call. *)
Hypothesis fn_added : forall w, exists evs,
  trace (snd (fn w)) = trace w ++ evs
  /\ sleeps evs = []
  /\ count is_cache_op evs = 0
  /\ count is_rate_check evs = 0
  /\ count is_adapter_call evs <= 1
  /\ count is_backend_call evs <= 1.

(** What the retry policy adds to the trace around such a function. *)
Lemma retry_added (r : nat) : forall d w, exists evs k,
  trace (snd (retryWithBackoff fn r d w)) = trace w ++ evs
  /\ k <= r
  /\ sleeps evs = firstn k (schedule r d)
  /\ count is_cache_op evs = 0
  /\ count is_rate_check evs = 0
  /\ count is_adapter_call evs <= r + 1
  /\ count is_backend_call evs <= r + 1.
Proof.
  induction r as [|r IH]; intros d w;
    destruct (fn_added w) as (evs & Ht & Hs & Hc & Hr & Ha & Hb);
    destruct (fn w) as [[a|e] w1] eqn:E; simpl in Ht.
  - erewrite retry_ok by exact E. exists evs, 0. simpl.
    repeat split; auto; lia.
  - erewrite retry_stop by (try left; eauto). exists evs, 0. simpl.
    repeat split; auto; lia.
  - erewrite retry_ok by exact E. exists evs, 0. simpl.
    repeat split; auto; lia.
  - destruct (isRetryable (message e)) eqn:R.
    + erewrite retry_again by eassumption.
      destruct (IH (nextDelay d) (slept d w1))
        as (evs' & k & Ht' & Hk & Hs' & Hc' & Hr' & Ha' & Hb').
      exists (evs ++ Sleep d :: evs'), (Datatypes.S k).
      rewrite Ht'. unfold slept; simpl. rewrite Ht.
      rewrite <- !app_assoc. simpl.
      rewrite sleeps_app, !count_app, Hs. simpl. rewrite Hs'.
      unfold count in *. simpl.
      repeat split; auto; lia.
    + erewrite retry_stop by (try right; eauto). exists evs, 0. simpl.
      repeat split; auto; lia.
Qed.

End RetryBounds.

Section PipelineBounds.
Context {St : Type} {Svc : Services St}.
Import AiService GeminiService.

Variables (question provider : jsstring) (model : option jsstring).
Variables (history : list turn) (roleType : jsstring).
Variables (ctx : option context) (persona : option jsstring).

Let fn : M St response :=
  providerCall question provider model history roleType ctx persona.

Let generate : M St response :=
  generateInterviewResponse question provider model history roleType ctx
    persona.

Lemma providerCall_added (w : world St) : exists evs,
  trace (snd (fn w)) = trace w ++ evs
  /\ sleeps evs = []
  /\ count is_cache_op evs = 0
  /\ count is_rate_check evs = 0
  /\ count is_adapter_call evs <= 1
  /\ count is_backend_call evs <= 1.
Proof.
  unfold fn.
  destruct (jsstring_eqb provider (lit "groq")) eqn:G1.
  - apply jsstring_eqb_eq in G1. rewrite providerCall_groq by assumption.
    simpl. eexists; split; [reflexivity|]. unfold count; simpl.
    repeat split; auto.
  - destruct (jsstring_eqb provider (lit "gemini")) eqn:G2.
    + apply jsstring_eqb_eq in G2. rewrite providerCall_gemini by assumption.
      edestruct gemini_trace as (evs & -> & [-> | ->]);
        (eexists; split; [reflexivity|]); unfold count; simpl;
        repeat split; auto.
    + apply jsstring_eqb_neq in G1, G2.
      rewrite providerCall_unknown by assumption.
      exists []. simpl. rewrite app_nil_r. unfold count; simpl.
      repeat split; auto.
Qed.

(** The shape of every run: the events one invocation adds, by stage. *)
Lemma generate_added (w : world St) :
  (allowed (rate_check provider w) = false /\
   trace (snd (generate w)) = trace w ++ [RateLimitCheck provider])
  \/ (allowed (rate_check provider w) = true /\
      (exists cached,
          cache_lookup question provider model persona w = Some cached) /\
      trace (snd (generate w))
      = trace w ++ [RateLimitCheck provider;
                    CacheGet question provider model persona])
  \/ (allowed (rate_check provider w) = true /\
      cache_lookup question provider model persona w = None /\
      exists evs k,
        k <= 3
        /\ sleeps evs = firstn k [1000; 2000; 4000]%Z
        /\ count is_cache_op evs = 0
        /\ count is_rate_check evs = 0
        /\ count is_adapter_call evs <= 4
        /\ count is_backend_call evs <= 4
        /\ trace (snd (generate w))
           = trace w
             ++ RateLimitCheck provider
                :: (if isCacheable question
                    then [CacheGet question provider model persona]
                    else [])
             ++ evs
             ++ match fst (retryWithBackoff fn (maxRetries RETRY_CONFIG)
                             (initialDelay RETRY_CONFIG)
                             (after_cache_check question provider model
                                persona w)) with
                | Ok r =>
                    if isCacheable question
                    then [CacheSet question r provider model persona]
                    else []
                | Throw _ => []
                end).
Proof.
  unfold generate.
  destruct (allowed (rate_check provider w)) eqn:R.
  - destruct (cache_lookup question provider model persona w)
      as [cached|] eqn:C.
    + right; left. split; [reflexivity|]. split; [eauto|].
      rewrite (generate_cache_hit _ _ _ _ _ _ _ _ R C).
      unfold after_cache_check, cache_lookup in *.
      destruct (isCacheable question); [|discriminate]. simpl.
      rewrite <- app_assoc. reflexivity.
    + right; right. split; [reflexivity|]. split; [reflexivity|].
      rewrite (generate_calls _ _ _ _ _ _ _ _ R C).
      destruct (@retry_added St response fn providerCall_added
                  (maxRetries RETRY_CONFIG)
                  (initialDelay RETRY_CONFIG)
                  (after_cache_check question provider model persona w))
        as (evs & k & Ht & Hk & Hs & Hc & Hr & Ha & Hb).
      exists evs, k. repeat split; try assumption.
      fold fn in Ht |- *.
      destruct (retryWithBackoff fn _ _ _) as [[r|e] w'] eqn:E;
        simpl in Ht |- *; unfold cache_written, after_cache_check,
        after_rate_check in *;
        destruct (isCacheable question); simpl in *; rewrite Ht;
        rewrite <- ?app_assoc; simpl; rewrite ?app_nil_r; reflexivity.
  - left. split; [reflexivity|].
    rewrite (generate_rejected _ _ _ _ _ _ _ _ R). reflexivity.
Qed.

End PipelineBounds.

Lemma count_le_of_imp (p q : event -> bool) (l : list event) :
  (forall x, p x = true -> q x = true) -> count p l <= count q l.
Proof.
  intros H. unfold count. induction l as [|x l IH]; simpl; [lia|].
  destruct (p x) eqn:Px.
  - rewrite (H x Px). simpl. lia.
  - destruct (q x); simpl; lia.
Qed.

Lemma count_cons (p : event -> bool) (x : event) (l : list event) :
  count p (x :: l) = (if p x then 1 else 0) + count p l.
Proof. unfold count. simpl. destruct (p x); reflexivity. Qed.

Lemma cache_lookup_is_cache_op (x : event) :
  is_cache_lookup x = true -> is_cache_op x = true.
Proof. destruct x; simpl; auto. Qed.

Lemma cache_write_is_cache_op (x : event) :
  is_cache_write x = true -> is_cache_op x = true.
Proof. destruct x; simpl; auto. Qed.

Section PipelineProperties.
Context {St : Type} {Svc : Services St}.
Import AiService GeminiService.

Variables (question provider : jsstring) (model : option jsstring).
Variables (history : list turn) (roleType : jsstring).
Variables (ctx : option context) (persona : option jsstring).

Let fn : M St response :=
  providerCall question provider model history roleType ctx persona.

Let generate : M St response :=
  generateInterviewResponse question provider model history roleType ctx
    persona.

(** X1.  For a question that is not cacheable, an invocation neither looks
    up nor writes the cache, however it ends. *)
Theorem non_cacheable_question_skips_cache (w : world St) :
  isCacheable question = false ->
  count is_cache_op (trace (snd (generate w)))
  = count is_cache_op (trace w).
Proof.
  intros Q.
  destruct (generate_added question provider model history roleType ctx
              persona w)
    as [[_ Ht] | [(_ & (cached & C) & _) | (_ & _ & evs & k & _ & _ & Hc & _ & _
                                            & _ & Ht)]].
  - unfold generate. rewrite Ht, count_app. unfold count; simpl. lia.
  - unfold cache_lookup in C. rewrite Q in C. discriminate.
  - unfold generate. rewrite Ht, Q.
    destruct (fst (retryWithBackoff _ _ _ _));
      rewrite count_app, count_cons, !count_app, Hc;
      unfold count; simpl; lia.
Qed.

(** X2.  An invocation writes the cache at most once, and what it writes
    is the response it returns, under the question, provider, model and
    persona it was given, after the retried provider call has returned
    that response.  So the error response of a rate-limit rejection or of
    a provider call that ended in an exception is never cached. *)
Theorem cache_write_is_the_returned_success (w : world St) :
  exists evs,
    trace (snd (generate w)) = trace w ++ evs
    /\ count is_cache_write evs <= 1
    /\ (forall q' r' p' m' cp',
           In (CacheSet q' r' p' m' cp') evs ->
           (q', p', m', cp') = (question, provider, model, persona)
           /\ isCacheable question = true
           /\ fst (generate w) = Ok r'
           /\ fst (retryWithBackoff fn (maxRetries RETRY_CONFIG)
                     (initialDelay RETRY_CONFIG)
                     (after_cache_check question provider model persona w))
              = Ok r')
    /\ (allowed (rate_check provider w) = false ->
        count is_cache_write evs = 0)
    /\ (forall e,
           fst (retryWithBackoff fn (maxRetries RETRY_CONFIG)
                  (initialDelay RETRY_CONFIG)
                  (after_cache_check question provider model persona w))
           = Throw e ->
           count is_cache_write evs = 0).
Proof.
  destruct (generate_added question provider model history roleType ctx
              persona w)
    as [[R Ht] | [(R & (cached & C) & Ht)
                 | (R & C & evs & k & _ & _ & Hc & _ & _ & _ & Ht)]].
  - eexists. split; [exact Ht|]. unfold count; simpl.
    split; [lia|]. split; [|split; reflexivity].
    intros q' r' p' m' cp' [H|[]]. discriminate H.
  - eexists. split; [exact Ht|]. unfold count; simpl.
    split; [lia|]. split; [|split; reflexivity].
    intros q' r' p' m' cp' [H|[H|[]]]; discriminate H.
  - eexists. split; [exact Ht|].
    assert (W0 : count is_cache_write evs = 0).
    { pose proof (count_le_of_imp is_cache_write is_cache_op evs
                    cache_write_is_cache_op). lia. }
    fold fn in Ht |- *.
    pose proof (generate_calls question provider model history roleType ctx
                  persona w R C) as G. fold fn in G. fold generate in G.
    destruct (retryWithBackoff fn _ _ _) as [[r|e] w'] eqn:E;
      cbn [fst snd] in *.
    + split.
      { rewrite count_cons, !count_app, W0.
        destruct (isCacheable question); unfold count; simpl; lia. }
      split; [|split; [congruence | intros e He; discriminate He]].
      intros q' r' p' m' cp' [H|H]; [discriminate H|].
      apply in_app_or in H. destruct H as [H|H].
      { destruct (isCacheable question); simpl in H;
          [destruct H as [H|[]]; discriminate H | destruct H]. }
      apply in_app_or in H. destruct H as [H|H].
      { apply (count_zero_not_In is_cache_op _ _ Hc) in H. discriminate H. }
      destruct (isCacheable question) eqn:Q; [|destruct H].
      destruct H as [H|[]]. inversion H; subst.
      rewrite G. repeat split; reflexivity.
    + split.
      { rewrite count_cons, !count_app, W0.
        destruct (isCacheable question); unfold count; simpl; lia. }
      split; [|split; [congruence|]].
      * intros q' r' p' m' cp' [H|H]; [discriminate H|].
        apply in_app_or in H. destruct H as [H|H].
        { destruct (isCacheable question); simpl in H;
            [destruct H as [H|[]]; discriminate H | destruct H]. }
        rewrite app_nil_r in H.
        apply (count_zero_not_In is_cache_op _ _ Hc) in H. discriminate H.
      * intros e' _. rewrite count_cons, !count_app, W0.
        destruct (isCacheable question); unfold count; simpl; lia.
Qed.

End PipelineProperties.

(** A question [isCacheable] refuses, on a cache that holds an entry: groq
    is asked and the cache is neither read nor written. *)
Lemma non_cacheable_question_skips_cache_run :
  isCacheable (Services := Mock.mocked MockFresh.not_cacheable)
    (lit "What happened today?") = false
  /\ count is_cache_op
       (trace (snd (Mock.run MockFresh.not_cacheable "What happened today?"
                      "groq" (Mock.holding (Mock.plain "Stale answer")))))
     = 0.
Proof.
  split; [reflexivity|].
  exact (@non_cacheable_question_skips_cache _
           (Mock.mocked MockFresh.not_cacheable)
           (lit "What happened today?") (lit "groq") None [] (lit "general")
           None None (Mock.holding (Mock.plain "Stale answer")) eq_refl).
Defined.

Section PipelineLimits.
Context {St : Type} {Svc : Services St}.
Import AiService GeminiService.

Variables (question provider : jsstring) (model : option jsstring).
Variables (history : list turn) (roleType : jsstring).
Variables (ctx : option context) (persona : option jsstring).

(** X3.  Every invocation starts with the rate-limit check and makes it
    once; after it come at most one cache lookup, at most 4 adapter entries
    and 4 backend calls, at most one cache write, and at most 3 sleeps
    that add up to at most 7 seconds. *)
Theorem invocation_is_bounded (w : world St) :
  exists rest,
    trace (snd (generateInterviewResponse question provider model history
                  roleType ctx persona w))
    = trace w ++ RateLimitCheck provider :: rest
    /\ count is_rate_check rest = 0
    /\ count is_cache_lookup rest <= 1
    /\ count is_adapter_call rest <= 4
    /\ count is_backend_call rest <= 4
    /\ count is_cache_write rest <= 1
    /\ List.length (sleeps rest) <= 3
    /\ (total (sleeps rest) <= 7000)%Z.
Proof.
  destruct (generate_added question provider model history roleType ctx
              persona w)
    as [[_ Ht] | [(_ & _ & Ht)
                 | (_ & _ & evs & k & Hk & Hs & Hc & Hr & Ha & Hb & Ht)]].
  - exists []. split; [exact Ht|]. unfold count, total; simpl.
    repeat split; lia.
  - eexists. split; [exact Ht|]. unfold count, total; simpl.
    repeat split; lia.
  - eexists. split; [exact Ht|].
    pose proof (count_le_of_imp is_cache_lookup is_cache_op evs
                  cache_lookup_is_cache_op) as L1.
    pose proof (count_le_of_imp is_cache_write is_cache_op evs
                  cache_write_is_cache_op) as L2.
    pose proof (total_firstn_schedule k) as T.
    assert (Hl : List.length (firstn k [1000; 2000; 4000]%Z) <= 3).
    { rewrite length_firstn. simpl. lia. }
    rewrite !count_app, !sleeps_app, Hs.
    destruct (fst (retryWithBackoff _ _ _ _)), (isCacheable question);
      unfold count in *; simpl; rewrite ?app_nil_r; repeat split; lia.
Qed.

End PipelineLimits.

Section RetryRecovery.
Context {St : Type}.
Import AiService.

(** X4.  When the function fails [k] times in a row with transient errors
    and then returns, and [k] is at most the number of retries, the policy
    returns that value in the world the successful attempt left; if the
    function never sleeps itself, the sleeps made are the [k] delays of the
    schedule. *)
Theorem retry_recovers A (fn : M St A) (k r : nat) :
  forall (d : Z) (w : world St) (a : A) (w' : world St),
    k <= r ->
    recovers fn k d w a w' ->
    retryWithBackoff fn r d w = (Ok a, w')
    /\ ((forall w0, sleeps (trace (snd (fn w0))) = sleeps (trace w0)) ->
        sleeps (trace w') = sleeps (trace w) ++ schedule k d).
Proof.
  revert r. induction k as [|k IH]; intros r d w a w' Hk H; simpl in H.
  - split; [apply retry_ok; exact H|].
    intros Hfn. rewrite <- (Hfn w), H. simpl. rewrite app_nil_r. reflexivity.
  - destruct H as (e & w1 & E & T & H).
    destruct r as [|r]; [lia|].
    destruct (IH r (nextDelay d) (slept d w1) a w') as [Hr Hs];
      [lia | exact H |].
    split.
    + erewrite retry_again by eassumption. exact Hr.
    + intros Hfn. rewrite (Hs Hfn). unfold slept; simpl.
      rewrite sleeps_app, <- (Hfn w), E. simpl.
      rewrite <- app_assoc. reflexivity.
Qed.

(** The delays of the schedule: capped, and from a start within the cap in
    range and never decreasing. *)
Lemma schedule_bounds (r : nat) (d : Z) :
  Forall (fun ms => ms <= maxDelay RETRY_CONFIG)%Z (tl (schedule r d))
  /\ ((0 <= d <= maxDelay RETRY_CONFIG)%Z ->
      Forall (fun ms => d <= ms <= maxDelay RETRY_CONFIG)%Z (schedule r d)
      /\ forall i j, i <= j -> j < r ->
           (nth i (schedule r d) 0 <= nth j (schedule r d) 0)%Z).
Proof.
  change (maxDelay RETRY_CONFIG) with 10000%Z.
  assert (Cap : forall d0, (nextDelay d0 <= 10000)%Z).
  { intros d0. unfold nextDelay. apply Z.le_min_r. }
  assert (Up : forall d0, (0 <= d0 <= 10000)%Z ->
                          (d0 <= nextDelay d0 <= 10000)%Z).
  { intros d0 H. unfold nextDelay. simpl. lia. }
  assert (In_range : forall r0 d0,
             (0 <= d0 <= 10000)%Z ->
             Forall (fun ms => d0 <= ms <= 10000)%Z (schedule r0 d0)).
  { induction r0 as [|r0 IH]; intros d0 H; simpl; [constructor|].
    constructor; [lia|].
    pose proof (Up d0 H) as U.
    eapply Forall_impl; [|apply IH; lia]. simpl. intros ms Hms. lia. }
  split.
  - destruct r as [|r]; simpl; [constructor|].
    clear Up In_range. revert d. induction r as [|r IH]; intros d; simpl;
      [constructor|]. constructor; [apply Cap | apply IH].
  - intros H. split; [apply In_range; exact H|].
    revert d H. induction r as [|r IH]; intros d H i j Hij Hj; [lia|].
    pose proof (Up d H) as U.
    destruct i as [|i]; destruct j as [|j]; simpl; try lia.
    + pose proof (In_range r (nextDelay d) ltac:(lia)) as F.
      rewrite Forall_forall in F.
      specialize (F (nth j (schedule r (nextDelay d)) 0%Z)).
      assert (Hlen : List.length (schedule r (nextDelay d)) = r).
      { clear. revert d. induction r as [|r IH]; intros d; simpl;
          [reflexivity | rewrite IH; reflexivity]. }
      assert (Hin : In (nth j (schedule r (nextDelay d)) 0%Z)
                      (schedule r (nextDelay d))).
      { apply nth_In. rewrite Hlen. lia. }
      specialize (F Hin). lia.
    + apply IH; lia.
Qed.

Lemma schedule_length (r : nat) (d : Z) : List.length (schedule r d) = r.
Proof.
  revert d. induction r as [|r IH]; intros d; simpl;
    [reflexivity | rewrite IH; reflexivity].
Qed.

(** The schedule of fewer retries is a prefix of the schedule of more. *)
Lemma schedule_firstn (k r : nat) (d : Z) :
  k <= r -> firstn k (schedule r d) = schedule k d.
Proof.
  revert r d. induction k as [|k IH]; intros r d H; [reflexivity|].
  destruct r as [|r]; [lia|]. simpl. rewrite IH by lia. reflexivity.
Qed.

(** Each delay of the schedule is the double of the one before, capped. *)
Lemma schedule_step (r : nat) (d : Z) (i : nat) (x y : Z) :
  nth_error (schedule r d) i = Some x ->
  nth_error (schedule r d) (Datatypes.S i) = Some y ->
  y = Z.min (x * 2) 10000.
Proof.
  revert d i. induction r as [|r IH]; intros d i Hx Hy;
    [destruct i; discriminate|].
  destruct i as [|i]; simpl in Hx, Hy.
  - inversion Hx; subst x. destruct r as [|r]; [discriminate|].
    simpl in Hy. inversion Hy. reflexivity.
  - exact (IH _ _ Hx Hy).
Qed.

(** X5.  The delays [retryWithBackoff] sleeps, for any function that does
    not sleep itself, any number of retries and any first delay: there are
    at most as many as retries; the first is the delay given; each later
    one is the double of the one before, capped at 10 s, so none of them
    exceeds 10 s; and from a first delay between 0 and 10 s they never
    decrease and all stay between that delay and 10 s. *)
Theorem retry_delays_are_capped A (fn : M St A) (r : nat) (d : Z)
    (w : world St) :
  (forall w0, sleeps (trace (snd (fn w0))) = sleeps (trace w0)) ->
  exists delays,
    sleeps (trace (snd (retryWithBackoff fn r d w)))
    = sleeps (trace w) ++ delays
    /\ List.length delays <= r
    /\ (forall first rest, delays = first :: rest -> first = d)
    /\ (forall i x y,
           nth_error delays i = Some x ->
           nth_error delays (Datatypes.S i) = Some y ->
           y = Z.min (x * 2) 10000)
    /\ Forall (fun ms => ms <= 10000)%Z (tl delays)
    /\ ((0 <= d <= 10000)%Z ->
        Forall (fun ms => d <= ms <= 10000)%Z delays
        /\ forall i j x y,
             i <= j ->
             nth_error delays i = Some x ->
             nth_error delays j = Some y ->
             (x <= y)%Z).
Proof.
  intros Hfn.
  destruct (retry_sleeps_prefix fn Hfn r d w) as (k & Hk & Hs).
  rewrite schedule_firstn in Hs by exact Hk.
  exists (schedule k d). split; [exact Hs|].
  destruct (schedule_bounds k d) as [Cap Range].
  split; [rewrite schedule_length; exact Hk|].
  split.
  { intros first rest E. destruct k; simpl in E; [discriminate|].
    inversion E. reflexivity. }
  split; [apply schedule_step|].
  split; [exact Cap|].
  intros Hd. destruct (Range Hd) as [In_range Mono].
  split; [exact In_range|].
  intros i j x y Hij Hx Hy.
  assert (Hj : j < k).
  { rewrite <- (schedule_length k d). apply nth_error_Some.
    rewrite Hy. discriminate. }
  rewrite <- (nth_error_nth _ _ 0%Z Hx), <- (nth_error_nth _ _ 0%Z Hy).
  apply Mono; assumption.
Qed.

End RetryRecovery.

(** A groq adapter that times out twice and then answers: the answer is
    returned after the sleeps of 1 s and 2 s. *)
Lemma retry_recovers_run :
  exists r w',
    retryWithBackoff
      (Mock.groq_attempt (Mock.groq_recovers 2 "ETIMEDOUT") "What is React?")
      3 1000 Mock.empty = (Ok r, w')
    /\ answer r = JStr (lit "Recovered answer")
    /\ sleeps (trace w') = [1000; 2000]%Z.
Proof.
  pose (fn := Mock.groq_attempt (Mock.groq_recovers 2 "ETIMEDOUT")
                "What is React?").
  eassert (H : recovers fn 2 1000 Mock.empty _ _).
  { simpl. do 2 eexists. split; [reflexivity|]. split; [reflexivity|].
    do 2 eexists. split; [reflexivity|]. split; [reflexivity|].
    reflexivity. }
  destruct (@retry_recovers _ _ fn 2 3 1000%Z Mock.empty _ _
              ltac:(lia) H) as [Hr Hs].
  do 2 eexists. split; [exact Hr|]. split; [reflexivity|].
  rewrite Hs; [reflexivity|].
  intros w0. unfold fn, Mock.groq_attempt. apply providerCall_no_sleep.
Defined.

(** A groq adapter that times out whenever it is called, retried 5 times
    from 1 s: the policy sleeps 1 s, 2 s, 4 s, 8 s and then the cap. *)
Lemma retry_delays_are_capped_run :
  sleeps (trace (snd
    (retryWithBackoff
       (Mock.groq_attempt (Mock.groq_fails "Request timeout")
          "What is React?")
       5 1000 Mock.empty)))
  = [1000; 2000; 4000; 8000; 10000]%Z
  /\ Forall (fun ms => 1000 <= ms <= 10000)%Z
       (sleeps (trace (snd
          (retryWithBackoff
             (Mock.groq_attempt (Mock.groq_fails "Request timeout")
                "What is React?")
             5 1000 Mock.empty)))).
Proof.
  split; [vm_compute; reflexivity|].
  destruct (@retry_delays_are_capped _ _
              (Mock.groq_attempt (Mock.groq_fails "Request timeout")
                 "What is React?")
              5 1000%Z Mock.empty)
    as (delays & Hs & _ & _ & _ & _ & Hr).
  { intros w0. unfold Mock.groq_attempt. apply providerCall_no_sleep. }
  rewrite Hs. destruct Hr as [Hr _]; [lia | exact Hr].
Defined.

(* ------------------------------------------------------------------ *)
(** ** The Gemini adapter: shape of the response and of the prompt *)

Lemma isArray_arrayOrEmpty (v : jsval) :
  isArray (GeminiService.arrayOrEmpty v) = true.
Proof. unfold GeminiService.arrayOrEmpty. destruct v; reflexivity. Qed.

Section GeminiProperties.
Context {St : Type} {Svc : Services St}.
Import GeminiService.

Variables (question : jsstring) (gmodel : option jsstring).
Variables (history : list turn) (roleType : jsstring).
Variables (ctx : option context) (persona : option jsstring).

Let respond : M St response :=
  generateGeminiResponse question gmodel history roleType ctx persona.

(** X6.  Whatever the backend does and whatever it replies, the response
    of [generateGeminiResponse] has arrays in [experience_mentioned],
    [key_technologies] and [follow_up_topics], provider gemini, the model
    that was asked for, and a truthy [answer] and [next_question]; and it
    is either an answer with score 85 and no [error], or the apology with
    score 0 and an [error] message. *)
Theorem gemini_response_is_well_shaped (w : world St) :
  exists r w',
    respond w = (Ok r, w')
    /\ isArray (experience_mentioned r) = true
    /\ isArray (key_technologies r) = true
    /\ isArray (follow_up_topics r) = true
    /\ provider_of r = JStr (lit "gemini")
    /\ model_of r = JStr (modelOrDefault gmodel)
    /\ truthy (answer r) = true
    /\ truthy (next_question r) = true
    /\ ((score r = JNum 85 /\ error r = JUndefined /\ weaknesses r = JArr [])
        \/ (score r = JNum 0 /\ (exists msg, error r = JStr msg)
            /\ r = errorResponse
                     (match error r with
                      | JStr msg => Error msg
                      | _ => Error []
                      end) (modelOrDefault gmodel))).
Proof.
  unfold respond.
  destruct genAI eqn:G.
  - destruct (generateContent (modelOrDefault gmodel)
                (fullPrompt question history roleType ctx persona)
                (services w)) as [[text|e] s'] eqn:B.
    + erewrite gemini_backend_replies by eassumption.
      do 2 eexists. split; [reflexivity|].
      unfold validatedResponse, field. run_monad.
      destruct (parseResponse text); simpl;
        rewrite ?isArray_arrayOrEmpty, ?js_or_truthy by reflexivity;
        repeat split; try reflexivity;
        try (left; repeat split; reflexivity);
        try (right; split; [reflexivity|]; split; [eauto | reflexivity]).
    + erewrite gemini_backend_throws by eassumption.
      do 2 eexists. split; [reflexivity|]. simpl.
      repeat split; try reflexivity.
      right. split; [reflexivity|]. split; [eauto|].
      destruct e; reflexivity.
  - rewrite gemini_uninitialized by assumption.
    do 2 eexists. split; [reflexivity|]. simpl.
    repeat split; try reflexivity.
    right. split; [reflexivity|]. split; [eauto | reflexivity].
Qed.

(** X7.  A reply that parses to an object with a non-empty string
    [answer] and three arrays is passed through: these four fields come
    back as they are, [strengths] is the experience array, [suggestion] is
    the answer, [next_question] is the first follow-up topic when there is
    a truthy one, and there is no [error]. *)
Theorem gemini_well_formed_reply_passes_through (w : world St)
    (text : jsstring) (s' : St) (props : list (jsstring * jsval))
    (c : codeunit) (s : jsstring) (a1 a2 a3 : list jsval) :
  genAI = true ->
  generateContent (modelOrDefault gmodel)
    (fullPrompt question history roleType ctx persona) (services w)
  = (Ok text, s') ->
  JSON_parse (cleanedText text) = Some (JObj props) ->
  lookup (lit "answer") props = JStr (c :: s) ->
  lookup (lit "experience_mentioned") props = JArr a1 ->
  lookup (lit "key_technologies") props = JArr a2 ->
  lookup (lit "follow_up_topics") props = JArr a3 ->
  exists r w',
    respond w = (Ok r, w')
    /\ answer r = JStr (c :: s)
    /\ experience_mentioned r = JArr a1
    /\ key_technologies r = JArr a2
    /\ follow_up_topics r = JArr a3
    /\ strengths r = JArr a1
    /\ suggestion r = JStr (c :: s)
    /\ next_question r =
       js_or (hd JUndefined a3)
         (JStr (lit "Tell me more about your experience."))
    /\ score r = JNum 85
    /\ error r = JUndefined.
Proof.
  intros G B P Ha H1 H2 H3. unfold respond.
  erewrite gemini_backend_replies by eassumption.
  do 2 eexists. split; [reflexivity|].
  unfold parseResponse. rewrite P.
  unfold validatedResponse, field, get_field. run_monad.
  rewrite Ha, H1, H2, H3. simpl.
  repeat split; reflexivity.
Qed.

(** X8.  A reply that parses to [null] ends in the apology, with the
    [TypeError] of reading [answer] off [null] as its [error], although the
    backend did reply.  A reply that parses to a boolean, a number, a
    string or an array ends in the stock answer with empty arrays and no
    [error]. *)
Theorem gemini_reply_that_is_no_object (w : world St) (text : jsstring)
    (s' : St) (v : jsval) :
  genAI = true ->
  generateContent (modelOrDefault gmodel)
    (fullPrompt question history roleType ctx persona) (services w)
  = (Ok text, s') ->
  JSON_parse (cleanedText text) = Some v ->
  exists r w',
    respond w = (Ok r, w')
    /\ (v = JNull ->
        r = errorResponse
              (TypeError (lit "Cannot read properties of null (reading 'answer')"))
              (modelOrDefault gmodel))
    /\ (non_object v = true ->
        answer r =
        JStr (lit "I have several years of hands-on experience with this...")
        /\ experience_mentioned r = JArr []
        /\ key_technologies r = JArr []
        /\ follow_up_topics r = JArr []
        /\ strengths r = JArr [JStr (lit "Demonstrated experience")]
        /\ next_question r = JStr (lit "Tell me more about your experience.")
        /\ error r = JUndefined).
Proof.
  intros G B P. unfold respond.
  erewrite gemini_backend_replies by eassumption.
  do 2 eexists. split; [reflexivity|].
  unfold parseResponse. rewrite P.
  unfold validatedResponse, field. run_monad.
  split.
  - intros ->. reflexivity.
  - destruct v; simpl; intros N; try discriminate N;
      repeat split; reflexivity.
Qed.

End GeminiProperties.

(** A reply of the requested shape, as the adapter hands it on. *)
Lemma gemini_well_formed_reply_run :
  exists r w',
    Mock.run_gemini
      (MockJson.replying "{ the requested JSON }" (Some MockJson.well_formed))
      "What is React?" Mock.empty = (Ok r, w')
    /\ answer r = JStr (lit "I led the migration to React.")
    /\ key_technologies r = JArr [JStr (lit "React"); JStr (lit "Redux")]
    /\ next_question r = JStr (lit "State management")
    /\ error r = JUndefined.
Proof.
  destruct (@gemini_well_formed_reply_passes_through _
              (Mock.mocked
                 (MockJson.replying "{ the requested JSON }"
                    (Some MockJson.well_formed)))
              (lit "What is React?") None [] (lit "general") None None
              Mock.empty (lit "{ the requested JSON }")
              {| Mock.slot := None; Mock.groq_calls := 0 |}
              _ _ _ _ _ _
              eq_refl eq_refl eq_refl eq_refl eq_refl eq_refl eq_refl)
    as (r & w' & H & Ha & _ & Hk & _ & _ & _ & Hn & _ & He).
  exists r, w'. split; [exact H|]. split; [exact Ha|]. split; [exact Hk|].
  split; [exact Hn | exact He].
Defined.

(** The reply [null]. *)
Lemma gemini_reply_null_run :
  exists r w',
    Mock.run_gemini (Mock.gemini_backend (Ok (lit "null")))
      "What is React?" Mock.empty = (Ok r, w')
    /\ error r =
       JStr (lit "Cannot read properties of null (reading 'answer')")
    /\ score r = JNum 0.
Proof.
  destruct (@gemini_reply_that_is_no_object _
              (Mock.mocked (Mock.gemini_backend (Ok (lit "null"))))
              (lit "What is React?") None [] (lit "general") None None
              Mock.empty (lit "null")
              {| Mock.slot := None; Mock.groq_calls := 0 |} JNull
              eq_refl eq_refl eq_refl)
    as (r & w' & H & Hnull & _).
  exists r, w'. split; [exact H|]. rewrite (Hnull eq_refl).
  split; reflexivity.
Defined.

(* ------------------------------------------------------------------ *)
(** ** The prompt and the cleaning of the reply *)

Lemma startsWith_app (p s : jsstring) : startsWith (p ++ s) p = true.
Proof.
  induction p as [|x p IH]; simpl; [destruct s; reflexivity|].
  unfold codeunit_eqb. rewrite N.eqb_refl. exact IH.
Qed.

Lemma includes_startsWith (s p : jsstring) :
  startsWith s p = true -> includes s p = true.
Proof. intros H. destruct s; cbn [includes]; rewrite H; reflexivity. Qed.

Lemma includes_app_r (a s p : jsstring) :
  includes s p = true -> includes (a ++ s) p = true.
Proof.
  intros H. induction a as [|x a IH]; [exact H|].
  cbn [app includes]. rewrite IH. apply orb_true_r.
Qed.

Lemma includes_middle (a s b : jsstring) : includes (a ++ s ++ b) s = true.
Proof. apply includes_app_r, includes_startsWith, startsWith_app. Qed.

Lemma slice_last_app A (old h : list A) (n : nat) :
  n <= List.length h -> slice_last n (old ++ h) = slice_last n h.
Proof.
  intros H. unfold slice_last. rewrite length_app, skipn_app.
  rewrite skipn_all2 by lia. simpl. f_equal. lia.
Qed.

Section PromptProperties.
Import GeminiService.

Variables (question roleType : jsstring) (history : list turn).
Variables (ctx : option context).

(** X9.  Only the last ten turns of the conversation reach the prompt:
    turns older than the last ten leave it unchanged. *)
Theorem prompt_keeps_last_ten_turns (older : list turn)
    (persona : option jsstring) :
  10 <= List.length history ->
  fullPrompt question (older ++ history) roleType ctx persona
  = fullPrompt question history roleType ctx persona.
Proof.
  intros H. unfold fullPrompt, historyString.
  rewrite slice_last_app by exact H.
  destruct history as [|t h]; [simpl in H; lia|].
  destruct older; reflexivity.
Qed.

(** X10.  A non-empty persona takes the place of the system prompt and of
    the role block: the prompt starts with the persona and does not depend
    on the role type.  An empty persona counts as none. *)
Theorem persona_replaces_system_prompt (c : codeunit) (p : jsstring)
    (otherRole : jsstring) :
  startsWith (fullPrompt question history roleType ctx (Some (c :: p)))
    (c :: p) = true
  /\ fullPrompt question history roleType ctx (Some (c :: p))
     = fullPrompt question history otherRole ctx (Some (c :: p))
  /\ fullPrompt question history roleType ctx (Some [])
     = fullPrompt question history roleType ctx None
  /\ startsWith (fullPrompt question history roleType ctx None)
       SYSTEM_PROMPT = true.
Proof.
  split; [|split; [|split]].
  - unfold fullPrompt. cbn [or_string]. apply startsWith_app.
  - reflexivity.
  - reflexivity.
  - unfold fullPrompt. cbn [or_string]. apply startsWith_app.
Qed.

(** X11.  The prompt always contains the question, and the resume when the
    context has a non-empty one. *)
Theorem prompt_contains_question (persona : option jsstring) :
  includes (fullPrompt question history roleType ctx persona) question = true
  /\ (forall c x xs,
         ctx = Some c -> resume c = Some (x :: xs) ->
         includes (fullPrompt question history roleType ctx persona)
           (x :: xs) = true).
Proof.
  split.
  - unfold fullPrompt. do 14 apply includes_app_r.
    apply includes_startsWith, startsWith_app.
  - intros c x xs -> R. unfold fullPrompt, contextString. rewrite R.
    cbn [falsy_string show_string]. do 6 apply includes_app_r.
    rewrite <- !app_assoc. do 4 apply includes_app_r.
    apply includes_startsWith, startsWith_app.
Qed.

End PromptProperties.

(** Twelve turns: the two oldest do not reach the prompt. *)
Lemma prompt_keeps_last_ten_turns_run :
  fullPrompt (lit "What is React?")
    ([ {| role := lit "user"; content := lit "first" |};
       {| role := lit "assistant"; content := lit "second" |} ]
     ++ repeat {| role := lit "user"; content := lit "later" |} 10)
    (lit "general") None None
  = fullPrompt (lit "What is React?")
      (repeat {| role := lit "user"; content := lit "later" |} 10)
      (lit "general") None None.
Proof.
  apply (@prompt_keeps_last_ten_turns (lit "What is React?") (lit "general")
           (repeat {| role := lit "user"; content := lit "later" |} 10) None
           [ {| role := lit "user"; content := lit "first" |};
             {| role := lit "assistant"; content := lit "second" |} ] None).
  simpl. lia.
Defined.

Lemma trimStart_app (s t : jsstring) :
  trimStart (s ++ t) =
  match trimStart s with
  | [] => trimStart t
  | _ :: _ => trimStart s ++ t
  end.
Proof.
  induction s as [|c s IH]; simpl; [reflexivity|].
  destruct (is_whitespace c); [exact IH | reflexivity].
Qed.

(** A trailing line feed does not survive [trim]. *)
Lemma trim_line_feed (s : jsstring) : trim (s ++ [10%N]) = trim s.
Proof.
  unfold trim. rewrite trimStart_app.
  destruct (trimStart s) as [|c u]; [reflexivity|].
  rewrite rev_app_distr. reflexivity.
Qed.

(** Text without a backtick passes a fence removal unchanged. *)
Lemma remove_all_from_plain (pat s t : jsstring) :
  ~ In 96%N s ->
  remove_all_from (96%N :: pat) 0 (s ++ t)
  = s ++ remove_all_from (96%N :: pat) 0 t.
Proof.
  induction s as [|c s IH]; intros N; [reflexivity|].
  cbn [app remove_all_from startsWith].
  assert (E : codeunit_eqb 96%N c = false).
  { unfold codeunit_eqb. apply N.eqb_neq. intros <-. apply N. left.
    reflexivity. }
  rewrite E. cbn [andb]. f_equal. apply IH. intros H. apply N. right.
  exact H.
Qed.

(** X12.  A reply without backticks is only trimmed; a reply wrapped in a
    [```json] fence or in a plain [```] fence, each on a line of its own,
    is reduced to its trimmed body. *)
Theorem cleanedText_strips_the_fence (body : jsstring) :
  ~ In backtick body ->
  GeminiService.cleanedText body = trim body
  /\ GeminiService.cleanedText
       (lit "```json" ++ [10%N] ++ body ++ [10%N] ++ lit "```")
     = trim body
  /\ GeminiService.cleanedText
       (lit "```" ++ [10%N] ++ body ++ [10%N] ++ lit "```")
     = trim body.
Proof.
  unfold backtick. intros N. unfold GeminiService.cleanedText, remove_all.
  split; [|split].
  - cbn [lit N_of_ascii N_of_digits N.add N.mul].
    rewrite <- (app_nil_r body) at 1.
    rewrite !remove_all_from_plain by exact N.
    simpl. rewrite app_nil_r. reflexivity.
  - cbn. rewrite remove_all_from_plain by exact N.
    cbn. rewrite remove_all_from_plain by exact N.
    cbn. apply trim_line_feed.
  - cbn. rewrite remove_all_from_plain by exact N.
    cbn. rewrite remove_all_from_plain by exact N.
    cbn. apply trim_line_feed.
Qed.

(** A fenced object. *)
Lemma cleanedText_strips_the_fence_run :
  GeminiService.cleanedText
    (lit "```json" ++ [10%N] ++ lit "{ }" ++ [10%N] ++ lit "```")
  = lit "{ }".
Proof.
  destruct (@cleanedText_strips_the_fence (lit "{ }")) as (_ & H & _).
  - simpl. unfold backtick. intros [H|[H|[H|[]]]]; discriminate H.
  - rewrite H. reflexivity.
Defined.

(* ------------------------------------------------------------------ *)
(** ** Key validation and the model catalogue *)

Section ValidationProperties.
Import Validation.
Context {S : Type} {P : Probes S}.

(** X13.  [validateProvider] never throws.  For groq it makes one test
    completion with the given key and is true exactly when that call
    returns; for gemini it makes one [generateContent] with the given key
    and is true exactly when that returns; for any other provider it is
    false and makes no call at all. *)
Theorem validateProvider_probes_once (provider apiKey : jsstring)
    (w : Eff.world probe S) :
  exists b w',
    validateProvider provider apiKey w = (Ok b, w')
    /\ (provider = lit "groq" ->
        b = returned (fst (groq_completion apiKey
                             (lit "llama-3.1-8b-instant") (lit "test") 5
                             (Eff.state w)))
        /\ Eff.log w' =
           Eff.log w ++ [GroqCompletion apiKey (lit "llama-3.1-8b-instant")
                           (lit "test") 5])
    /\ (provider = lit "gemini" ->
        b = returned (fst (gemini_generate apiKey
                             (lit "gemini-2.0-flash-exp") (lit "Hello")
                             (Eff.state w)))
        /\ Eff.log w' =
           Eff.log w ++ [GeminiGenerate apiKey (lit "gemini-2.0-flash-exp")
                           (lit "Hello")])
    /\ (provider <> lit "groq" -> provider <> lit "gemini" ->
        b = false /\ w' = w).
Proof.
  unfold validateProvider, validateGeminiKey.
  unfold Eff.try_catch, Eff.bind, Eff.call_throwing, Eff.ret.
  destruct (jsstring_eqb provider (lit "groq")) eqn:G1.
  - apply jsstring_eqb_eq in G1. subst provider.
    destruct (groq_completion _ _ _ _ (Eff.state w)) as [[[]|e] s'];
      do 2 eexists; (split; [reflexivity|]);
      (split; [intros _; split; reflexivity|]);
      (split; [intros H; discriminate H | intros H; congruence]).
  - destruct (jsstring_eqb provider (lit "gemini")) eqn:G2.
    + apply jsstring_eqb_eq in G2. subst provider.
      destruct (gemini_generate _ _ _ (Eff.state w)) as [[[]|e] s'];
        do 2 eexists; (split; [reflexivity|]);
        (split; [intros H; discriminate H|]);
        (split; [intros _; split; reflexivity | intros _ H; congruence]).
    + apply jsstring_eqb_neq in G1, G2.
      do 2 eexists. split; [reflexivity|].
      split; [intros H; congruence|]. split; [intros H; congruence|].
      intros _ _. split; reflexivity.
Qed.

End ValidationProperties.

(** X14.  [getAvailableModels] lists, for groq and for gemini, models that
    all carry that provider and have distinct ids: three for groq, one for
    gemini.  For any other provider it gives the empty list, except for
    the names of [Object.prototype], for which it gives back what is
    inherited and no array. *)
Theorem catalogue_is_consistent :
  (forall p,
      match Models.getAvailableModels p with
      | Models.Array l =>
          (forall m, In m l -> Models.provider m = p)
          /\ NoDup (map Models.id l)
          /\ (l = [] <-> p <> lit "groq" /\ p <> lit "gemini")
          /\ ~ In p Models.objectPrototype
      | Models.NotAnArray q => q = p /\ In p Models.objectPrototype
      end)
  /\ listed_ids (lit "groq")
     = map lit ["llama-3.3-70b-versatile"; "mixtral-8x7b-32768";
                "llama-3.1-8b-instant"]%string
  /\ listed_ids (lit "gemini") = [lit "gemini-2.0-flash-exp"].
Proof.
  split; [|split; reflexivity].
  intros p. unfold Models.getAvailableModels, Models.MODELS.
  destruct (jsstring_eqb p (lit "groq")) eqn:G1.
  - apply jsstring_eqb_eq in G1. subst p.
    split; [|split; [|split; [split|]]].
    + intros m [<-|[<-|[<-|[]]]]; reflexivity.
    + repeat constructor; simpl; intuition discriminate.
    + intros E. discriminate E.
    + intros [E _]. congruence.
    + intros E. vm_compute in E. intuition discriminate.
  - destruct (jsstring_eqb p (lit "gemini")) eqn:G2.
    + apply jsstring_eqb_eq in G2. subst p.
      split; [|split; [|split; [split|]]].
      * intros m [<-|[]]; reflexivity.
      * repeat constructor; simpl; intuition discriminate.
      * intros E. discriminate E.
      * intros [_ E]. congruence.
      * intros E. vm_compute in E. intuition discriminate.
    + apply jsstring_eqb_neq in G1, G2.
      destruct (existsb (jsstring_eqb p) Models.objectPrototype) eqn:O.
      * split; [reflexivity|].
        apply existsb_exists in O. destruct O as (x & Hx & E).
        apply jsstring_eqb_eq in E. subst x. exact Hx.
      * split; [|split; [|split; [split|]]].
        -- intros m [].
        -- constructor.
        -- intros _. split; assumption.
        -- reflexivity.
        -- intros E.
           assert (T : existsb (jsstring_eqb p) Models.objectPrototype
                       = true).
           { apply existsb_exists. exists p. split; [exact E|].
             apply jsstring_eqb_eq. reflexivity. }
           congruence.
Qed.

(* ------------------------------------------------------------------ *)
(** ** The socket server: authentication and settings *)

Section AuthProperties.
Import Socket.
Context {S : Type} {J : Jwt S}.

(** X15.  The middleware rejects a missing or empty token without
    consulting [jwt.verify]; it accepts each of the three fixed tokens as
    the desktop user, again without consulting [jwt.verify]; any other
    token is verified once, against [JWT_SECRET] when that is set to a
    non-empty string and against the built-in default secret otherwise, and
    is accepted exactly when the verification returns. *)
Theorem authMiddleware_cases (e : env) (token : jsval)
    (w : Eff.world jwt_call S) :
  (truthy token = false ->
   authMiddleware e token w
   = (Ok (NextError (lit "Authentication error: No token provided"), None),
      w))
  /\ (forall t, token = JStr t -> In t allowedTokens ->
      authMiddleware e token w = (Ok (Next, Some desktop_user), w))
  /\ (truthy token = true -> isAllowedToken token = false ->
      forall secret,
        match JWT_SECRET e with
        | Some (c :: s) => secret = c :: s
        | Some [] | None =>
            secret = lit "your-secret-key-change-in-production"
        end ->
        exists out,
          authMiddleware e token w
          = (Ok out,
             {| Eff.state := snd (jwt_verify token secret (Eff.state w));
                Eff.log := Eff.log w ++ [JwtVerify token secret] |})
          /\ match fst (jwt_verify token secret (Eff.state w)) with
             | Ok (id, email) =>
                 out = (Next, Some {| userId := id; userEmail := email |})
             | Throw _ =>
                 out = (NextError (lit "Authentication error: Invalid token"),
                        None)
             end).
Proof.
  unfold authMiddleware. split; [|split].
  - intros ->. reflexivity.
  - intros t -> Hin.
    assert (T : truthy (JStr t) = true).
    { destruct t; [|reflexivity]. vm_compute in Hin.
      intuition discriminate. }
    assert (A : existsb (jsstring_eqb t) allowedTokens = true).
    { apply existsb_exists. exists t. split; [exact Hin|].
      apply jsstring_eqb_eq. reflexivity. }
    rewrite T. unfold isAllowedToken. rewrite A. reflexivity.
  - intros T A secret Hs. rewrite T, A. simpl.
    assert (E : jwtSecret e = secret).
    { unfold jwtSecret. destruct (JWT_SECRET e) as [[|c s]|]; subst secret;
        reflexivity. }
    rewrite E.
    unfold Eff.try_catch, Eff.bind, Eff.call_throwing, Eff.ret.
    destruct (jwt_verify token secret (Eff.state w))
      as [[[id email]|err] s']; eexists; split; reflexivity.
Qed.

End AuthProperties.

(** Under [JWT_SECRET=s3cret] a token signed with that secret is verified
    against it and let in; the desktop token is let in although
    [jwt.verify] would refuse it. *)
Lemma authMiddleware_secret_run :
  Socket.authMiddleware (J := Socket.signed "s3cret" "a-signed-token")
    (Socket.secret_env "s3cret") (JStr (lit "a-signed-token"))
    Socket.no_calls
  = (Ok (Socket.Next,
         Some {| Socket.userId := JStr (lit "user-1");
                 Socket.userEmail := JStr (lit "user@example.com") |}),
     {| Eff.state := tt;
        Eff.log := [Socket.JwtVerify (JStr (lit "a-signed-token"))
                      (lit "s3cret")] |})
  /\ Socket.authMiddleware (J := Socket.accepting "a-signed-token")
       Socket.no_env (JStr (lit "desktop-app-token")) Socket.no_calls
     = (Ok (Socket.Next, Some desktop_user), Socket.no_calls).
Proof.
  split.
  - destruct (@authMiddleware_cases _ (Socket.signed "s3cret" "a-signed-token")
                (Socket.secret_env "s3cret") (JStr (lit "a-signed-token"))
                Socket.no_calls)
      as (_ & _ & H).
    destruct (H eq_refl eq_refl (lit "s3cret") eq_refl) as (out & E & O).
    rewrite E. simpl in O. rewrite O. reflexivity.
  - destruct (@authMiddleware_cases _ (Socket.accepting "a-signed-token")
                Socket.no_env (JStr (lit "desktop-app-token"))
                Socket.no_calls)
      as (_ & H & _).
    apply (H (lit "desktop-app-token") eq_refl).
    right. left. reflexivity.
Defined.

Section SessionProperties.
Import Socket.

Variable e : env.

Lemma destructure_provider_cases (data : jsval) :
  (exists p, destructure data "provider" = Ok (JStr p)
             /\ (p = lit "groq" \/ p = lit "gemini"))
  \/ (forall p, destructure data "provider" = Ok (JStr p) ->
                p <> lit "groq" /\ p <> lit "gemini").
Proof.
  destruct (destructure data "provider") as [[| | | |p| |]|err];
    try (right; intros p0 H; discriminate H).
  destruct (jsstring_eqb p (lit "groq")) eqn:G1.
  - apply jsstring_eqb_eq in G1. left. exists p. auto.
  - destruct (jsstring_eqb p (lit "gemini")) eqn:G2.
    + apply jsstring_eqb_eq in G2. left. exists p. auto.
    + apply jsstring_eqb_neq in G1, G2. right. intros p0 H.
      inversion H; subst. auto.
Qed.

(** X16.  [change_provider] never throws.  It accepts exactly the strings
    groq and gemini: it then selects the provider, resets the model to the
    provider's default ([GROQ_MODEL] or [GEMINI_MODEL] when set) and sends
    the provider, the model and the provider's models; with neither
    variable set, the model selected is one of the models sent.  Anything
    else, a missing [data] included, leaves the session as it is and sends
    one [provider_error]. *)
Theorem change_provider_accepts_groq_and_gemini (data : jsval)
    (w : Eff.world emitted session) :
  fst (change_provider e data w) = Ok tt
  /\ (forall p,
         destructure data "provider" = Ok (JStr p) ->
         p = lit "groq" \/ p = lit "gemini" ->
         let default :=
           if jsstring_eqb p (lit "groq")
           then or_string (GROQ_MODEL e) (lit "llama-3.3-70b-versatile")
           else or_string (GEMINI_MODEL e) (lit "gemini-2.0-flash-exp") in
         let w' := snd (change_provider e data w) in
         currentProvider (Eff.state w') = JStr p
         /\ currentModel (Eff.state w') = JStr default
         /\ customPersona (Eff.state w') = customPersona (Eff.state w)
         /\ conversationHistory (Eff.state w')
            = conversationHistory (Eff.state w)
         /\ Eff.log w' =
            Eff.log w ++ [provider_changed (JStr p) (JStr default)
                            (Models.getAvailableModels p)]
         /\ (GROQ_MODEL e = None -> GEMINI_MODEL e = None ->
             In default (listed_ids p)))
  /\ ((forall p, destructure data "provider" = Ok (JStr p) ->
                 p <> lit "groq" /\ p <> lit "gemini") ->
      exists msg,
        snd (change_provider e data w)
        = {| Eff.state := Eff.state w;
             Eff.log := Eff.log w ++ [error_event (lit "provider_error") msg]
          |}).
Proof.
  unfold change_provider, set_provider, set_model, interpolate.
  unfold Eff.try_catch, Eff.bind, Eff.of_result, Eff.get, Eff.put,
    Eff.emit, Eff.throw, Eff.ret.
  destruct (destructure data "provider") as [v|err].
  - destruct v as [| | | |p| |];
      try (destruct (converts _);
           (split; [reflexivity|]; split;
            [intros p0 H; discriminate H
            | intros _; eexists; reflexivity])).
    change (converts (JStr p)) with true. cbv iota.
    destruct (jsstring_eqb p (lit "groq")) eqn:G1.
    + split; [reflexivity|]. split.
      * intros p0 H _. inversion H; subst p0. rewrite G1. cbv zeta.
        cbn [negb andb]. cbn [snd Eff.state Eff.log currentProvider
                              currentModel customPersona
                              conversationHistory].
        repeat split; try reflexivity.
        intros E1 _. rewrite E1. apply jsstring_eqb_eq in G1. subst p.
        left. reflexivity.
      * intros N. apply jsstring_eqb_eq in G1.
        destruct (N p eq_refl) as [N1 _]. congruence.
    + destruct (jsstring_eqb p (lit "gemini")) eqn:G2.
      * split; [reflexivity|]. split.
        -- intros p0 H _. inversion H; subst p0. rewrite G1. cbv zeta.
           cbn [negb andb]. cbn [snd Eff.state Eff.log currentProvider
                                 currentModel customPersona
                                 conversationHistory].
           repeat split; try reflexivity.
           intros _ E2. rewrite E2. apply jsstring_eqb_eq in G2. subst p.
           left. reflexivity.
        -- intros N. apply jsstring_eqb_eq in G2.
           destruct (N p eq_refl) as [_ N2]. congruence.
      * split; [reflexivity|]. split.
        -- intros p0 H [-> | ->]; inversion H; subst p;
             [rewrite (proj2 (jsstring_eqb_eq _ _) eq_refl) in G1
             |rewrite (proj2 (jsstring_eqb_eq _ _) eq_refl) in G2];
             discriminate.
        -- intros _. eexists. reflexivity.
  - split; [reflexivity|]. split.
    + intros p0 H. discriminate H.
    + intros _. eexists. reflexivity.
Qed.

End SessionProperties.

Section SessionInvariants.
Import Socket.

Variable e : env.

Ltac run_handler :=
  unfold change_provider, change_model, get_models, set_persona,
    user_answer, update_role_type, set_provider, set_model,
    set_persona_var, set_roleType, set_history, interpolate;
  unfold Eff.try_catch, Eff.bind, Eff.of_result, Eff.get, Eff.put,
    Eff.emit, Eff.throw, Eff.ret.

(** One message: the provider stays known, a history of at most ten
    entries stays so, and the log only grows. *)
Lemma handle_keeps (m : client_message) (w : Eff.world emitted session) :
  (known_provider (Eff.state w) ->
   known_provider (Eff.state (snd (handle e m w))))
  /\ (List.length (conversationHistory (Eff.state w)) <= 10 ->
      List.length (conversationHistory (Eff.state (snd (handle e m w))))
      <= 10)
  /\ (exists more, Eff.log (snd (handle e m w)) = Eff.log w ++ more).
Proof.
  destruct m as [data|data| |data|now data|data]; simpl handle.
  - run_handler.
    destruct (destructure data "provider") as [[| | | |p| |]|err];
      try (try destruct (converts _);
           (split; [|split]; [tauto | tauto | eexists; reflexivity])).
    change (converts (JStr p)) with true. cbv iota.
    destruct (jsstring_eqb p (lit "groq")) eqn:G1.
    + apply jsstring_eqb_eq in G1. subst p. simpl.
      split; [|split]; [intros _; left; reflexivity | tauto
                       | eexists; reflexivity].
    + destruct (jsstring_eqb p (lit "gemini")) eqn:G2.
      * apply jsstring_eqb_eq in G2. subst p. simpl.
        split; [|split]; [intros _; right; reflexivity | tauto
                         | eexists; reflexivity].
      * simpl. split; [|split]; [tauto | tauto | eexists; reflexivity].
  - run_handler.
    destruct (destructure data "model") as [v|err];
      [destruct (converts v)|]; simpl;
      (split; [|split]; [tauto | tauto | eexists; reflexivity]).
  - run_handler. simpl.
    split; [|split]; [tauto | tauto | eexists; reflexivity].
  - run_handler.
    destruct (destructure data "persona") as [v|err]; simpl;
      [|split; [|split]; [tauto | tauto | eexists; reflexivity]].
    destruct (truthy v); [destruct v|]; simpl;
      (split; [|split]; [tauto | tauto | eexists; reflexivity]).
  - run_handler.
    destruct (destructure data "answer") as [v|err]; simpl;
      [|split; [|split]; [tauto | tauto | exists []; symmetry;
                                          apply app_nil_r]].
    destruct (truthy v); simpl;
      [|split; [|split]; [tauto | tauto | exists []; symmetry;
                                          apply app_nil_r]].
    destruct (10 <? List.length (conversationHistory (Eff.state w) ++ _))
      eqn:L; simpl.
    + split; [tauto|]. split; [|exists []; symmetry; apply app_nil_r].
      intros Hl. rewrite length_app in L. simpl in L.
      destruct (conversationHistory (Eff.state w)); simpl in *;
        rewrite ?length_app; simpl; lia.
    + split; [tauto|]. split; [|exists []; symmetry; apply app_nil_r].
      intros _. apply Nat.ltb_ge in L. exact L.
  - run_handler.
    destruct (destructure data "roleType") as [v|err]; simpl;
      [|split; [|split]; [tauto | tauto | exists []; symmetry;
                                          apply app_nil_r]].
    destruct (truthy v); [destruct (converts v)|]; simpl;
      (split; [|split]; [tauto | tauto | exists []; symmetry;
                                         apply app_nil_r]).
Qed.

(** X17.  Whatever the client sends to the settings handlers, in whatever
    order: a session whose provider is groq or gemini keeps such a
    provider, a history of at most ten entries never grows beyond ten, and
    nothing already sent to the client is withdrawn. *)
Theorem session_invariants (ms : list client_message)
    (w : Eff.world emitted session) :
  (known_provider (Eff.state w) ->
   known_provider (Eff.state (after e ms w)))
  /\ (List.length (conversationHistory (Eff.state w)) <= 10 ->
      List.length (conversationHistory (Eff.state (after e ms w))) <= 10)
  /\ (exists more, Eff.log (after e ms w) = Eff.log w ++ more).
Proof.
  revert w. induction ms as [|m ms IH]; intros w; simpl.
  - split; [tauto|]. split; [tauto|]. exists []. symmetry.
    apply app_nil_r.
  - destruct (handle_keeps m w) as (K1 & K2 & more1 & K3).
    destruct (IH (snd (handle e m w))) as (I1 & I2 & more2 & I3).
    split; [tauto|]. split; [tauto|].
    exists (more1 ++ more2). rewrite I3, K3, app_assoc. reflexivity.
Qed.

(** X18.  [set_persona] stores a string, and any falsy value, and answers
    [persona_set]; a truthy value that is no string is refused: the
    persona stays as it was and a [persona_error] is sent. *)
Theorem set_persona_takes_strings_only (data persona : jsval)
    (w : Eff.world emitted session) :
  destructure data "persona" = Ok persona ->
  let w' := snd (set_persona data w) in
  fst (set_persona data w) = Ok tt
  /\ ((truthy persona = false \/ exists s, persona = JStr s) ->
      customPersona (Eff.state w') = persona
      /\ Eff.log w' = Eff.log w ++ [persona_set])
  /\ (truthy persona = true -> (forall s, persona <> JStr s) ->
      Eff.state w' = Eff.state w
      /\ Eff.log w' =
         Eff.log w ++ [error_event (lit "persona_error")
                         (lit "persona.substring is not a function")]).
Proof.
  intros D. run_handler. rewrite D.
  destruct persona; simpl; try destruct b; try destruct s;
    try destruct (negb _);
    (split; [reflexivity|]); split;
    try (intros [H | [s0 H]]; try discriminate H; split; reflexivity);
    try (intros _ H; exfalso; eapply H; reflexivity);
    try (intros H; discriminate H);
    try (intros _ _; split; reflexivity);
    try (intros _; split; reflexivity).
Qed.

End SessionInvariants.

(** X19.  A connection opened under [AI_PROVIDER=gemini], with no
    [GROQ_MODEL] set, starts with the provider gemini and the groq default
    model, which is not one of the models listed for gemini. *)
Theorem fresh_gemini_connection_has_a_groq_model (e : Socket.env) :
  Socket.AI_PROVIDER e = Some (lit "gemini") ->
  Socket.GROQ_MODEL e = None ->
  Socket.currentProvider (Socket.connect e) = JStr (lit "gemini")
  /\ Socket.currentModel (Socket.connect e)
     = JStr (lit "llama-3.3-70b-versatile")
  /\ ~ In (lit "llama-3.3-70b-versatile") (listed_ids (lit "gemini"))
  /\ In (lit "llama-3.3-70b-versatile") (listed_ids (lit "groq")).
Proof.
  intros A G. unfold Socket.connect. rewrite A, G.
  split; [reflexivity|]. split; [reflexivity|]. split.
  - vm_compute. intros [H|[]]. discriminate H.
  - left. reflexivity.
Qed.

(** The settings after a refused provider, a model change and eleven
    answers. *)
Lemma session_invariants_run :
  known_provider
    (Eff.state
       (Socket.after Socket.no_env
          (Socket.ChangeProvider (Socket.payload "provider" (JStr (lit "openai")))
           :: Socket.ChangeModel (Socket.payload "model" (JStr (lit "any")))
           :: repeat (Socket.UserAnswer (lit "2024-01-01T00:00:00.000Z")
                        (Socket.payload "answer" (JStr (lit "I agree"))))
                11)
          (Socket.fresh Socket.no_env)))
  /\ List.length
       (Socket.conversationHistory
          (Eff.state
             (Socket.after Socket.no_env
                (Socket.ChangeProvider
                   (Socket.payload "provider" (JStr (lit "openai")))
                 :: Socket.ChangeModel
                      (Socket.payload "model" (JStr (lit "any")))
                 :: repeat (Socket.UserAnswer (lit "2024-01-01T00:00:00.000Z")
                              (Socket.payload "answer" (JStr (lit "I agree"))))
                      11)
                (Socket.fresh Socket.no_env)))) <= 10.
Proof.
  destruct (session_invariants Socket.no_env
              (Socket.ChangeProvider
                 (Socket.payload "provider" (JStr (lit "openai")))
               :: Socket.ChangeModel
                    (Socket.payload "model" (JStr (lit "any")))
               :: repeat (Socket.UserAnswer (lit "2024-01-01T00:00:00.000Z")
                            (Socket.payload "answer" (JStr (lit "I agree"))))
                    11)
              (Socket.fresh Socket.no_env)) as (H1 & H2 & _).
  split.
  - apply H1. left. reflexivity.
  - apply H2. simpl. lia.
Defined.

Lemma set_persona_number_run :
  Eff.log (snd (Socket.set_persona (Socket.payload "persona" (JNum 5))
                  (Socket.fresh Socket.no_env)))
  = [Socket.error_event (lit "persona_error")
       (lit "persona.substring is not a function")].
Proof.
  destruct (@set_persona_takes_strings_only
              (Socket.payload "persona" (JNum 5)) (JNum 5)
              (Socket.fresh Socket.no_env) eq_refl) as (_ & _ & H).
  destruct H as [_ H]; [reflexivity | intros s E; discriminate E |].
  exact H.
Defined.

Lemma fresh_gemini_connection_run :
  Socket.currentModel
    (Socket.connect {| Socket.AI_PROVIDER := Some (lit "gemini");
                       Socket.GROQ_MODEL := None;
                       Socket.GEMINI_MODEL := None;
                       Socket.JWT_SECRET := None |})
  = JStr (lit "llama-3.3-70b-versatile").
Proof.
  destruct (@fresh_gemini_connection_has_a_groq_model
              {| Socket.AI_PROVIDER := Some (lit "gemini");
                 Socket.GROQ_MODEL := None;
                 Socket.GEMINI_MODEL := None;
                 Socket.JWT_SECRET := None |} eq_refl eq_refl)
    as (_ & H & _).
  exact H.
Defined.

(* ------------------------------------------------------------------ *)
(** ** The WAV header *)

Section WavProperties.
Import Wav.

Lemma land_255 (v : Z) : Z.land v 255 = (v mod 256)%Z.
Proof. change 255%Z with (Z.ones 8). rewrite Z.land_ones by lia. reflexivity. Qed.

Lemma shiftr_div (v : Z) (n : Z) : (0 <= n)%Z -> Z.shiftr v n = (v / 2 ^ n)%Z.
Proof. intros H. apply Z.shiftr_div_pow2. exact H. Qed.

(** Four bytes written least significant first read back as the value. *)
Lemma uint32_read_back (v : Z) :
  (0 <= v <= 4294967295)%Z ->
  (Z.land v 255 + 256 * Z.land (Z.shiftr v 8) 255
   + 65536 * Z.land (Z.shiftr v 16) 255
   + 16777216 * Z.land (Z.shiftr v 24) 255 = v)%Z.
Proof.
  intros H. rewrite !land_255, !shiftr_div by lia.
  change (2 ^ 8)%Z with 256%Z. change (2 ^ 16)%Z with 65536%Z.
  change (2 ^ 24)%Z with 16777216%Z.
  Z.to_euclidean_division_equations. lia.
Qed.

Lemma byte_range (v : Z) : (0 <= Z.land v 255 <= 255)%Z.
Proof. rewrite land_255. pose proof (Z.mod_pos_bound v 256). lia. Qed.

Lemma in_range_32 (v : Z) :
  (0 <= v <= 4294967295)%Z ->
  ((0 <=? v) && (v <=? 4294967295))%Z = true.
Proof. intros H. apply andb_true_intro. split; apply Z.leb_le; lia. Qed.

(** The header [createWavBuffer] builds, spelled out. *)
Lemma createWavBuffer_spelled_out (pcm : buffer) (sampleRate : Z) :
  (Z.of_nat (List.length pcm) <= 4294967259)%Z ->
  (0 <= sampleRate <= 2147483647)%Z ->
  createWavBuffer pcm sampleRate =
  Some ([82; 73; 70; 70]%Z
        ++ uint32LE (36 + Z.of_nat (List.length pcm))
        ++ [87; 65; 86; 69; 102; 109; 116; 32]%Z
        ++ [16; 0; 0; 0; 1; 0; 1; 0]%Z
        ++ uint32LE sampleRate
        ++ uint32LE (sampleRate * 2)
        ++ [2; 0; 16; 0]%Z
        ++ [100; 97; 116; 97]%Z
        ++ uint32LE (Z.of_nat (List.length pcm))
        ++ pcm).
Proof.
  intros Hl Hs.
  unfold createWavBuffer, writeUInt32LE, writeUInt16LE.
  rewrite (@in_range_32 (36 + Z.of_nat (List.length pcm))) by lia.
  rewrite (@in_range_32 sampleRate) by lia.
  rewrite (@in_range_32 (sampleRate * 2)) by lia.
  rewrite (@in_range_32 (Z.of_nat (List.length pcm))) by lia.
  reflexivity.
Qed.

(** X20.  For a payload of at most 4294967259 bytes and a sample rate of
    at most 2^31 - 1, [createWavBuffer] returns the 44 header bytes
    followed by the payload unchanged.  The header reads RIFF, WAVE,
    "fmt " and data at their places; its size fields read back as the
    payload length and as the file length less 8; it declares PCM, one
    channel, the sample rate, twice that as the byte rate, block align 2
    and 16 bits per sample.  A longer payload makes the size field
    overflow and the function throw. *)
Theorem createWavBuffer_header (pcm : buffer) (sampleRate : Z) :
  (0 <= sampleRate <= 2147483647)%Z ->
  ((Z.of_nat (List.length pcm) <= 4294967259)%Z ->
   exists wav,
     createWavBuffer pcm sampleRate = Some wav
     /\ List.length wav = 44 + List.length pcm
     /\ skipn 44 wav = pcm
     /\ Forall (fun b => 0 <= b <= 255)%Z (firstn 44 wav)
     /\ text_at wav 0 4 = map Z.of_N (lit "RIFF")
     /\ text_at wav 8 8 = map Z.of_N (lit "WAVEfmt ")
     /\ text_at wav 36 4 = map Z.of_N (lit "data")
     /\ readUInt32LE wav 4 = (Z.of_nat (List.length wav) - 8)%Z
     /\ readUInt32LE wav 40 = Z.of_nat (List.length pcm)
     /\ readUInt32LE wav 16 = 16%Z
     /\ readUInt16LE wav 20 = 1%Z
     /\ readUInt16LE wav 22 = 1%Z
     /\ readUInt32LE wav 24 = sampleRate
     /\ readUInt32LE wav 28 = (2 * sampleRate)%Z
     /\ readUInt16LE wav 32 = 2%Z
     /\ readUInt16LE wav 34 = 16%Z)
  /\ ((4294967259 < Z.of_nat (List.length pcm))%Z ->
      createWavBuffer pcm sampleRate = None).
Proof.
  intros Hs. split.
  - intros Hl. eexists. split; [apply createWavBuffer_spelled_out; lia|].
    unfold uint32LE, readUInt32LE, readUInt16LE, text_at.
    cbn [app List.length skipn firstn nth Nat.add].
    pose proof (@uint32_read_back (36 + Z.of_nat (List.length pcm))
                  ltac:(lia)) as R1.
    pose proof (@uint32_read_back (Z.of_nat (List.length pcm)) ltac:(lia))
      as R2.
    pose proof (@uint32_read_back sampleRate ltac:(lia)) as R3.
    pose proof (@uint32_read_back (sampleRate * 2) ltac:(lia)) as R4.
    split; [reflexivity|]. split; [reflexivity|]. split.
    { repeat (constructor; [first [apply byte_range | lia]|]).
      constructor. }
    repeat split; try reflexivity; try lia.
  - intros Hl. unfold createWavBuffer, writeUInt32LE.
    assert (R : ((0 <=? 36 + Z.of_nat (List.length pcm))
                 && (36 + Z.of_nat (List.length pcm) <=? 4294967295))%Z
                = false).
    { apply andb_false_intro2. apply Z.leb_gt. lia. }
    rewrite R. reflexivity.
Qed.

End WavProperties.

(** Two samples at 16 kHz. *)
Lemma createWavBuffer_run :
  exists wav,
    Wav.createWavBuffer [1; 0; 255; 127]%Z 16000 = Some wav
    /\ List.length wav = 48
    /\ skipn 44 wav = [1; 0; 255; 127]%Z
    /\ Wav.readUInt32LE wav 40 = 4%Z
    /\ Wav.readUInt32LE wav 28 = 32000%Z.
Proof.
  destruct (@createWavBuffer_header [1; 0; 255; 127]%Z 16000 ltac:(lia))
    as [H _].
  destruct H as (wav & E & Hl & Hp & _ & _ & _ & _ & _ & H40 & _ & _ & _ & _
                 & H28 & _).
  - simpl. lia.
  - exists wav. repeat split; assumption.
Defined.

(* ------------------------------------------------------------------ *)
(** ** The [audio_file] handler *)

Section AudioProperties.
Context {S : Type} {P : Audio.Platform S}.
Import Audio AudioLog.

Ltac run_eff :=
  unfold Eff.try_catch, Eff.bind, Eff.emit, Eff.throw, Eff.ret,
    Eff.of_result, call_throwing, fs_existsSync, now, push, history.

(** Find a member of a list of appended pieces. *)
Ltac find_in :=
  cbn [In app]; rewrite ?in_app_iff;
  first [ assumption | reflexivity | left; find_in | right; find_in ].

(** A list of appended pieces holds no write. *)
Ltac no_write :=
  repeat first
    [ rewrite filter_app
    | progress cbn [filter is_write app]
    | match goal with
      | H : filter is_write _ = [] |- _ => rewrite H
      end ];
  reflexivity.

Lemma no_write_in_core (tr : list event) :
  filter is_write (map Core tr) = [].
Proof.
  induction tr as [|ev tr IH]; [reflexivity | exact IH].
Qed.

Lemma transcribe_log (k : keys) (f : jsstring) w :
  exists evs,
    Eff.log (snd (transcribe k f w)) = Eff.log w ++ evs
    /\ filter is_write evs = [].
Proof.
  unfold transcribe. run_eff.
  destruct (negb (falsy_string (GROQ_API_KEY k))).
  - destruct (groq_whisper _ _ _) as [[t|e] s1]; cbn [fst snd Eff.log Eff.state].
    + eexists; split; reflexivity.
    + destruct (negb (falsy_string (OPENAI_API_KEY k))).
      * destruct (openai_whisper _ _ _) as [[t|e'] s2];
          cbn [fst snd Eff.log Eff.state]; rewrite <- app_assoc;
          eexists; split; reflexivity.
      * eexists; split; reflexivity.
  - destruct (openai_whisper _ _ _) as [[t|e'] s2];
      cbn [fst snd Eff.log Eff.state]; eexists; split; reflexivity.
Qed.

Lemma answerTranscript_log (st : settings) (t : jsstring) w :
  exists evs,
    Eff.log (snd (answerTranscript st t w))
    = Eff.log w ++ Emit (transcript_final t) :: evs
    /\ filter is_write evs = [].
Proof.
  unfold answerTranscript, generateAIResponse. run_eff.
  cbn [fst snd Eff.log Eff.state].
  destruct (AiService.generateInterviewResponse _ _ _ _ _ _ _ _)
    as [[r|e] cw]; cbn [fst snd Eff.log Eff.state].
  - pose proof (no_write_in_core (trace cw)) as Hc.
    destruct (truthy (answer r)); [destruct (answer r)|];
      cbn [fst snd Eff.log Eff.state]; rewrite <- ?app_assoc;
      eexists; (split; [reflexivity | no_write]).
  - rewrite <- app_assoc. eexists. split; [reflexivity|].
    apply no_write_in_core.
Qed.

Lemma transcribeAndAnswer_log (k : keys) (st : settings) (f : jsstring) w :
  exists evs,
    Eff.log (snd (transcribeAndAnswer k st f w)) = Eff.log w ++ evs
    /\ filter is_write evs = []
    /\ (fst (transcribeAndAnswer k st f w) = Ok tt ->
        (exists s, In (Emit s) evs) /\ In (UnlinkSync f) evs).
Proof.
  unfold transcribeAndAnswer.
  destruct (transcribe_log k f w) as (tevs & Ht & Hw).
  unfold Eff.bind.
  destruct (transcribe k f w) as [[t|e] w1]; cbn [fst snd] in *.
  - unfold call_throwing.
    destruct (unlinkSync f (fst (Eff.state w1))) as [[[]|e] s2];
      cbn [fst snd Eff.log Eff.state].
    + destruct t as [|c t].
      * unfold Eff.emit. cbn [fst snd Eff.log Eff.state]. rewrite Ht.
        rewrite <- !app_assoc. eexists. split; [reflexivity|].
        split; [no_write|].
        intros _. split; [eexists|]; find_in.
      * match goal with
        | |- context [answerTranscript st ?t ?w] =>
            destruct (answerTranscript_log st t w) as (aevs & Ha & Hwa);
            destruct (answerTranscript st t w) as [ra wa]
        end.
        cbn [fst snd Eff.log Eff.state] in *. rewrite Ha, Ht.
        rewrite <- !app_assoc. eexists. split; [reflexivity|].
        split; [no_write|].
        intros _. split; [eexists|]; find_in.
    + rewrite Ht, <- app_assoc. eexists. split; [reflexivity|].
      split; [no_write|]. intros X; discriminate X.
  - eexists. split; [exact Ht|]. split; [exact Hw|].
    intros X; discriminate X.
Qed.

Lemma reportAndCleanUp_log (f : jsstring) (err : exn) w :
  exists evs,
    Eff.log (snd (reportAndCleanUp f err w))
    = Eff.log w ++ Emit (error_sent (lit "stt_error") (message err)) :: evs
    /\ filter is_write evs = []
    /\ (In (UnlinkSync f) evs \/ In (ExistsSync f false) evs).
Proof.
  unfold reportAndCleanUp. run_eff. cbn [fst snd Eff.log Eff.state].
  destruct (existsSync f (fst (Eff.state w))) as [[|] s1];
    cbn [fst snd Eff.log Eff.state].
  - destruct (unlinkSync f s1) as [r s2]. cbn [fst snd Eff.log Eff.state].
    rewrite <- !app_assoc. eexists. split; [reflexivity|].
    split; [reflexivity|]. left. find_in.
  - rewrite <- !app_assoc. eexists. split; [reflexivity|].
    split; [reflexivity|]. right. find_in.
Qed.

(** Close a run whose result and world are known: the log, a message sent,
    the writes, and the fate of the file. *)
Ltac close_run :=
  do 2 eexists; split; [reflexivity|];
  cbn [Eff.log]; rewrite <- ?app_assoc; split; [reflexivity|];
  split; [eexists; find_in|];
  split; [cbn; lia | unfold cleaned_up; cbn [app after_write]].

(** What every run of the handler looks like. *)
Lemma audio_file_shape (k : keys) (st : settings) (data : option audio_data)
    w :
  exists w' evs,
    audio_file k st data w = (Ok tt, w')
    /\ Eff.log w' = Eff.log w ++ evs
    /\ (exists s, In (Emit s) evs)
    /\ List.length (filter is_write evs) <= 1
    /\ cleaned_up evs.
Proof.
  unfold audio_file.
  destruct data as [d|].
  2:{ run_eff. cbn [fst snd Eff.log Eff.state]. close_run. exact I. }
  cbv zeta.
  unfold Eff.try_catch at 1. unfold Eff.bind at 1. unfold Eff.of_result at 1.
  destruct (Buffer_from (audio d)) as [buf|e0].
  2:{ unfold Eff.emit. cbn [fst snd Eff.log Eff.state]. close_run.
      exact I. }
  destruct (falsy_string (GROQ_API_KEY k) && falsy_string (OPENAI_API_KEY k)).
  { unfold Eff.emit. cbn [fst snd Eff.log Eff.state]. close_run. exact I. }
  unfold Eff.bind at 1. unfold fs_existsSync at 1.
  (* the directory: there, or made, or [mkdirSync] throws *)
  destruct (existsSync tempDir (fst (Eff.state w))) as [[|] s1];
    unfold Eff.bind at 1; cbn [negb];
    [ unfold Eff.ret at 1
    | unfold call_throwing at 1; cbn [fst snd Eff.log Eff.state];
      destruct (mkdirSync tempDir s1) as [[[]|e1] s2];
      [| unfold Eff.emit; cbn [fst snd Eff.log Eff.state]; close_run;
         exact I ] ].
  (* the file: written, or [writeFileSync] throws *)
  all: unfold Eff.bind at 1; unfold now at 1;
    cbn [fst snd Eff.log Eff.state].
  all: match goal with
       | |- context [Date_now ?s] => destruct (Date_now s) as [t s3]
       end.
  all: match goal with
       | |- context [tempFileName ?t0 ?fmt] => set (f := tempFileName t0 fmt)
       end.
  all: unfold Eff.bind at 1; unfold call_throwing at 1;
    cbn [fst snd Eff.log Eff.state].
  all: match goal with
       | |- context [writeFileSync ?f0 ?b ?s] =>
           destruct (writeFileSync f0 b s) as [[[]|e2] s4]
       end.
  2, 4: unfold Eff.emit; cbn [fst snd Eff.log Eff.state]; close_run;
    right; right; reflexivity.
  (* the inner [try] and its [catch] *)
  all: unfold Eff.try_catch.
  all: match goal with
       | |- context [transcribeAndAnswer ?k0 ?st0 ?f0 ?w0] =>
           destruct (transcribeAndAnswer_log k0 st0 f0 w0)
             as (evs1 & H1 & Hw1 & Hok);
           destruct (transcribeAndAnswer k0 st0 f0 w0) as [[[]|e3] w1]
       end; cbn [fst snd Eff.log Eff.state] in *.
  1, 3: destruct (Hok eq_refl) as [[s Hs] Hu];
    exists w1; eexists; split; [reflexivity|];
    rewrite H1, <- ?app_assoc; split; [reflexivity|];
    split; [exists s; find_in|];
    split; [ rewrite ?filter_app, Hw1; cbn; lia
           | unfold cleaned_up; cbn [app after_write]; left; exact Hu].
  all: destruct (reportAndCleanUp_log f e3 w1) as (evs2 & H2 & Hw2 & Hc);
    destruct (reportAndCleanUp f e3 w1) as [[[]|e4] w2];
    cbn [fst snd Eff.log Eff.state] in *.
  1, 3: exists w2; eexists; split; [reflexivity|];
    rewrite H2, H1, <- ?app_assoc; split; [reflexivity|];
    split; [eexists; find_in|];
    split; [ rewrite ?filter_app, Hw1; cbn [filter is_write app];
             rewrite ?filter_app, Hw2; cbn; lia
           | unfold cleaned_up; cbn [app after_write];
             destruct Hc as [Hc|Hc]; [left|right; left]; find_in].
  all: unfold Eff.emit; cbn [fst snd Eff.log Eff.state];
    do 2 eexists; split; [reflexivity|];
    cbn [Eff.log]; rewrite H2, H1, <- ?app_assoc; split; [reflexivity|];
    split; [eexists; find_in|];
    split; [ rewrite ?filter_app, Hw1; cbn [filter is_write app];
             rewrite ?filter_app, Hw2; cbn; lia
           | unfold cleaned_up; cbn [app after_write];
             destruct Hc as [Hc|Hc]; [left|right; left]; find_in].
Qed.

(** X21.  Whatever the message, the keys, the file system and the speech
    and AI services do, the [audio_file] handler returns rather than
    throws, and it sends the client at least one message. *)
Theorem audio_file_always_answers (k : keys) (st : settings)
    (data : option audio_data) w :
  exists w' evs,
    audio_file k st data w = (Ok tt, w')
    /\ Eff.log w' = Eff.log w ++ evs
    /\ exists s, In (Emit s) evs.
Proof.
  destruct (audio_file_shape k st data w) as (w' & evs & E & L & M & _).
  exists w', evs. auto.
Qed.

(** X22.  The handler writes at most one file, and it does not leave it
    behind: after the write it calls [unlinkSync] on that file, or
    [existsSync] has found the file gone, or nothing follows the write but
    the message that processing failed. *)
Theorem audio_file_removes_its_temp_file (k : keys) (st : settings)
    (data : option audio_data) w :
  exists evs,
    Eff.log (snd (audio_file k st data w)) = Eff.log w ++ evs
    /\ List.length (filter is_write evs) <= 1
    /\ cleaned_up evs.
Proof.
  destruct (audio_file_shape k st data w) as (w' & evs & E & L & _ & W & C).
  exists evs. rewrite E. auto.
Qed.

(** X23.  When the orchestrator answers a transcript with its error
    response, the handler sends the apology to the client as
    [answer_final], like any answer, and appends the transcript and the
    apology to the conversation history, which later calls pass on to the
    adapters. *)
Theorem error_response_is_sent_as_answer (st : settings)
    (transcript : jsstring) w (e : exn) :
  let run :=
    AiService.generateInterviewResponse (Svc := core) transcript
      (currentProvider st) (currentModel st) (snd (Eff.state w))
      (currentRoleType st) (userContext st) (customPersona st)
      (core_world w) in
  fst run
  = Ok (AiService.fallbackResponse e (currentProvider st) (currentModel st)) ->
  answerTranscript st transcript w
  = (Ok tt,
     {| Eff.state :=
          (services (snd run),
           snd (Eff.state w)
           ++ [ {| role := lit "user"; content := transcript |};
                {| role := lit "assistant"; content := apology e |} ]);
        Eff.log :=
          Eff.log w
          ++ Emit (transcript_final transcript)
          :: map Core (trace (snd run))
          ++ [Emit (answer_final (apology e) (currentProvider st)
                      (currentModel st) (JArr []) (JArr []) (JArr []))] |}).
Proof.
  cbv zeta. unfold core_world.
  unfold answerTranscript, generateAIResponse. run_eff.
  cbn [fst snd Eff.log Eff.state].
  destruct (AiService.generateInterviewResponse _ _ _ _ _ _ _ _)
    as [r cw].
  cbn [fst snd]. intros ->.
  cbn [fst snd Eff.log Eff.state AiService.fallbackResponse answer
       key_technologies experience_mentioned follow_up_topics].
  unfold apology. cbn. rewrite <- !app_assoc. reflexivity.
Qed.

End AudioProperties.

(** A rate-limited connection: the transcript of the recording and the
    apology of the rejection are the first two turns of the history. *)
Lemma error_response_is_sent_as_answer_run :
  snd (Eff.state (snd
    (Audio.answerTranscript
       (P := Audio.scripted Mock.rate_limited
               (Ok (lit "Tell me about yourself"))
               (Throw (Error (lit "unused"))))
       Audio.defaults (lit "Tell me about yourself") Audio.start)))
  = [ {| role := lit "user"; content := lit "Tell me about yourself" |};
      {| role := lit "assistant";
         content :=
           AudioLog.apology
             (Error (AiService.rateLimitMessage Mock.reject_60)) |} ].
Proof.
  rewrite (@error_response_is_sent_as_answer _
             (Audio.scripted Mock.rate_limited
                (Ok (lit "Tell me about yourself"))
                (Throw (Error (lit "unused"))))
             Audio.defaults (lit "Tell me about yourself") Audio.start
             (Error (AiService.rateLimitMessage Mock.reject_60)) eq_refl).
  reflexivity.
Defined.

(** A whole run: groq transcribes the recording, the rate limiter rejects,
    and the client gets the transcript and the apology. *)
Example audio_file_rate_limited_run :
  Eff.log (snd
    (Audio.audio_file
       (P := Audio.scripted Mock.rate_limited
               (Ok (lit " Tell me about yourself "))
               (Throw (Error (lit "unused"))))
       Audio.groq_key Audio.defaults Audio.recording Audio.start))
  = [ Audio.ExistsSync (lit "/srv/temp") true;
      Audio.Now;
      Audio.WriteFileSync (lit "/srv/temp/audio_0.webm") [82; 73; 70; 70]%Z;
      Audio.GroqWhisper (lit "gsk_test") (lit "/srv/temp/audio_0.webm");
      Audio.UnlinkSync (lit "/srv/temp/audio_0.webm");
      Audio.Emit (Audio.transcript_final (lit "Tell me about yourself"));
      Audio.Core (RateLimitCheck (lit "groq"));
      Audio.Emit
        (Audio.answer_final
           (AudioLog.apology
              (Error (AiService.rateLimitMessage Mock.reject_60)))
           (lit "groq") (Some (lit "llama-3.3-70b-versatile"))
           (JArr []) (JArr []) (JArr [])) ].
Proof.
  vm_compute. reflexivity.
Qed.

(** Without a key for either speech service nothing is written or called:
    the client gets the one error. *)
Example audio_file_without_keys_run :
  Eff.log (snd
    (Audio.audio_file
       (P := Audio.scripted Mock.rate_limited
               (Ok (lit "unused")) (Ok (lit "unused")))
       Audio.no_keys Audio.defaults Audio.recording Audio.start))
  = [ Audio.Emit (Audio.error_sent (lit "stt_error")
                    (lit "STT API key not configured")) ].
Proof.
  vm_compute. reflexivity.
Qed.
